(** * Chore scheduler: availability normalisation, allocation engine, retention

    A shallow embedding of the rule engine of the chore scheduler
    (src/script.js and its refactored sibling src/unnamed/part_001) and the
    properties its design document states about it.

    The persisted JSON document is the state.  Every handler of the program
    is [loadData(); ...; saveData(data)], so a handler is a function from
    the stored document to the stored document, together with the user
    interface effects it performs and the random draws it consumes. *)

From Stdlib Require Import ZArith Lia Ascii String.
From stdpp Require Import gmap strings list fin_maps sorting.

Local Open Scope string_scope.
Local Open Scope nat_scope.

(** ** Data model *)

(** [{ id, name }], the element type of [data.chores] and [data.people]. *)
Record Chore := mkChore { chore_id : string; chore_name : string }.
Record Person := mkPerson { person_id : string; person_name : string }.

(** One entry of [data.assignmentsByDate].  [availablePersonIds] is a JS
    array (order and repetitions are representable), [assignments] a JS
    object used as a map from chore id to person id. *)
Record DayRecord := mkDay {
  availablePersonIds : list string;
  assignments : gmap string string;
  confirmed : bool
}.

(** The stored document.  [assignmentsByDate] is keyed by the
    [YYYY-MM-DD] string of the day. *)
Record Data := mkData {
  chores : list Chore;
  people : list Person;
  assignmentsByDate : gmap string DayRecord
}.

Definition withDays (data : Data) (days : gmap string DayRecord) : Data :=
  {| chores := chores data; people := people data; assignmentsByDate := days |}.

Definition withAvailable (day : DayRecord) (ids : list string) : DayRecord :=
  {| availablePersonIds := ids;
     assignments := assignments day;
     confirmed := confirmed day |}.

Definition withAssignments (day : DayRecord) (m : gmap string string) : DayRecord :=
  {| availablePersonIds := availablePersonIds day;
     assignments := m;
     confirmed := confirmed day |}.

(** ** History *)

(** The JS comparison [d < beforeDate] on strings: lexicographic on the
    character codes. *)
Definition dateBefore (d beforeDate : string) : Prop := String.ltb d beforeDate.

Global Instance dateBefore_dec d b : Decision (dateBefore d b).
Proof. unfold dateBefore. apply _. Defined.

(** [Object.keys(m)]. *)
Definition objectKeys {V} (m : gmap string V) : list string := (map_to_list m).*1.

(** [Object.values(m)]. *)
Definition objectValues {V} (m : gmap string V) : list V := (map_to_list m).*2.

(** [Object.keys(data.assignmentsByDate).filter(d => d < beforeDate).sort().reverse()]:
    the recorded dates strictly before [beforeDate], most recent first. *)
Definition priorDates (data : Data) (beforeDate : string) : list string :=
  reverse (merge_sort String.le
     (filter (λ d, dateBefore d beforeDate) (objectKeys (assignmentsByDate data)))).

(** [getLastWorkday] (script.js) / [getMostRecentDay] (part_001):
    [dates.length ? data.assignmentsByDate[dates[0]] : null]. *)
Definition getLastWorkday (data : Data) (beforeDate : string) : option DayRecord :=
  match priorDates data beforeDate with
  | [] => None
  | d :: _ => assignmentsByDate data !! d
  end.

(** ** Availability normalisation *)

(** [data.people.some(p => p.id === pid)]. *)
Definition isPerson (data : Data) (pid : string) : Prop :=
  pid ∈ person_id <$> people data.

Global Instance isPerson_dec data pid : Decision (isPerson data pid).
Proof. unfold isPerson. apply _. Defined.

(** The availability a freshly created day starts from:
    [lastDay && lastDay.availablePersonIds.length ? [...lastDay.availablePersonIds] : []]. *)
Definition inheritedAvailability (lastDay : option DayRecord) : list string :=
  match lastDay with
  | Some d => match availablePersonIds d with [] => [] | ids => ids end
  | None => []
  end.

(** The availability an existing day is filtered from:
    [if (day.availablePersonIds.length === 0) { const lastDay = ...;
        if (lastDay?.availablePersonIds?.length)
          day.availablePersonIds = [...lastDay.availablePersonIds]; }]. *)
Definition reseeded (ids : list string) (lastDay : option DayRecord) : list string :=
  match ids with
  | [] =>
      match lastDay with
      | Some d => match availablePersonIds d with [] => ids | inherited => inherited end
      | None => ids
      end
  | _ => ids
  end.

(** [normalizeAvailability(data, date)], the effect on the document.  The
    field is typed as an array here, so the [Array.isArray] guard of the
    source is the identity. *)
Definition normalizeAvailability (data : Data) (date : string) : Data :=
  match assignmentsByDate data !! date with
  | None =>
      let lastDay := getLastWorkday data date in
      withDays data
        (<[date := {| availablePersonIds := inheritedAvailability lastDay;
                      assignments := ∅;
                      confirmed := false |}]> (assignmentsByDate data))
  | Some day =>
      let ids := reseeded (availablePersonIds day) (getLastWorkday data date) in
      withDays data
        (<[date := withAvailable day (filter (isPerson data) ids)]>
           (assignmentsByDate data))
  end.

(** ** Collaborators: the random source and the user interface *)

(** The random source is a stream of raw draws; the k-th call of
    [Math.floor(Math.random() * n)] yields the k-th draw reduced into
    [0, n), so every index sequence the program can see is represented. *)
Definition Rng := nat → nat.

Definition uniform (rng : Rng) (n : nat) : nat * Rng :=
  (rng 0 mod n, λ k, rng (S k)).

(** What the user gets to see: [alert(msg)] and writes to the text of the
    [#warning] element ([showError(msg)]; [clearError()] writes the empty
    string). *)
Inductive UiEvent :=
  | Alert (msg : string)
  | WarningText (msg : string).

(** The messages actually shown, in order (clearing shows nothing). *)
Definition shownWarnings (ui : list UiEvent) : list string :=
  omap (λ e, match e with
             | Alert m => Some m
             | WarningText m => if decide (m = "") then None else Some m
             end) ui.

Definition msgConfirmed : string :=
  "Assignments are already confirmed for today.".
Definition msgNoPeople : string :=
  "No available people selected. Please select availability before generating assignments.".
Definition msgNotEnough : string :=
  "Not enough available people for all chores. Please adjust availability or assign manually.".
Definition msgImpossible : string :=
  "Assignment impossible without violating daily limits. Manual review required.".
Definition msgRelaxed : string :=
  "Fairness rules were relaxed for some chores. Manual review recommended.".

(** ** Allocation engine *)

Definition SAME_CHORE_COOLDOWN_DAYS : nat := 5.
Definition CONSECUTIVE_ASSIGNMENT_LIMIT : nat := 2.

(** [data.assignmentsByDate[d]?.assignments || {}]. *)
Definition assignmentsOn (data : Data) (d : string) : gmap string string :=
  match assignmentsByDate data !! d with
  | Some day => assignments day
  | None => ∅
  end.

(** [dates.slice(0, CONSECUTIVE_ASSIGNMENT_LIMIT).every(d =>
       Object.values(data.assignmentsByDate[d]?.assignments || {}).includes(pid))]. *)
Definition assignedOnEveryRecentDay (data : Data) (dates : list string) (pid : string) : bool :=
  forallb (λ d, bool_decide (pid ∈ objectValues (assignmentsOn data d)))
          (take CONSECUTIVE_ASSIGNMENT_LIMIT dates).

(** [dates.slice(0, SAME_CHORE_COOLDOWN_DAYS).some(d =>
       data.assignmentsByDate[d]?.assignments?.[chore.id] === pid)]. *)
Definition hadChoreRecently (data : Data) (dates : list string) (chore : Chore)
    (pid : string) : bool :=
  existsb (λ d, bool_decide (assignmentsOn data d !! chore_id chore = Some pid))
          (take SAME_CHORE_COOLDOWN_DAYS dates).

(** [if (enforceSingleChore) candidates = candidates.filter(pid => !assignedToday.has(pid))]. *)
Definition notYetAssigned (enforceSingleChore : bool) (assignedToday : gset string)
    (candidates : list string) : list string :=
  if enforceSingleChore then filter (λ pid, pid ∉ assignedToday) candidates
  else candidates.

(** The candidate list of one chore in the strict pass: the three filters,
    in the order of the source. *)
Definition phase1Candidates (data : Data) (dates : list string)
    (enforceSingleChore : bool) (available : list string)
    (assignedToday : gset string) (chore : Chore) : list string :=
  let candidates := notYetAssigned enforceSingleChore assignedToday available in
  let candidates :=
    filter (λ pid, ¬ assignedOnEveryRecentDay data dates pid) candidates in
  filter (λ pid, ¬ hadChoreRecently data dates chore pid) candidates.

(** The candidate list of one chore in the relaxed pass. *)
Definition phase2Candidates (enforceSingleChore : bool) (available : list string)
    (assignedToday : gset string) : list string :=
  notYetAssigned enforceSingleChore assignedToday available.

(** The local variables of a pass, and how it ended: [completed] is
    [success] for the strict pass (false after its [break]) and false for
    the relaxed pass when it hit the early [return]. *)
Record Pass := mkPass {
  completed : bool;
  newAssignments : gmap string string;
  assignedToday : gset string;
  random : Rng
}.

(** [candidates[Math.floor(Math.random() * candidates.length)]] on a
    non-empty array whose first element is [c0]. *)
Definition pickOne (rng : Rng) (c0 : string) (candidates : list string) : string * Rng :=
  let '(i, rng') := uniform rng (length candidates) in
  (nth i candidates c0, rng').
Global Arguments pickOne : simpl never.

(** The strict pass, from the chore [chores] starts with. *)
Fixpoint phase1 (data : Data) (dates : list string) (enforceSingleChore : bool)
    (available : list string) (chores : list Chore)
    (newA : gmap string string) (assigned : gset string) (rng : Rng) : Pass :=
  match chores with
  | [] => mkPass true newA assigned rng
  | chore :: rest =>
      match phase1Candidates data dates enforceSingleChore available assigned chore with
      | [] => mkPass false newA assigned rng
      | (c0 :: _) as candidates =>
          let '(pick, rng') := pickOne rng c0 candidates in
          phase1 data dates enforceSingleChore available rest
            (<[chore_id chore := pick]> newA) ({[pick]} ∪ assigned) rng'
      end
  end.

(** The relaxed pass, from the chore [chores] starts with. *)
Fixpoint phase2 (enforceSingleChore : bool) (available : list string)
    (chores : list Chore)
    (newA : gmap string string) (assigned : gset string) (rng : Rng) : Pass :=
  match chores with
  | [] => mkPass true newA assigned rng
  | chore :: rest =>
      match phase2Candidates enforceSingleChore available assigned with
      | [] => mkPass false newA assigned rng
      | (c0 :: _) as candidates =>
          let '(pick, rng') := pickOne rng c0 candidates in
          phase2 enforceSingleChore available rest
            (<[chore_id chore := pick]> newA) ({[pick]} ∪ assigned) rng'
      end
  end.

(** What a call of a handler leaves behind: the stored document, the
    random source, and the user interface effects in order. *)
Record Outcome := mkOutcome {
  stored : Data;
  rngAfter : Rng;
  ui : list UiEvent
}.

(** [day.assignments = newAssignments; saveData(data)] for the record
    stored under [today]. *)
Definition commit (data : Data) (today : string) (m : gmap string string) : Data :=
  withDays data (alter (λ day, withAssignments day m) today (assignmentsByDate data)).

(** The body of [generateAssignments] from the hard blocks on, shared
    verbatim by both versions.  [data] is the normalised document, [day]
    the record of [today] in it, [shown] the effects so far. *)
Definition allocate (data : Data) (today : string) (day : DayRecord)
    (rng : Rng) (shown : list UiEvent) : Outcome :=
  let available := availablePersonIds day in
  let chores := chores data in
  if decide (length available = 0) then
    mkOutcome data rng (shown ++ [WarningText msgNoPeople])
  else if decide (length available < length chores) then
    mkOutcome data rng (shown ++ [WarningText msgNotEnough])
  else
    let dates := priorDates data today in
    let enforceSingleChore := bool_decide (length chores ≤ length available)%nat in
    let p1 := phase1 data dates enforceSingleChore available chores ∅ ∅ rng in
    if completed p1 then
      mkOutcome (commit data today (newAssignments p1)) (random p1) shown
    else
      let p2 := phase2 enforceSingleChore available chores ∅ ∅ (random p1) in
      if completed p2 then
        mkOutcome (commit data today (newAssignments p2)) (random p2)
                  (shown ++ [WarningText msgRelaxed])
      else
        mkOutcome data (random p2) (shown ++ [WarningText msgImpossible]).

(** ** Retention *)

Definition HISTORY_RETENTION_DAYS : Z := 30.
Definition msPerDay : Z := 86400000.

(** Time values are what [Date.prototype.getTime] returns: milliseconds
    since the epoch, an integer. *)

Definition isLeapYear (y : Z) : bool :=
  ((y mod 4 =? 0) && negb (y mod 100 =? 0) || (y mod 400 =? 0))%Z.

Definition daysInMonth (y m : Z) : Z :=
  if (m =? 2)%Z then (if isLeapYear y then 29 else 28)%Z
  else if ((m =? 4) || (m =? 6) || (m =? 9) || (m =? 11))%Z then 30%Z
  else 31%Z.

(** Day number of the civil date [y]-[m]-[d], counted from 1970-01-01. *)
Definition daysFromCivil (y m d : Z) : Z :=
  let y' := (if (m <=? 2)%Z then y - 1 else y)%Z in
  let era := (y' / 400)%Z in
  let yoe := (y' - era * 400)%Z in
  let mp := (if (m <=? 2)%Z then m + 9 else m - 3)%Z in
  let doy := ((153 * mp + 2) / 5 + d - 1)%Z in
  let doe := (yoe * 365 + yoe / 4 - yoe / 100 + doy)%Z in
  (era * 146097 + doe - 719468)%Z.

Definition digit (c : ascii) : option Z := Z.of_nat <$> Ascii.is_nat c.

Definition number (cs : list ascii) : option Z :=
  foldl (λ acc c, n ← acc; k ← digit c; Some (10 * n + k)%Z) (Some 0%Z) cs.

(** What the built-in [Date] of the engine the page runs on gives at a
    call.  [getTime] is the time value of [new Date()], in milliseconds
    since the epoch.  [offsetAt t] is how far local time is ahead of UTC at
    the instant [t], and [offsetOfLocal t] the offset the engine uses to
    read the local time value [t] back as an instant (the LocalTZA of the
    standard, for a UTC and for a local argument): they differ from day to
    day where clocks change.  [parseOther s] is the time value of
    [new Date(s)] for a string [s] that is not a calendar date
    [YYYY-MM-DD]: the reading of such strings is left to the engine
    ([None] is the NaN time value of an invalid date). *)
Record Clock := mkClock {
  getTime : Z;
  offsetAt : Z → Z;
  offsetOfLocal : Z → Z;
  parseOther : string → option Z
}.

(** The time value of a calendar date [YYYY-MM-DD]: midnight UTC of that
    day; [None] when the string is not one. *)
Definition calendarDate (date : string) : option Z :=
  match String.list_ascii_of_string date with
  | [y1; y2; y3; y4; dash1; m1; m2; dash2; d1; d2] =>
      if decide (dash1 = "-"%char ∧ dash2 = "-"%char) then
        y ← number [y1; y2; y3; y4];
        m ← number [m1; m2];
        d ← number [d1; d2];
        if ((1 <=? m) && (m <=? 12) && (1 <=? d) && (d <=? daysInMonth y m))%Z
        then Some (daysFromCivil y m d * msPerDay)%Z
        else None
      else None
  | _ => None
  end.

(** [new Date(date).getTime()] for a key of [assignmentsByDate]: a
    calendar date reads as midnight UTC of that day, any other string as
    the engine reads it. *)
Definition dateTime (parse : string → option Z) (date : string) : option Z :=
  match calendarDate date with
  | Some t => Some t
  | None => parse date
  end.

(** The local time value at the call: what the wall clock shows, as
    milliseconds. *)
Definition localTime (now : Clock) : Z := (getTime now + offsetAt now (getTime now))%Z.

(** [cutoff = new Date(); cutoff.setDate(cutoff.getDate() - 30)]: the day
    of the month is set in local time, so the cutoff is the instant at
    which the wall clock shows the same time of day thirty calendar days
    earlier, read back with the offset in force then. *)
Definition cutoffTime (now : Clock) : Z :=
  let shifted := (localTime now - HISTORY_RETENTION_DAYS * msPerDay)%Z in
  (shifted - offsetOfLocal now shifted)%Z.

(** [new Date(date) < cutoff]; a comparison with NaN is false. *)
Definition olderThan (parse : string → option Z) (cutoff : Z) (date : string) : bool :=
  match dateTime parse date with
  | Some t => (t <? cutoff)%Z
  | None => false
  end.

(** [Object.keys(data.assignmentsByDate).forEach(date => { if (new Date(date)
    < cutoff) { delete data.assignmentsByDate[date]; deletedCount++; } })]. *)
Definition sweep (parse : string → option Z) (cutoff : Z)
    (days : gmap string DayRecord) : gmap string DayRecord * nat :=
  foldl (λ acc date,
           if olderThan parse cutoff date then (delete date acc.1, S acc.2) else acc)
        (days, 0) (objectKeys days).

(** *** src/script.js *)
Module Script.

(** [generateAssignments()].  [day] is read before the normalisation: it
    is the record object stored under [today] or [undefined]; the
    normalisation updates that very object in place, so when it exists
    the later reads of [day] see the normalised record. *)
Definition generateAssignments (data : Data) (today : string) (rng : Rng) : Outcome :=
  let day := assignmentsByDate data !! today in
  let data := normalizeAvailability data today in
  match day with
  | None => mkOutcome data rng []
  | Some _ =>
      match assignmentsByDate data !! today with
      | None => mkOutcome data rng []
      | Some day =>
          if confirmed day then mkOutcome data rng [Alert msgConfirmed]
          else allocate data today day rng [WarningText ""]
      end
  end.

(** [cleanupOldData()] when the clock reads [now]. *)
Definition cleanupOldData (data : Data) (now : Clock) : Data :=
  withDays data (sweep (parseOther now) (cutoffTime now) (assignmentsByDate data)).1.

End Script.

(** *** src/unnamed/part_001, the refactored version *)
Module Refactored.

(** [generateAssignments()]: here [normalizeAvailability] returns the
    record, so [day] is always the normalised record of [today] (the
    normalised document always has one). *)
Definition generateAssignments (data : Data) (today : string) (rng : Rng) : Outcome :=
  let data := normalizeAvailability data today in
  match assignmentsByDate data !! today with
  | None => mkOutcome data rng []
  | Some day =>
      if confirmed day then mkOutcome data rng [WarningText msgConfirmed]
      else allocate data today day rng [WarningText ""]
  end.

(** [cleanupOldData()] when the clock reads [now], with the
    [deletedCount] it reports. *)
Definition cleanupOldData (data : Data) (now : Clock) : Data * nat :=
  let r := sweep (parseOther now) (cutoffTime now) (assignmentsByDate data) in
  (withDays data r.1, r.2).

End Refactored.

(** ** Vocabulary of the statements *)

(** [d] is a recorded date. *)
Definition recorded (data : Data) (d : string) : Prop :=
  is_Some (assignmentsByDate data !! d).

(** [d] is the most recent recorded date strictly before [date]. *)
Definition mostRecentBefore (data : Data) (date d : string) : Prop :=
  recorded data d ∧ dateBefore d date ∧
  ∀ d', recorded data d' → dateBefore d' date → String.le d' d.

(** The availability array stored for [d] (empty when there is no record). *)
Definition availableOn (data : Data) (d : string) : list string :=
  match assignmentsByDate data !! d with
  | Some day => availablePersonIds day
  | None => []
  end.

(** [pid] was assigned some chore on day [d]. *)
Definition assignedOn (data : Data) (d pid : string) : Prop :=
  ∃ day c, assignmentsByDate data !! d = Some day ∧ assignments day !! c = Some pid.

(** Every available-person id of every record names a current person. *)
Definition availabilityRefersToPeople (data : Data) : Prop :=
  map_Forall (λ _ day, Forall (isPerson data) (availablePersonIds day))
             (assignmentsByDate data).

(** The map [m] gives every chore of the list a person. *)
Definition assignsEvery (chores : list Chore) (m : gmap string string) : Prop :=
  ∀ c, c ∈ chores → is_Some (m !! chore_id c).

(** No person holds two chores in [m]. *)
Definition onePerPerson (m : gmap string string) : Prop :=
  ∀ c1 c2 p, m !! c1 = Some p → m !! c2 = Some p → c1 = c2.

(** Day number of the local calendar date at instant [t], for a zone whose
    wall clock is [tz] milliseconds ahead of UTC. *)
Definition localDay (tz t : Z) : Z := ((t + tz) / msPerDay)%Z.

(** The loop both passes are instances of: [cands assigned chore] is the
    candidate list of [chore] when [assigned] holds the people picked so far. *)
Fixpoint passWith (cands : gset string → Chore → list string) (chores : list Chore)
    (newA : gmap string string) (assigned : gset string) (rng : Rng) : Pass :=
  match chores with
  | [] => mkPass true newA assigned rng
  | chore :: rest =>
      match cands assigned chore with
      | [] => mkPass false newA assigned rng
      | (c0 :: _) as candidates =>
          let '(pick, rng') := pickOne rng c0 candidates in
          passWith cands rest (<[chore_id chore := pick]> newA) ({[pick]} ∪ assigned) rng'
      end
  end.

(** The strict pass as [generateAssignments] starts it on the normalised
    document [data], and the relaxed pass that follows it. *)
Definition enforcesSingleChore (data : Data) (today : string) : bool :=
  bool_decide (length (chores data) ≤ length (availableOn data today))%nat.

Definition strictPass (data : Data) (today : string) (rng : Rng) : Pass :=
  phase1 data (priorDates data today) (enforcesSingleChore data today)
    (availableOn data today) (chores data) ∅ ∅ rng.

Definition relaxedPass (data : Data) (today : string) (rng : Rng) : Pass :=
  phase2 (enforcesSingleChore data today) (availableOn data today) (chores data)
    ∅ ∅ (random (strictPass data today rng)).

(** ** Fixtures *)

(** The end-to-end scenario: two chores, three people, all available
    today, today unconfirmed, nothing recorded before today. *)
Definition endToEnd (today : string) : Data :=
  mkData [mkChore "c1" "Dishes"; mkChore "c2" "Trash"]
         [mkPerson "A" "Ann"; mkPerson "B" "Bob"; mkPerson "C" "Cy"]
         {[ today := mkDay ["A"; "B"; "C"] ∅ false ]}.

(** Today's availability is empty, yesterday's is not; two chores. *)
Definition reseedsBeforeBlock : Data :=
  mkData [mkChore "c1" "Dishes"; mkChore "c2" "Trash"]
         [mkPerson "A" "Ann"]
         {[ "2024-03-09" := mkDay ["A"] ∅ false;
            "2024-03-10" := mkDay [] ∅ false ]}.

(** The same person id twice in today's availability array. *)
Definition repeatedId : Data :=
  mkData [mkChore "c1" "Dishes"; mkChore "c2" "Trash"]
         [mkPerson "A" "Ann"]
         {[ "2024-03-10" := mkDay ["A"; "A"] ∅ false ]}.

(** An empty day between today and the last day with availability. *)
Definition emptyDayBetween : Data :=
  mkData [] [mkPerson "A" "Ann"]
         {[ "2024-03-08" := mkDay ["A"] ∅ false;
            "2024-03-09" := mkDay [] ∅ false;
            "2024-03-10" := mkDay [] ∅ false ]}.

(** Today lists only a deleted person, yesterday a current one. *)
Definition danglingToday : Data :=
  mkData [] [mkPerson "A" "Ann"]
         {[ "2024-03-09" := mkDay ["A"] ∅ false;
            "2024-03-10" := mkDay ["X"] ∅ false ]}.



(** A record dated thirty days before 2024-01-31, and the clock at noon
    UTC of 2024-01-31. *)
Definition monthOld : Data :=
  mkData [] []
         {[ "2023-12-31" := mkDay [] ∅ true;
            "2024-01-01" := mkDay [] ∅ true;
            "2024-01-02" := mkDay [] ∅ true ]}.
Definition noonJan31 : Z := 1706702400000.

(** A clock in UTC, on an engine that reads nothing but calendar dates. *)
Definition utcClock (time : Z) : Clock := mkClock time (λ _, 0%Z) (λ _, 0%Z) (λ _, None).

(** London in 2024: an hour ahead of UTC from 2024-03-31 01:00 UTC to
    2024-10-27 01:00 UTC. *)
Definition londonOffset (t : Z) : Z :=
  if ((1711846800000 <=? t) && (t <? 1729990800000))%Z then 3600000%Z else 0%Z.

(** The clock in London on 2024-04-15 at 00:30, summer time (2024-04-14
    23:30 UTC), and four records around the day thirty days earlier. *)
Definition londonApr15 : Clock :=
  mkClock 1713137400000 londonOffset (λ t, londonOffset (t - 3600000)) (λ _, None).

Definition midMarch : Data :=
  mkData [] []
         {[ "2024-03-15" := mkDay [] ∅ true;
            "2024-03-16" := mkDay [] ∅ true;
            "2024-03-17" := mkDay [] ∅ true;
            "2024-03-18" := mkDay [] ∅ true ]}.

(** What the end-to-end scenario actually yields: both chores go to two
    different people among A, B and C, and the relaxation warning is shown. *)
Definition relaxedEndToEnd (today : string) (o : Outcome) : Prop :=
  shownWarnings (ui o) = [msgRelaxed] ∧
  ∃ p1 p2, assignmentsOn (stored o) today = {[ "c1" := p1; "c2" := p2 ]} ∧
           p1 ≠ p2 ∧ p1 ∈ ["A"; "B"; "C"] ∧ p2 ∈ ["A"; "B"; "C"].

(** ** Today's key *)

(** The decimal digits of a natural number, most significant first;
    [fuel] bounds their number. *)
Fixpoint decimalDigits (fuel : nat) (n : Z) (acc : list ascii) : list ascii :=
  match fuel with
  | O => acc
  | S fuel =>
      let acc := ascii_of_nat (48 + Z.to_nat (n mod 10)) :: acc in
      if (n <? 10)%Z then acc else decimalDigits fuel (n / 10) acc
  end.

(** [String(n)] for an integer [n]; a number has no more decimal than
    binary digits. *)
Definition decimal (n : Z) : list ascii :=
  if (n <? 0)%Z then
    "-"%char :: decimalDigits (S (Z.to_nat (Z.log2 (- n)))) (- n) []
  else decimalDigits (S (Z.to_nat (Z.log2 n))) n [].

(** [s.padStart(2, "0")]. *)
Definition padStart2 (s : list ascii) : list ascii :=
  match s with
  | [] => ["0"; "0"]%char
  | [c] => ["0"%char; c]
  | _ => s
  end.

(** [getLocalDateString()], from the local date fields of [new Date()]:
    [year] is [getFullYear()], [month] is [getMonth()] (counted from 0) and
    [date] is [getDate()]. *)
Definition getLocalDateString (year month date : Z) : string :=
  string_of_list_ascii
    (decimal year ++ "-"%char :: padStart2 (decimal (month + 1))
                  ++ "-"%char :: padStart2 (decimal date))%list.

(** ** The other handlers *)

(** [deleteChore(id)] up to its [saveData]: the chore leaves the list and
    its key leaves the assignment map of every day. *)
Definition deleteChoreCascade (data : Data) (id : string) : Data :=
  {| chores := filter (λ c, chore_id c ≠ id) (chores data);
     people := people data;
     assignmentsByDate :=
       (λ day, withAssignments day (delete id (assignments day)))
         <$> assignmentsByDate data |}.

(** [deletePerson(id)] up to its [saveData]: the person leaves the list,
    the availability array of every day, and every assignment that names
    them. *)
Definition deletePersonCascade (data : Data) (id : string) : Data :=
  {| chores := chores data;
     people := filter (λ p, person_id p ≠ id) (people data);
     assignmentsByDate :=
       (λ day, {| availablePersonIds := filter (λ pid, pid ≠ id) (availablePersonIds day);
                  assignments := filter (λ cp, cp.2 ≠ id) (assignments day);
                  confirmed := confirmed day |})
         <$> assignmentsByDate data |}.

Definition withChores (data : Data) (cs : list Chore) : Data :=
  {| chores := cs; people := people data; assignmentsByDate := assignmentsByDate data |}.

Definition withPeople (data : Data) (ps : list Person) : Data :=
  {| chores := chores data; people := ps; assignmentsByDate := assignmentsByDate data |}.

(** [items.find(x => x.id === id).name = name]: the first item with that
    id gets the name; [None] when [find] returns [undefined]. *)
Fixpoint renamedFirst {A} (id_of : A → string) (rename : A → string → A)
    (items : list A) (id name : string) : option (list A) :=
  match items with
  | [] => None
  | x :: rest =>
      if decide (id_of x = id) then Some (rename x name :: rest)
      else (x ::.) <$> renamedFirst id_of rename rest id name
  end.

(** [data.chores.find(c => c.id === id).name = name]. *)
Definition renamedChore (cs : list Chore) (id name : string) : option (list Chore) :=
  renamedFirst chore_id (λ c name, mkChore (chore_id c) name) cs id name.

(** [data.people.find(p => p.id === id).name = name]. *)
Definition renamedPerson (ps : list Person) (id name : string) : option (list Person) :=
  renamedFirst person_id (λ p name, mkPerson (person_id p) name) ps id name.

Definition withConfirmed (day : DayRecord) : DayRecord :=
  {| availablePersonIds := availablePersonIds day;
     assignments := assignments day;
     confirmed := true |}.

Definition msgUnavailable : string := "This person is marked unavailable.".
Definition msgHasChore : string := "This person already has a chore today.".
Definition msgNoAssignments : string := "No assignments for today.".
Definition msgConfirmedNow : string := "Assignments confirmed for today.".
Definition msgChoreNameEmpty : string := "Chore name cannot be empty.".
Definition msgChoreExists : string := "A chore with this name already exists.".
Definition msgPersonNameEmpty : string := "Person name cannot be empty.".
Definition msgPersonExists : string := "A person with this name already exists.".

(** [new Date(date) >= cutoff]; a comparison with NaN is false. *)
Definition notOlderThan (parse : string → option Z) (cutoff : Z) (date : string) : bool :=
  match dateTime parse date with
  | Some t => (cutoff <=? t)%Z
  | None => false
  end.

(** The dates [renderHistory] lists when the clock reads [now]:
    [Object.keys(data.assignmentsByDate).filter(date => new Date(date) >= cutoff)
       .sort().reverse()]. *)
Definition historyDates (data : Data) (now : Clock) : list string :=
  reverse (merge_sort String.le
     (filter (λ d, notOlderThan (parseOther now) (cutoffTime now) d = true)
             (objectKeys (assignmentsByDate data)))).

(** *** src/script.js, continued *)
Module ScriptOps.

(** The effect of [renderAvailability()] on the stored document: today's
    record is created empty when missing, then normalised and saved.
    [renderAll()] has no other effect on the document. *)
Definition renderAvailability (data : Data) (today : string) : Data :=
  let data :=
    match assignmentsByDate data !! today with
    | Some _ => data
    | None => withDays data (<[today := mkDay [] ∅ false]> (assignmentsByDate data))
    end in
  normalizeAvailability data today.

Definition renderAll (data : Data) (today : string) : Data :=
  renderAvailability data today.

(** [addChore()]: [trimmed] is [input.value.trim()] and [id] the value
    [uuid()] returns.  An empty name returns at once. *)
Definition addChore (data : Data) (today id trimmed : string) : Data :=
  if decide (trimmed = "") then data
  else renderAll (withChores data (chores data ++ [mkChore id trimmed])) today.

(** [addPerson()]. *)
Definition addPerson (data : Data) (today id trimmed : string) : Data :=
  if decide (trimmed = "") then data
  else renderAll (withPeople data (people data ++ [mkPerson id trimmed])) today.

(** [renameChore(id, name)]: with no chore of that id the assignment to
    [.name] of [undefined] throws, and nothing is saved ([None]). *)
Definition renameChore (data : Data) (id name : string) : option Data :=
  withChores data <$> renamedChore (chores data) id name.

(** [renamePerson(id, name)]. *)
Definition renamePerson (data : Data) (id name : string) : option Data :=
  withPeople data <$> renamedPerson (people data) id name.

(** [deleteChore(id)]: the cascade is saved, then everything is rendered. *)
Definition deleteChore (data : Data) (today id : string) : Data :=
  renderAll (deleteChoreCascade data id) today.

(** [deletePerson(id)]. *)
Definition deletePerson (data : Data) (today id : string) : Data :=
  renderAll (deletePersonCascade data id) today.

(** [toggleAvailability(personId, available)].  Without a record for today
    both branches read a property of [undefined]: the handler throws, and
    nothing is saved ([None]). *)
Definition toggleAvailability (data : Data) (today personId : string)
    (available : bool) : option Data :=
  day ← assignmentsByDate data !! today;
  let ids := availablePersonIds day in
  let ids :=
    if available && negb (bool_decide (personId ∈ ids)) then (ids ++ [personId])%list
    else ids in
  let ids := if negb available then filter (λ id, id ≠ personId) ids else ids in
  Some (withDays data (<[today := withAvailable day ids]> (assignmentsByDate data))).

(** [confirmAssignments()]. *)
Definition confirmAssignments (data : Data) (today : string) : Data * list UiEvent :=
  match assignmentsByDate data !! today with
  | Some day =>
      (withDays data (<[today := withConfirmed day]> (assignmentsByDate data)),
       [Alert msgConfirmedNow])
  | None => (data, [])
  end.

(** The [onchange] handler of the selector that [renderAssignments()]
    builds for [chore], fired with [select.value = personId].  [data] is
    the document the rows were rendered from (the handler closes over it);
    the first component is what the handler saves, [None] when it saves
    nothing.  Without a record for today no row is rendered. *)
Definition assignManually (data : Data) (today : string) (chore : Chore)
    (personId : string) : option Data * list UiEvent :=
  match assignmentsByDate data !! today with
  | None => (None, [])
  | Some day =>
      if decide (personId ∉ availablePersonIds day) then
        (None, [Alert msgUnavailable])
      else if decide (1 ≤ length (filter (λ id, id = personId)
                                         (objectValues (assignments day)))) then
        (None, [Alert msgHasChore])
      else
        (Some (withDays data
                 (<[today := withAssignments day
                               (<[chore_id chore := personId]> (assignments day))]>
                    (assignmentsByDate data))),
         [])
  end.

End ScriptOps.

(** *** src/unnamed/part_001, continued *)
Module RefactoredOps.

(** The effect of [renderAvailability()] on the stored document. *)
Definition renderAvailability (data : Data) (today : string) : Data :=
  normalizeAvailability data today.

Definition renderAll (data : Data) (today : string) : Data :=
  renderAvailability data today.

Section names.
(** [String.prototype.toLowerCase]. *)
Variable toLowerCase : string → string.

(** [addChore(choreName)]: [trimmed] is the trimmed name ([undefined]
    counts as empty) and [id] the value [uuid()] returns.  The list and the
    selectors are rendered again; nothing else is saved. *)
Definition addChore (data : Data) (id trimmed : string) : Data * list UiEvent :=
  if decide (trimmed = "") then (data, [WarningText msgChoreNameEmpty])
  else if decide (toLowerCase trimmed
                  ∈ (λ c, toLowerCase (chore_name c)) <$> chores data) then
    (data, [WarningText msgChoreExists])
  else (withChores data (chores data ++ [mkChore id trimmed]), [WarningText ""]).

(** [addPerson(personName)]; it ends with [renderAvailability()]. *)
Definition addPerson (data : Data) (today id trimmed : string) : Data * list UiEvent :=
  if decide (trimmed = "") then (data, [WarningText msgPersonNameEmpty])
  else if decide (toLowerCase trimmed
                  ∈ (λ p, toLowerCase (person_name p)) <$> people data) then
    (data, [WarningText msgPersonExists])
  else (renderAvailability (withPeople data (people data ++ [mkPerson id trimmed])) today,
        [WarningText ""]).

(** [renameChore(id, name)], [trimmed] being [name.trim()]: nothing
    happens when no chore has the id; a refused name shows its message and
    renders everything. *)
Definition renameChore (data : Data) (today id trimmed : string) : Data * list UiEvent :=
  match renamedChore (chores data) id trimmed with
  | None => (data, [])
  | Some cs =>
      if decide (trimmed = "") then (renderAll data today, [WarningText msgChoreNameEmpty])
      else if decide (toLowerCase trimmed
                      ∈ (λ c, toLowerCase (chore_name c))
                          <$> filter (λ c, chore_id c ≠ id) (chores data)) then
        (renderAll data today, [WarningText msgChoreExists])
      else (withChores data cs, [WarningText ""])
  end.

(** [renamePerson(id, name)]; a successful renaming ends with
    [renderAvailability()]. *)
Definition renamePerson (data : Data) (today id trimmed : string) : Data * list UiEvent :=
  match renamedPerson (people data) id trimmed with
  | None => (data, [])
  | Some ps =>
      if decide (trimmed = "") then (renderAll data today, [WarningText msgPersonNameEmpty])
      else if decide (toLowerCase trimmed
                      ∈ (λ p, toLowerCase (person_name p))
                          <$> filter (λ p, person_id p ≠ id) (people data)) then
        (renderAll data today, [WarningText msgPersonExists])
      else (renderAvailability (withPeople data ps) today, [WarningText ""])
  end.

End names.

Definition deleteChore (data : Data) (today id : string) : Data :=
  renderAll (deleteChoreCascade data id) today.

Definition deletePerson (data : Data) (today id : string) : Data :=
  renderAll (deletePersonCascade data id) today.

(** [toggleAvailability(personId, available)]: returns at once without a
    record for today; switching a person off also drops today's
    assignments that name them. *)
Definition toggleAvailability (data : Data) (today personId : string)
    (available : bool) : Data :=
  match assignmentsByDate data !! today with
  | None => data
  | Some day =>
      let ids := availablePersonIds day in
      let ids :=
        if available && negb (bool_decide (personId ∈ ids)) then (ids ++ [personId])%list
        else ids in
      let day :=
        if negb available then
          {| availablePersonIds := filter (λ id, id ≠ personId) ids;
             assignments := filter (λ cp, cp.2 ≠ personId) (assignments day);
             confirmed := confirmed day |}
        else withAvailable day ids in
      withDays data (<[today := day]> (assignmentsByDate data))
  end.

(** [confirmAssignments()], with what it writes to the [#warning] element
    before its timer fires. *)
Definition confirmAssignments (data : Data) (today : string) : Data * list UiEvent :=
  match assignmentsByDate data !! today with
  | None => (data, [WarningText msgNoAssignments])
  | Some day =>
      if confirmed day then (data, [WarningText msgConfirmed])
      else
        (withDays data (<[today := withConfirmed day]> (assignmentsByDate data)),
         [WarningText ""; WarningText ("✓ " +:+ msgConfirmedNow)])
  end.

(** The [onchange] handler of the selector of [chore]; the empty value is
    the "-- Select --" option and unassigns the chore. *)
Definition assignManually (data : Data) (today : string) (chore : Chore)
    (personId : string) : option Data * list UiEvent :=
  match assignmentsByDate data !! today with
  | None => (None, [])
  | Some day =>
      if decide (personId = "") then
        (Some (withDays data
                 (<[today := withAssignments day (delete (chore_id chore) (assignments day))]>
                    (assignmentsByDate data))),
         [])
      else if decide (personId ∉ availablePersonIds day) then
        (None, [WarningText msgUnavailable])
      else if decide (1 ≤ length (filter (λ cp, cp.2 = personId ∧ cp.1 ≠ chore_id chore)
                                         (map_to_list (assignments day)))) then
        (None, [WarningText msgHasChore])
      else
        (Some (withDays data
                 (<[today := withAssignments day
                               (<[chore_id chore := personId]> (assignments day))]>
                    (assignmentsByDate data))),
         [WarningText ""])
  end.

End RefactoredOps.

(** ** The page *)

(** The stored document together with the document the selectors on the
    page hold: [renderAssignments()] builds the selectors from the document
    it loads, and their [onchange] handlers keep that very object, change
    it in place and save it.  [None]: there are no selectors (nothing is
    rendered yet, or there was no record for today when they were
    built). *)
Record Page := mkPage { saved : Data; selectors : option Data }.

(** [renderAssignments()]. *)
Definition renderAssignments (today : string) (page : Page) : Page :=
  mkPage (saved page)
         (match assignmentsByDate (saved page) !! today with
          | Some _ => Some (saved page)
          | None => None
          end).

(** A handler that loads the stored document and saves a new one without
    building the selectors again: [confirmAssignments] and [cleanupOldData]
    of either version, the toggle of script.js. *)
Definition withoutRendering (handler : Data → Data) (page : Page) : Page :=
  mkPage (handler (saved page)) (selectors page).

(** The [onchange] handler of a selector fires; [assign] is
    [assignManually] of either version for the chore of the selector and
    the value selected.  It works on the document the selectors hold; when
    it refuses, it builds the selectors again from the stored document. *)
Definition select (assign : Data → option Data * list UiEvent) (today : string)
    (page : Page) : Page * list UiEvent :=
  match selectors page with
  | None => (page, [])
  | Some held =>
      match assign held with
      | (Some after, shown) => (mkPage after (Some after), shown)
      | (None, shown) => (renderAssignments today page, shown)
      end
  end.

(** ** Vocabulary of the further statements *)

(** No availability array holds an id twice. *)
Definition availabilityDuplicateFree (data : Data) : Prop :=
  map_Forall (λ _ day, NoDup (availablePersonIds day)) (assignmentsByDate data).

(** Nothing in the document refers to the person [id] any more. *)
Definition personGone (data : Data) (id : string) : Prop :=
  ¬ isPerson data id ∧
  ∀ d day, assignmentsByDate data !! d = Some day →
    (id ∉ availablePersonIds day) ∧ ∀ c, assignments day !! c ≠ Some id.

(** Nothing in the document refers to the chore [id] any more. *)
Definition choreGone (data : Data) (id : string) : Prop :=
  (id ∉ chore_id <$> chores data) ∧
  ∀ d day, assignmentsByDate data !! d = Some day → assignments day !! id = None.

(** Every record of [before] is still there in [after], and confirmed if
    it was. *)
Definition keepsConfirmed (before after : Data) : Prop :=
  ∀ d day, assignmentsByDate before !! d = Some day →
    ∃ day', assignmentsByDate after !! d = Some day' ∧
            (confirmed day = true → confirmed day' = true).

(** [after] differs from [before] in the record of [today] at most. *)
Definition onlyTouches (today : string) (before after : Data) : Prop :=
  chores after = chores before ∧ people after = people before ∧
  ∀ d, d ≠ today → assignmentsByDate after !! d = assignmentsByDate before !! d.

(** A property of every record of the document. *)
Definition everyDay (P : DayRecord → Prop) (data : Data) : Prop :=
  map_Forall (λ _ day, P day) (assignmentsByDate data).

(** A property [I people chores day] of day records, required of every
    record of the document with respect to its own people and chores. *)
Definition holdsEveryDay (I : list Person → list Chore → DayRecord → Prop)
    (data : Data) : Prop :=
  everyDay (I (people data) (chores data)) data.

(** What such a property has to survive, one record operation of the
    handlers at a time: more people or chores, a new record, the
    normalisation of an existing one (its own array filtered, or, when that
    is empty, the array of the most recent earlier record), a committed
    map, a confirmation, a person switched on, a person switched off
    together with their assignments, a manual selection, the cascades. *)
Class KeptByRecordOps (I : list Person → list Chore → DayRecord → Prop) : Prop := {
  kept_ids ps ps' cs cs' day :
    (∀ p, p ∈ person_id <$> ps → p ∈ person_id <$> ps') →
    (∀ c, c ∈ chore_id <$> cs → c ∈ chore_id <$> cs') →
    I ps cs day → I ps' cs' day;
  kept_new ps cs : I ps cs (mkDay [] ∅ false);
  kept_inherit ps cs last :
    I ps cs last → I ps cs (mkDay (availablePersonIds last) ∅ false);
  kept_refilter ps cs day (Q : string → Prop) `{∀ x, Decision (Q x)} :
    (∀ p, Q p ↔ p ∈ person_id <$> ps) →
    I ps cs day →
    I ps cs (withAvailable day (filter Q (availablePersonIds day)));
  kept_reseed ps cs day last (Q : string → Prop) `{∀ x, Decision (Q x)} :
    (∀ p, Q p ↔ p ∈ person_id <$> ps) →
    I ps cs day → I ps cs last → availablePersonIds day = [] →
    I ps cs (withAvailable day (filter Q (availablePersonIds last)));
  kept_commit ps cs day m :
    I ps cs day → onePerPerson m →
    (∀ c p, m !! c = Some p → p ∈ availablePersonIds day ∧ c ∈ chore_id <$> cs) →
    I ps cs (withAssignments day m);
  kept_confirm ps cs day : I ps cs day → I ps cs (withConfirmed day);
  kept_switch_on ps cs day pid :
    I ps cs day → pid ∈ person_id <$> ps → pid ∉ availablePersonIds day →
    I ps cs (withAvailable day (availablePersonIds day ++ [pid])%list);
  kept_switch_off_drop ps cs day pid :
    I ps cs day →
    I ps cs {| availablePersonIds := filter (λ id, id ≠ pid) (availablePersonIds day);
               assignments := filter (λ cp, cp.2 ≠ pid) (assignments day);
               confirmed := confirmed day |};
  kept_assign ps cs day c pid :
    I ps cs day → c ∈ chore_id <$> cs → pid ∈ availablePersonIds day →
    (∀ c', assignments day !! c' = Some pid → c' = c) →
    I ps cs (withAssignments day (<[c := pid]> (assignments day)));
  kept_unassign ps cs day c :
    I ps cs day → I ps cs (withAssignments day (delete c (assignments day)));
  kept_delete_chore ps cs day id :
    I ps cs day →
    I ps (filter (λ ch, chore_id ch ≠ id) cs)
      (withAssignments day (delete id (assignments day)));
  kept_delete_person ps cs day id :
    I ps cs day →
    I (filter (λ p, person_id p ≠ id) ps) cs
      {| availablePersonIds := filter (λ pid, pid ≠ id) (availablePersonIds day);
         assignments := filter (λ cp, cp.2 ≠ id) (assignments day);
         confirmed := confirmed day |}
}.

(** A property that moreover survives a person being switched off while
    their assignments stay, as the toggle of script.js does. *)
Class KeptBySwitchOff (I : list Person → list Chore → DayRecord → Prop) : Prop := {
  kept_switch_off ps cs day pid :
    I ps cs day →
    I ps cs (withAvailable day (filter (λ id, id ≠ pid) (availablePersonIds day)))
}.

(** A property that moreover survives any id being switched on, that of a
    current person or not. *)
Class KeptBySwitchOnAny (I : list Person → list Chore → DayRecord → Prop) : Prop := {
  kept_switch_on_any ps cs day pid :
    I ps cs day → pid ∉ availablePersonIds day →
    I ps cs (withAvailable day (availablePersonIds day ++ [pid])%list)
}.

(** A property every handler call keeps. *)
Class KeptByHandlers (I : list Person → list Chore → DayRecord → Prop) : Prop := {
  kept_ops :: KeptByRecordOps I;
  kept_off :: KeptBySwitchOff I;
  kept_on_any :: KeptBySwitchOnAny I
}.

(** The three properties the handlers keep. *)
Definition availabilityHasNoRepeats (_ : list Person) (_ : list Chore)
    (day : DayRecord) : Prop :=
  NoDup (availablePersonIds day).

Definition refersToCurrentIds (ps : list Person) (cs : list Chore)
    (day : DayRecord) : Prop :=
  (∀ p, p ∈ availablePersonIds day → p ∈ person_id <$> ps) ∧
  (∀ c p, assignments day !! c = Some p →
          c ∈ chore_id <$> cs ∧ p ∈ person_id <$> ps).

Definition nobodyHasTwoChores (_ : list Person) (_ : list Chore)
    (day : DayRecord) : Prop :=
  onePerPerson (assignments day).

(** Every id a record mentions is the id of a current person or chore. *)
Definition referentialIntegrity (data : Data) : Prop :=
  holdsEveryDay refersToCurrentIds data.

(** A fourth one, kept by the record operations but not by a bare
    switch-off: the ids are current and whoever holds a chore is in the
    availability array of the same record. *)
Definition assigneesAreAvailable (ps : list Person) (cs : list Chore)
    (day : DayRecord) : Prop :=
  refersToCurrentIds ps cs day ∧
  ∀ c p, assignments day !! c = Some p → p ∈ availablePersonIds day.

Definition assigneesAvailableEveryDay (data : Data) : Prop :=
  holdsEveryDay assigneesAreAvailable data.

(** No two chores, and no two people, have the same name up to case. *)
Definition namesDistinct (toLowerCase : string → string) (data : Data) : Prop :=
  NoDup ((λ c, toLowerCase (chore_name c)) <$> chores data) ∧
  NoDup ((λ p, toLowerCase (person_name p)) <$> people data).

(** No two chores, and no two people, have the same id. *)
Definition idsDistinct (data : Data) : Prop :=
  NoDup (chore_id <$> chores data) ∧ NoDup (person_id <$> people data).

(** On no day does a person hold two chores. *)
Definition onePerPersonEveryDay (data : Data) : Prop :=
  holdsEveryDay nobodyHasTwoChores data.

(** Yesterday confirmed with both chores assigned, today still open. *)
Definition tidyHistory : Data :=
  mkData [mkChore "c1" "Dishes"; mkChore "c2" "Trash"]
         [mkPerson "A" "Ann"; mkPerson "B" "Bob"; mkPerson "C" "Cy"]
         {[ "2024-03-09" := mkDay ["A"; "B"] {[ "c1" := "A"; "c2" := "B" ]} true;
            "2024-03-10" := mkDay ["A"; "B"; "C"] ∅ false ]}.

(** What a call of [generateAssignments] may leave stored: the normalised
    document, or the normalised document with today's map replaced by a map
    [m] that gives every chore, and nothing but the chores, a person
    available today, and nobody two chores. *)
Definition storesCompleteFairMap (data : Data) (today : string) (o : Outcome) : Prop :=
  stored o = normalizeAvailability data today ∨
  ∃ m, stored o = commit (normalizeAvailability data today) today m ∧
       assignmentsOn (stored o) today = m ∧
       assignsEvery (chores data) m ∧ onePerPerson m ∧
       ∀ c p, m !! c = Some p →
              c ∈ chore_id <$> chores data ∧
              p ∈ availableOn (normalizeAvailability data today) today.

(** The entry [c := p] breaks neither history rule of the strict pass on
    the document [data]: [p] did not have chore [c] on any of the five most
    recent recorded dates before today, and was free on one of the two most
    recent ones. *)
Definition respectsHistory (data : Data) (today c p : string) : Prop :=
  (∀ d, d ∈ take 5 (priorDates data today) → assignmentsOn data d !! c ≠ Some p) ∧
  (∃ d, d ∈ take 2 (priorDates data today) ∧ ¬ assignedOn data d p).

(** One call of a handler, in either version, from the document it works
    on to the document it saves.  [today] is the date the page was loaded
    on, [rng] the random source and [now] the clock at the call; [id] is
    what [uuid()] returns for an added item, [trimmed] the trimmed name
    that was typed.  Every handler works on the stored document, the
    manual selection apart: that one works on the document its selector
    was built from (see [select]), which is the stored document of an
    earlier moment with the selections made since; so whatever is stored
    at any time is reached by a sequence of steps.  A selector exists for
    the chores of the document it was built from.  A checkbox is that of a
    person of the document [renderAvailability] loaded, which the stored
    document need not have any more when it is ticked (part_001 keeps the
    selectors over [addPerson], and a selection then saves the document
    without the new person): a toggle is a step for any id. *)
Inductive handlerStep : Data → Data → Prop :=
  | step_script_renderAll data today :
      handlerStep data (ScriptOps.renderAll data today)
  | step_refactored_renderAll data today :
      handlerStep data (RefactoredOps.renderAll data today)
  | step_script_generate data today rng :
      handlerStep data (stored (Script.generateAssignments data today rng))
  | step_refactored_generate data today rng :
      handlerStep data (stored (Refactored.generateAssignments data today rng))
  | step_script_toggle data today personId available data' :
      ScriptOps.toggleAvailability data today personId available = Some data' →
      handlerStep data data'
  | step_refactored_toggle data today personId available :
      handlerStep data (RefactoredOps.toggleAvailability data today personId available)
  | step_script_assign data today chore personId data' shown :
      chore ∈ chores data →
      ScriptOps.assignManually data today chore personId = (Some data', shown) →
      handlerStep data data'
  | step_refactored_assign data today chore personId data' shown :
      chore ∈ chores data →
      RefactoredOps.assignManually data today chore personId = (Some data', shown) →
      handlerStep data data'
  | step_script_confirm data today :
      handlerStep data (ScriptOps.confirmAssignments data today).1
  | step_refactored_confirm data today :
      handlerStep data (RefactoredOps.confirmAssignments data today).1
  | step_script_deleteChore data today id :
      handlerStep data (ScriptOps.deleteChore data today id)
  | step_refactored_deleteChore data today id :
      handlerStep data (RefactoredOps.deleteChore data today id)
  | step_script_deletePerson data today id :
      handlerStep data (ScriptOps.deletePerson data today id)
  | step_refactored_deletePerson data today id :
      handlerStep data (RefactoredOps.deletePerson data today id)
  | step_script_cleanup data now :
      handlerStep data (Script.cleanupOldData data now)
  | step_refactored_cleanup data now :
      handlerStep data (Refactored.cleanupOldData data now).1
  | step_script_addChore data today id trimmed :
      handlerStep data (ScriptOps.addChore data today id trimmed)
  | step_refactored_addChore toLowerCase data id trimmed :
      handlerStep data (RefactoredOps.addChore toLowerCase data id trimmed).1
  | step_script_addPerson data today id trimmed :
      handlerStep data (ScriptOps.addPerson data today id trimmed)
  | step_refactored_addPerson toLowerCase data today id trimmed :
      handlerStep data (RefactoredOps.addPerson toLowerCase data today id trimmed).1
  | step_script_renameChore data id name data' :
      ScriptOps.renameChore data id name = Some data' →
      handlerStep data data'
  | step_refactored_renameChore toLowerCase data today id trimmed :
      handlerStep data (RefactoredOps.renameChore toLowerCase data today id trimmed).1
  | step_script_renamePerson data id name data' :
      ScriptOps.renamePerson data id name = Some data' →
      handlerStep data data'
  | step_refactored_renamePerson toLowerCase data today id trimmed :
      handlerStep data (RefactoredOps.renamePerson toLowerCase data today id trimmed).1.

(** The handler call that leaves a person with a chore they are not
    available for: the toggle of script.js switching off somebody who holds
    a chore today. *)
Definition switchesOffAnAssignee (data data' : Data) : Prop :=
  ∃ today pid day c,
    assignmentsByDate data !! today = Some day ∧
    assignments day !! c = Some pid ∧
    ScriptOps.toggleAvailability data today pid false = Some data'.

(** The handler call that puts an unknown id into an availability array:
    a toggle of either version switching on, on a day that has a record,
    an id that is not in the array and is not the id of a person of the
    document. *)
Definition switchesOnAStranger (data data' : Data) : Prop :=
  ∃ today pid day,
    assignmentsByDate data !! today = Some day ∧
    ¬ isPerson data pid ∧ (pid ∉ availablePersonIds day) ∧
    (ScriptOps.toggleAvailability data today pid true = Some data'
     ∨ RefactoredOps.toggleAvailability data today pid true = data').

(** A handler call that switches on no stranger. *)
Definition knownStep (data data' : Data) : Prop :=
  handlerStep data data' ∧ ¬ switchesOnAStranger data data'.

(** A handler call that is neither of the two. *)
Definition otherStep (data data' : Data) : Prop :=
  handlerStep data data' ∧
  ¬ switchesOffAnAssignee data data' ∧ ¬ switchesOnAStranger data data'.

(** ** The recorded dates before a day *)

Section history.
Implicit Types (data : Data) (d date : string).

Lemma dateBefore_irrefl d : ¬ dateBefore d d.
Proof.
  unfold dateBefore, String.ltb.
  pose proof (String.compare_antisym d d) as Hc.
  destruct (d ?= d)%string; simpl in *; [auto|discriminate..].
Qed.


Lemma le_ne_dateBefore (a b : string) : String.le a b → a ≠ b → dateBefore a b.
Proof.
  unfold String.le, dateBefore, String.leb, String.ltb. intros Hle Hne.
  destruct (a ?= b)%string eqn:Hc; [|done..].
  by apply String.compare_eq_iff in Hc.
Qed.


Lemma elem_of_objectKeys {V} (m : gmap string V) d :
  d ∈ objectKeys m ↔ is_Some (m !! d).
Proof.
  unfold objectKeys. rewrite list_elem_of_fmap. split.
  - intros [[k v] [-> Hin]]. apply elem_of_map_to_list in Hin. by exists v.
  - intros [v Hv]. exists (d, v). split; [done|]. by apply elem_of_map_to_list.
Qed.

Lemma NoDup_objectKeys {V} (m : gmap string V) : NoDup (objectKeys m).
Proof. apply NoDup_fst_map_to_list. Qed.

Lemma elem_of_objectValues {V} (m : gmap string V) v :
  v ∈ objectValues m ↔ ∃ k, m !! k = Some v.
Proof.
  unfold objectValues. rewrite list_elem_of_fmap. split.
  - intros [[k w] [-> Hin]]. apply elem_of_map_to_list in Hin. by exists k.
  - intros [k Hk]. exists (k, v). split; [done|]. by apply elem_of_map_to_list.
Qed.

Lemma elem_of_priorDates data date d :
  d ∈ priorDates data date ↔ recorded data d ∧ dateBefore d date.
Proof.
  unfold priorDates, recorded.
  rewrite elem_of_reverse, merge_sort_Permutation, list_elem_of_filter.
  rewrite elem_of_objectKeys. tauto.
Qed.

Lemma priorDates_sorted data date :
  StronglySorted (flip String.le) (priorDates data date).
Proof.
  unfold priorDates. apply Sorted_StronglySorted; [apply _|].
  apply Sorted_reverse, Sorted_merge_sort; apply _.
Qed.

Local Instance flip_le_anti_symm : AntiSymm (=) (flip String.le).
Proof. intros x y Hxy Hyx. by apply (anti_symm String.le). Qed.

(** The list depends only on which dates before [date] are recorded. *)
Lemma priorDates_ext data1 data2 date :
  (∀ d, dateBefore d date → recorded data1 d ↔ recorded data2 d) →
  priorDates data1 date = priorDates data2 date.
Proof.
  intros Hsame.
  apply (StronglySorted_unique (flip String.le)); try apply priorDates_sorted.
  apply NoDup_Permutation.
  - unfold priorDates. rewrite reverse_Permutation, merge_sort_Permutation.
    apply NoDup_filter, NoDup_objectKeys.
  - unfold priorDates. rewrite reverse_Permutation, merge_sort_Permutation.
    apply NoDup_filter, NoDup_objectKeys.
  - intros d. rewrite !elem_of_priorDates.
    split; intros [Hr Hb]; (split; [by apply (Hsame _ Hb)|done]).
Qed.

Lemma priorDates_head data date d rest :
  priorDates data date = d :: rest → mostRecentBefore data date d.
Proof.
  intros Heq. pose proof (priorDates_sorted data date) as Hs.
  assert (d ∈ priorDates data date) as Hd by (rewrite Heq; left).
  apply elem_of_priorDates in Hd as [Hrec Hlt].
  split; [done|]. split; [done|]. intros d' Hrec' Hlt'.
  assert (d' ∈ priorDates data date) as Hd' by (by apply elem_of_priorDates).
  rewrite Heq in Hs, Hd'. apply StronglySorted_cons in Hs as [Hall _].
  apply elem_of_cons in Hd' as [->|Hin]; [done|].
  rewrite Forall_forall in Hall. by apply Hall.
Qed.

(** The first [n] entries are the [n] most recent recorded dates before
    [date]: every other such date is older than each of them. *)
Lemma priorDates_take_most_recent data date n d :
  d ∈ take n (priorDates data date) →
  recorded data d ∧ dateBefore d date ∧
  ∀ d', recorded data d' → dateBefore d' date →
        d' ∉ take n (priorDates data date) → String.le d' d.
Proof.
  intros Hd. pose proof (priorDates_sorted data date) as Hs.
  rewrite <- (take_drop n (priorDates data date)) in Hs.
  assert (d ∈ priorDates data date) as Hin.
  { rewrite <- (take_drop n (priorDates data date)). apply elem_of_app. by left. }
  apply elem_of_priorDates in Hin as [Hrec Hlt].
  split; [done|]. split; [done|]. intros d' Hrec' Hlt' Hout.
  assert (d' ∈ priorDates data date) as Hin' by (by apply elem_of_priorDates).
  rewrite <- (take_drop n (priorDates data date)) in Hin'.
  apply elem_of_app in Hin' as [?|Hdrop]; [done|].
  apply (StronglySorted_app_1_elem_of _ _ _ _ _ Hs Hd Hdrop).
Qed.

Lemma NoDup_priorDates data date : NoDup (priorDates data date).
Proof.
  unfold priorDates. rewrite reverse_Permutation, merge_sort_Permutation.
  apply NoDup_filter, NoDup_objectKeys.
Qed.



Lemma mostRecentBefore_unique data date d1 d2 :
  mostRecentBefore data date d1 → mostRecentBefore data date d2 → d1 = d2.
Proof.
  intros (R1 & B1 & M1) (R2 & B2 & M2).
  apply (anti_symm String.le); auto.
Qed.

(** [getLastWorkday] is the record of the most recent earlier date, and
    [null] exactly when no earlier date is recorded. *)
Lemma getLastWorkday_Some data date d last :
  mostRecentBefore data date d → assignmentsByDate data !! d = Some last →
  getLastWorkday data date = Some last.
Proof.
  intros Hmost Hlast. unfold getLastWorkday.
  destruct (priorDates data date) as [|d0 rest] eqn:Heq.
  - destruct Hmost as (Hrec & Hlt & _).
    assert (d ∈ priorDates data date) as Hin by (by apply elem_of_priorDates).
    rewrite Heq in Hin. by apply elem_of_nil in Hin.
  - apply priorDates_head in Heq.
    by rewrite (mostRecentBefore_unique _ _ _ _ Heq Hmost).
Qed.

Lemma getLastWorkday_None data date :
  (∀ d, recorded data d → ¬ dateBefore d date) →
  getLastWorkday data date = None.
Proof.
  intros Hnone. unfold getLastWorkday.
  destruct (priorDates data date) as [|d0 rest] eqn:Heq; [done|].
  apply priorDates_head in Heq as (Hrec & Hlt & _). by destruct (Hnone d0).
Qed.

Lemma getLastWorkday_inv data date last :
  getLastWorkday data date = Some last →
  ∃ d, mostRecentBefore data date d ∧ assignmentsByDate data !! d = Some last.
Proof.
  unfold getLastWorkday.
  destruct (priorDates data date) as [|d0 rest] eqn:Heq; [done|].
  intros Hlast. exists d0. split; [|done]. by eapply priorDates_head.
Qed.

End history.

(** ** Normalisation *)

Section normalisation.
Implicit Types (data : Data) (d date : string).

Lemma normalize_chores data date :
  chores (normalizeAvailability data date) = chores data.
Proof. unfold normalizeAvailability. by destruct (_ !! date). Qed.

Lemma normalize_people data date :
  people (normalizeAvailability data date) = people data.
Proof. unfold normalizeAvailability. by destruct (_ !! date). Qed.

Lemma normalize_other data date d :
  d ≠ date →
  assignmentsByDate (normalizeAvailability data date) !! d
  = assignmentsByDate data !! d.
Proof.
  intros Hne. unfold normalizeAvailability.
  destruct (_ !! date); simpl; by rewrite lookup_insert_ne.
Qed.

Lemma normalize_missing data date :
  assignmentsByDate data !! date = None →
  assignmentsByDate (normalizeAvailability data date) !! date
  = Some {| availablePersonIds := inheritedAvailability (getLastWorkday data date);
            assignments := ∅; confirmed := false |}.
Proof.
  intros Hnone. unfold normalizeAvailability. rewrite Hnone. simpl.
  by rewrite lookup_insert_eq.
Qed.

Lemma normalize_existing data date day :
  assignmentsByDate data !! date = Some day →
  assignmentsByDate (normalizeAvailability data date) !! date
  = Some (withAvailable day
            (filter (isPerson data)
               (reseeded (availablePersonIds day) (getLastWorkday data date)))).
Proof.
  intros Hday. unfold normalizeAvailability. rewrite Hday. simpl.
  by rewrite lookup_insert_eq.
Qed.

Lemma normalize_recorded data date d :
  recorded (normalizeAvailability data date) d ↔ d = date ∨ recorded data d.
Proof.
  unfold recorded. destruct (decide (d = date)) as [->|Hne].
  - split; [auto|intros _].
    destruct (assignmentsByDate data !! date) as [day|] eqn:Hday.
    + by rewrite (normalize_existing _ _ _ Hday).
    + by rewrite (normalize_missing _ _ Hday).
  - rewrite normalize_other by done. split; [auto|]. by intros [?|?].
Qed.

Lemma priorDates_normalize data date :
  priorDates (normalizeAvailability data date) date = priorDates data date.
Proof.
  apply priorDates_ext. intros d Hlt. rewrite normalize_recorded.
  split; [|auto]. intros [->|?]; [|done]. by apply dateBefore_irrefl in Hlt.
Qed.

Lemma getLastWorkday_normalize data date :
  getLastWorkday (normalizeAvailability data date) date = getLastWorkday data date.
Proof.
  unfold getLastWorkday. rewrite priorDates_normalize.
  destruct (priorDates data date) as [|d0 rest] eqn:Heq; [done|].
  apply normalize_other. intros ->.
  apply priorDates_head in Heq as (_ & Hlt & _). by apply dateBefore_irrefl in Hlt.
Qed.

Lemma filter_isPerson_normalize data date (ids : list string) :
  filter (isPerson (normalizeAvailability data date)) ids = filter (isPerson data) ids.
Proof.
  apply list_filter_iff. intros pid. unfold isPerson.
  by rewrite normalize_people.
Qed.

Lemma filter_all {A} (P : A → Prop) `{∀ x, Decision (P x)} (l : list A) :
  Forall P l → filter P l = l.
Proof.
  induction 1 as [|x l Hx _ IH]; [done|].
  rewrite filter_cons_True by done. by rewrite IH.
Qed.

Lemma reseeded_people data (ids : list string) lastDay :
  Forall (isPerson data) ids →
  (∀ l, lastDay = Some l → Forall (isPerson data) (availablePersonIds l)) →
  Forall (isPerson data) (reseeded ids lastDay).
Proof.
  intros Hids Hlast. unfold reseeded.
  destruct ids; [|done]. destruct lastDay as [l|]; [|done].
  specialize (Hlast l eq_refl). by destruct (availablePersonIds l).
Qed.

Lemma reseeded_idemp ids lastDay :
  reseeded (reseeded ids lastDay) lastDay = reseeded ids lastDay.
Proof.
  unfold reseeded. destruct ids as [|i ids]; [|done].
  destruct lastDay as [l|]; [|done].
  by destruct (availablePersonIds l) eqn:Hl; rewrite ?Hl.
Qed.

Lemma getLastWorkday_people data date l :
  availabilityRefersToPeople data →
  getLastWorkday data date = Some l → Forall (isPerson data) (availablePersonIds l).
Proof.
  intros Hwf Hl. apply getLastWorkday_inv in Hl as (d & _ & Hd). by eapply Hwf.
Qed.

Lemma withDays_insert_same data date day :
  assignmentsByDate data !! date = Some day →
  withDays data (<[date := day]> (assignmentsByDate data)) = data.
Proof.
  intros Hday. destruct data as [cs ps days]. unfold withDays. simpl in *.
  by rewrite insert_id.
Qed.

(** On a document whose availability arrays name only current people,
    a second normalisation changes nothing. *)
Lemma normalize_idemp data date :
  availabilityRefersToPeople data →
  normalizeAvailability (normalizeAvailability data date) date
  = normalizeAvailability data date.
Proof.
  intros Hwf.
  assert (∃ day1,
            assignmentsByDate (normalizeAvailability data date) !! date = Some day1 ∧
            filter (isPerson data)
              (reseeded (availablePersonIds day1) (getLastWorkday data date))
            = availablePersonIds day1) as (day1 & Hday1 & Hfix).
  { destruct (assignmentsByDate data !! date) as [day|] eqn:Hday.
    - eexists. split; [by apply normalize_existing|]. simpl.
      assert (Forall (isPerson data)
                (reseeded (availablePersonIds day) (getLastWorkday data date))) as Hall.
      { apply reseeded_people; [by eapply Hwf|].
        intros l Hl. by eapply getLastWorkday_people. }
      rewrite (filter_all _ _ Hall), reseeded_idemp. by apply filter_all.
    - eexists. split; [by apply normalize_missing|]. simpl.
      unfold inheritedAvailability, reseeded.
      destruct (getLastWorkday data date) as [l|] eqn:Hl; [|done].
      pose proof (getLastWorkday_people _ _ _ Hwf Hl) as Hall.
      destruct (availablePersonIds l) eqn:Hav; [done|].
      by apply filter_all. }
  unfold normalizeAvailability at 1. rewrite Hday1.
  rewrite getLastWorkday_normalize, filter_isPerson_normalize, Hfix.
  replace (withAvailable day1 (availablePersonIds day1)) with day1
    by (by destruct day1).
  by apply withDays_insert_same.
Qed.

End normalisation.

(** ** One pass over the chores *)

Section passes.
Implicit Types (chores : list Chore) (newA m : gmap string string)
  (assigned : gset string) (rng : Rng) (available : list string).

Lemma phase1_passWith data dates enforce available chores newA assigned rng :
  phase1 data dates enforce available chores newA assigned rng
  = passWith (phase1Candidates data dates enforce available) chores newA assigned rng.
Proof.
  revert newA assigned rng. induction chores as [|chore rest IH]; intros; [done|].
  cbn [phase1 passWith]. destruct (phase1Candidates _ _ _ _ _ _) as [|c0 cs]; [done|].
  destruct (pickOne _ _ _). apply IH.
Qed.

Lemma phase2_passWith enforce available chores newA assigned rng :
  phase2 enforce available chores newA assigned rng
  = passWith (λ assigned _, phase2Candidates enforce available assigned)
      chores newA assigned rng.
Proof.
  revert newA assigned rng. induction chores as [|chore rest IH]; intros; [done|].
  cbn [phase2 passWith]. destruct (phase2Candidates _ _ _) as [|c0 cs]; [done|].
  destruct (pickOne _ _ _). apply IH.
Qed.

Lemma uniform_lt rng n : n ≠ 0 → (uniform rng n).1 < n.
Proof. intros Hn. simpl. by apply Nat.mod_upper_bound. Qed.

Lemma pickOne_elem rng c0 cs :
  (pickOne rng c0 (c0 :: cs)).1 ∈ c0 :: cs.
Proof.
  unfold pickOne.
  pose proof (uniform_lt rng (length (c0 :: cs))) as Hlt.
  destruct (uniform rng (length (c0 :: cs))) as [i rng'] eqn:Hu.
  cbn [fst] in *. apply list_elem_of_In, nth_In, Hlt. done.
Qed.

Lemma elem_of_notYetAssigned enforce assigned available pid :
  pid ∈ notYetAssigned enforce assigned available
  ↔ pid ∈ available ∧ (enforce = true → pid ∉ assigned).
Proof.
  unfold notYetAssigned. destruct enforce.
  - rewrite list_elem_of_filter. split; [intros [? ?]; auto|intros [? Hn]; auto].
  - split; [intros ?; split; [done|discriminate]|by intros [? _]].
Qed.

Section generic.
Variable cands : gset string → Chore → list string.

Lemma pass_keeps_keys chores newA assigned rng c :
  is_Some (newA !! c) →
  is_Some (newAssignments (passWith cands chores newA assigned rng) !! c).
Proof.
  revert newA assigned rng. induction chores as [|chore rest IH]; intros ??? Hc; [done|].
  cbn [passWith]. destruct (cands assigned chore) as [|c0 cs]; [done|].
  destruct (pickOne _ _ _) as [pick rng']. apply IH.
  destruct (decide (chore_id chore = c)) as [->|Hne].
  - by rewrite lookup_insert_eq.
  - by rewrite lookup_insert_ne.
Qed.

(** A pass that ran to its end gave every chore a person. *)
Lemma pass_completed_assigns chores newA assigned rng :
  completed (passWith cands chores newA assigned rng) = true →
  assignsEvery chores (newAssignments (passWith cands chores newA assigned rng)).
Proof.
  revert newA assigned rng. induction chores as [|chore rest IH]; intros ??? Hdone c Hc.
  { by apply elem_of_nil in Hc. }
  cbn [passWith] in *. destruct (cands assigned chore) as [|c0 cs]; [done|].
  destruct (pickOne _ _ _) as [pick rng'].
  apply elem_of_cons in Hc as [->|Hc].
  - apply pass_keeps_keys. by rewrite lookup_insert_eq.
  - by apply IH.
Qed.

(** Everybody a pass assigns comes out of a candidate list. *)
Lemma pass_values (P : string → Prop) chores newA assigned rng :
  (∀ a chore p, p ∈ cands a chore → P p) →
  (∀ c p, newA !! c = Some p → P p) →
  ∀ c p, newAssignments (passWith cands chores newA assigned rng) !! c = Some p → P p.
Proof.
  intros Hc. revert newA assigned rng.
  induction chores as [|chore rest IH]; intros ??? Hold; [done|].
  cbn [passWith]. destruct (cands assigned chore) as [|c0 cs] eqn:Hcs; [done|].
  pose proof (pickOne_elem rng c0 cs) as Hin.
  destruct (pickOne _ _ _) as [pick rng']. simpl in Hin.
  apply IH. intros c p. destruct (decide (chore_id chore = c)) as [->|Hne].
  - rewrite lookup_insert_eq. intros [= <-]. apply (Hc assigned chore). by rewrite Hcs.
  - rewrite lookup_insert_ne by done. apply Hold.
Qed.

(** When candidates are never people already picked, nobody ends up with
    two chores. *)
Lemma pass_onePerPerson chores newA assigned rng :
  (∀ a chore p, p ∈ cands a chore → p ∉ a) →
  (∀ c p, newA !! c = Some p → p ∈ assigned) →
  onePerPerson newA →
  onePerPerson (newAssignments (passWith cands chores newA assigned rng)).
Proof.
  intros Hfresh. revert newA assigned rng.
  induction chores as [|chore rest IH]; intros ??? Hin Hinj; [done|].
  cbn [passWith]. destruct (cands assigned chore) as [|c0 cs] eqn:Hcs; [done|].
  pose proof (pickOne_elem rng c0 cs) as Hpick.
  destruct (pickOne _ _ _) as [pick rng']. simpl in Hpick.
  assert (pick ∉ assigned) as Hnew.
  { apply (Hfresh assigned chore). by rewrite Hcs. }
  apply IH.
  - intros c p. destruct (decide (chore_id chore = c)) as [->|Hne].
    + rewrite lookup_insert_eq. intros [= <-]. set_solver.
    + rewrite lookup_insert_ne by done. intros ?%Hin. set_solver.
  - intros c1 c2 p.
    destruct (decide (chore_id chore = c1)) as [<-|Hne1];
      destruct (decide (chore_id chore = c2)) as [<-|Hne2];
      rewrite ?lookup_insert_eq, ?lookup_insert_ne by done; try done.
    + intros [= <-] ?%Hin. done.
    + intros ?%Hin [= <-]. done.
    + apply Hinj.
Qed.

End generic.

(** The relaxed pass cannot fail while more distinct people are left
    than chores. *)
Lemma phase2_completes available chores newA assigned rng :
  (length chores ≤ size (list_to_set available ∖ assigned : gset string))%nat →
  completed (phase2 true available chores newA assigned rng) = true.
Proof.
  revert newA assigned rng. induction chores as [|chore rest IH]; intros ??? Hsize; [done|].
  cbn [phase2 length] in *.
  destruct (phase2Candidates true available assigned) as [|c0 cs] eqn:Hcs.
  - exfalso.
    assert (list_to_set available ∖ assigned = (∅ : gset string)) as Hempty.
    { apply set_eq. intros p. split; [|set_solver].
      rewrite elem_of_difference, elem_of_list_to_set. intros [Hav Hna].
      assert (p ∈ phase2Candidates true available assigned) as Hp.
      { unfold phase2Candidates. apply elem_of_notYetAssigned. auto. }
      rewrite Hcs in Hp. by apply elem_of_nil in Hp. }
    rewrite Hempty, size_empty in Hsize. lia.
  - pose proof (pickOne_elem rng c0 cs) as Hpick.
    destruct (pickOne _ _ _) as [pick rng']. simpl in Hpick.
    rewrite <- Hcs in Hpick. unfold phase2Candidates in Hpick.
    apply elem_of_notYetAssigned in Hpick as [Hav Hna].
    specialize (Hna eq_refl).
    apply IH.
    replace (list_to_set available ∖ ({[pick]} ∪ assigned) : gset string)
      with ((list_to_set available ∖ assigned) ∖ {[pick]} : gset string)
      by set_solver.
    rewrite size_difference by set_solver. rewrite size_singleton. lia.
Qed.

End passes.


(** ** The engine *)

Section engine.
Implicit Types (data : Data) (d today : string) (rng : Rng)
  (m : gmap string string).

Lemma availableOn_lookup data d day :
  assignmentsByDate data !! d = Some day → availableOn data d = availablePersonIds day.
Proof. unfold availableOn. by intros ->. Qed.

Lemma assignmentsOn_lookup data d day :
  assignmentsByDate data !! d = Some day → assignmentsOn data d = assignments day.
Proof. unfold assignmentsOn. by intros ->. Qed.

Lemma commit_today data today day m :
  assignmentsByDate data !! today = Some day →
  assignmentsByDate (commit data today m) !! today = Some (withAssignments day m).
Proof. intros Hday. unfold commit. simpl. by rewrite lookup_alter_eq, Hday. Qed.

Lemma commit_other data today d m :
  d ≠ today →
  assignmentsByDate (commit data today m) !! d = assignmentsByDate data !! d.
Proof. intros Hne. unfold commit. simpl. by rewrite lookup_alter_ne. Qed.

Lemma assignmentsOn_commit data today day m :
  assignmentsByDate data !! today = Some day →
  assignmentsOn (commit data today m) today = m.
Proof.
  intros Hday. by rewrite (assignmentsOn_lookup _ _ _ (commit_today _ _ _ m Hday)).
Qed.

Lemma assignmentsOn_normalize data today day :
  assignmentsByDate data !! today = Some day →
  assignmentsOn (normalizeAvailability data today) today = assignments day.
Proof.
  intros Hday. by rewrite (assignmentsOn_lookup _ _ _ (normalize_existing _ _ _ Hday)).
Qed.

(** The body of [generateAssignments] in terms of the two passes. *)
Lemma allocate_unfold data today day rng shown :
  assignmentsByDate data !! today = Some day →
  allocate data today day rng shown =
    if decide (length (availableOn data today) = 0) then
      mkOutcome data rng (shown ++ [WarningText msgNoPeople])
    else if decide (length (availableOn data today) < length (chores data)) then
      mkOutcome data rng (shown ++ [WarningText msgNotEnough])
    else if completed (strictPass data today rng) then
      mkOutcome (commit data today (newAssignments (strictPass data today rng)))
                (random (strictPass data today rng)) shown
    else if completed (relaxedPass data today rng) then
      mkOutcome (commit data today (newAssignments (relaxedPass data today rng)))
                (random (relaxedPass data today rng))
                (shown ++ [WarningText msgRelaxed])
    else
      mkOutcome data (random (relaxedPass data today rng))
                (shown ++ [WarningText msgImpossible]).
Proof.
  intros Hday. unfold allocate, relaxedPass, strictPass, enforcesSingleChore.
  by rewrite (availableOn_lookup _ _ _ Hday).
Qed.

(** [generateAssignments] of script.js on a day that has a record. *)
Lemma script_generate_existing data today day0 rng :
  assignmentsByDate data !! today = Some day0 →
  ∃ day, assignmentsByDate (normalizeAvailability data today) !! today = Some day ∧
    confirmed day = confirmed day0 ∧ assignments day = assignments day0 ∧
    Script.generateAssignments data today rng =
      if confirmed day0
      then mkOutcome (normalizeAvailability data today) rng [Alert msgConfirmed]
      else allocate (normalizeAvailability data today) today day rng [WarningText ""].
Proof.
  intros Hday. eexists. split; [by apply normalize_existing|].
  split; [done|]. split; [done|].
  unfold Script.generateAssignments. rewrite Hday.
  by rewrite (normalize_existing _ _ _ Hday).
Qed.

(** [generateAssignments] of the refactored version, on any document. *)
Lemma refactored_generate data today rng :
  ∃ day, assignmentsByDate (normalizeAvailability data today) !! today = Some day ∧
    Refactored.generateAssignments data today rng =
      if confirmed day
      then mkOutcome (normalizeAvailability data today) rng [WarningText msgConfirmed]
      else allocate (normalizeAvailability data today) today day rng [WarningText ""].
Proof.
  assert (recorded (normalizeAvailability data today) today) as [day Hday].
  { apply normalize_recorded. by left. }
  exists day. split; [done|]. unfold Refactored.generateAssignments. by rewrite Hday.
Qed.

(** With nothing recorded before today the strict pass has no candidate
    for any chore: [every] holds of the empty window for everybody. *)
Lemma phase1Candidates_no_history data enforce available assigned chore :
  phase1Candidates data [] enforce available assigned chore = [].
Proof.
  apply elem_of_nil_inv. intros pid. unfold phase1Candidates.
  rewrite !list_elem_of_filter. intros (_ & Hnot & _). by apply Hnot.
Qed.

Lemma phase2_step enforce available chore rest newA assigned rng c0 cs :
  phase2Candidates enforce available assigned = c0 :: cs →
  ∃ pick rng', pick ∈ c0 :: cs ∧
    phase2 enforce available (chore :: rest) newA assigned rng
    = phase2 enforce available rest (<[chore_id chore := pick]> newA)
        ({[pick]} ∪ assigned) rng'.
Proof.
  intros Hcs. cbn [phase2]. rewrite Hcs.
  pose proof (pickOne_elem rng c0 cs) as Hin.
  destruct (pickOne rng c0 (c0 :: cs)) as [pick rng']. by exists pick, rng'.
Qed.

Lemma endToEnd_normalized today :
  normalizeAvailability (endToEnd today) today = endToEnd today.
Proof.
  unfold normalizeAvailability, endToEnd. cbn [assignmentsByDate].
  rewrite lookup_singleton_eq. unfold withDays, withAvailable. cbn.
  rewrite insert_singleton_eq. do 2 f_equal.
Qed.

Lemma endToEnd_no_history today : priorDates (endToEnd today) today = [].
Proof.
  apply elem_of_nil_inv. intros d [[day Hrec] Hlt]%elem_of_priorDates.
  unfold endToEnd in Hrec. cbn in Hrec.
  apply lookup_singleton_Some in Hrec as [<- _]. by apply dateBefore_irrefl in Hlt.
Qed.

Lemma endToEnd_allocate today rng :
  relaxedEndToEnd today
    (allocate (endToEnd today) today (mkDay ["A"; "B"; "C"] ∅ false) rng
       [WarningText ""]).
Proof.
  assert (assignmentsByDate (endToEnd today) !! today
          = Some (mkDay ["A"; "B"; "C"] ∅ false)) as Hday.
  { unfold endToEnd. cbn. by rewrite lookup_singleton_eq. }
  rewrite (allocate_unfold _ _ _ _ _ Hday).
  unfold relaxedPass, strictPass, enforcesSingleChore.
  rewrite (availableOn_lookup _ _ _ Hday), endToEnd_no_history.
  change (chores (endToEnd today))
    with [mkChore "c1" "Dishes"; mkChore "c2" "Trash"].
  cbn [availablePersonIds length phase1].
  rewrite phase1Candidates_no_history. cbn [completed random].
  rewrite decide_False by done. rewrite decide_False by lia.
  rewrite bool_decide_true by lia.
  edestruct (phase2_step true ["A"; "B"; "C"] (mkChore "c1" "Dishes")
               [mkChore "c2" "Trash"] ∅ ∅ rng) as (p1 & rng1 & Hp1 & ->);
    [by vm_compute|].
  cbn [chore_id].
  assert (∃ p2 rng2, p1 ≠ p2 ∧ p2 ∈ ["A"; "B"; "C"] ∧
            phase2 true ["A"; "B"; "C"] [mkChore "c2" "Trash"]
              (<["c1" := p1]> ∅) ({[p1]} ∪ ∅) rng1
            = mkPass true (<["c2" := p2]> (<["c1" := p1]> ∅))
                ({[p2]} ∪ ({[p1]} ∪ ∅)) rng2) as (p2 & rng2 & Hne & Hp2 & ->).
  { repeat (apply elem_of_cons in Hp1 as [->|Hp1]); [..|by apply elem_of_nil in Hp1].
    all: edestruct (phase2_step true ["A"; "B"; "C"] (mkChore "c2" "Trash") [])
           as (p2 & rng2 & Hp2 & ->); [by vm_compute|].
    all: cbn [chore_id phase2]; exists p2, rng2.
    all: repeat (apply elem_of_cons in Hp2 as [->|Hp2]); [..|by apply elem_of_nil in Hp2].
    all: split; [done|]; split; [compute_done|done]. }
  unfold relaxedEndToEnd. cbn [completed newAssignments stored ui random].
  split; [done|].
  exists p1, p2. rewrite (assignmentsOn_commit _ _ _ _ Hday).
  split; [|done]. rewrite insert_empty. apply insert_insert_ne.
  done.
Qed.

End engine.

(** ** The retention sweep *)

Section retention.
Implicit Types (days : gmap string DayRecord) (d : string) (cutoff : Z)
  (parse : string → option Z).

Lemma sweep_fold_lookup parse cutoff (keys : list string) (acc : gmap string DayRecord * nat) d :
  (foldl (λ acc date,
            if olderThan parse cutoff date then (delete date acc.1, S acc.2) else acc)
         acc keys).1 !! d
  = if decide (olderThan parse cutoff d = true ∧ d ∈ keys) then None else acc.1 !! d.
Proof.
  revert acc. induction keys as [|k keys IH]; intros acc.
  { cbn. rewrite decide_False; [done|]. intros [_ Hin]. by apply elem_of_nil in Hin. }
  cbn [foldl]. rewrite IH.
  destruct (decide (olderThan parse cutoff d = true ∧ d ∈ keys)) as [[Hold Hin]|Hno].
  { rewrite decide_True; [done|]. split; [done|]. by right. }
  destruct (decide (k = d)) as [->|Hne].
  - destruct (olderThan parse cutoff d) eqn:Hold; cbn [fst].
    + rewrite lookup_delete_eq. rewrite decide_True; [done|]. split; [done|]. by left.
    + rewrite decide_False; [done|]. by intros [? _].
  - assert (¬ (olderThan parse cutoff d = true ∧ d ∈ k :: keys)) as Hno'.
    { intros [Hold [?|Hin]%elem_of_cons]; [done|]. by apply Hno. }
    rewrite decide_False by done.
    destruct (olderThan parse cutoff k); cbn [fst]; [|done]. by rewrite lookup_delete_ne.
Qed.

(** The sweep deletes exactly the keys that compare older than the cutoff. *)
Lemma sweep_lookup parse cutoff days d :
  (sweep parse cutoff days).1 !! d = if olderThan parse cutoff d then None else days !! d.
Proof.
  unfold sweep. rewrite sweep_fold_lookup. cbn [fst].
  destruct (olderThan parse cutoff d) eqn:Hold.
  - destruct (decide (true = true ∧ d ∈ objectKeys days)) as [_|Hno]; [done|].
    destruct (days !! d) as [day|] eqn:Hday; [|done].
    destruct Hno. split; [done|]. apply elem_of_objectKeys. by exists day.
  - rewrite decide_False; [done|]. by intros [? _].
Qed.

(** A calendar date denotes a midnight: a whole number of days. *)
Lemma calendarDate_midnight d t : calendarDate d = Some t → ∃ n, t = (n * msPerDay)%Z.
Proof.
  unfold calendarDate.
  destruct (String.list_ascii_of_string d) as [|y1 [|y2 [|y3 [|y4 [|s1 [|m1 [|m2
    [|s2 [|d1 [|d2 [|? ?]]]]]]]]]]]; try done.
  case_decide; [|done].
  destruct (number [y1; y2; y3; y4]) as [y|]; [|done].
  destruct (number [m1; m2]) as [m|]; [|done].
  destruct (number [d1; d2]) as [dd|]; [|done]. cbn.
  case_match; [|done]. intros [= <-]. eauto.
Qed.

Lemma dateTime_calendarDate parse d t :
  calendarDate d = Some t → dateTime parse d = Some t.
Proof. unfold dateTime. by intros ->. Qed.

(** The cutoff shows the wall-clock time of now, thirty days earlier. *)
Lemma cutoffTime_local (now : Clock) :
  (cutoffTime now + offsetOfLocal now (localTime now - 30 * msPerDay)
   = localTime now - 30 * msPerDay)%Z.
Proof. unfold cutoffTime, HISTORY_RETENTION_DAYS. lia. Qed.

End retention.

(** ** Candidate lists *)

Section candidates.
Implicit Types (data : Data) (dates : list string) (pid : string).

Lemma elem_of_phase1Candidates data dates enforce available assigned chore pid :
  pid ∈ phase1Candidates data dates enforce available assigned chore
  ↔ pid ∈ notYetAssigned enforce assigned available
    ∧ assignedOnEveryRecentDay data dates pid = false
    ∧ hadChoreRecently data dates chore pid = false.
Proof.
  unfold phase1Candidates. rewrite !list_elem_of_filter.
  destruct (assignedOnEveryRecentDay data dates pid),
           (hadChoreRecently data dates chore pid); cbn; intuition congruence.
Qed.

Lemma assignedOn_values data d pid :
  pid ∈ objectValues (assignmentsOn data d) ↔ assignedOn data d pid.
Proof.
  rewrite elem_of_objectValues. unfold assignmentsOn, assignedOn.
  destruct (assignmentsByDate data !! d) as [day|].
  - split; [intros [c Hc]; by exists day, c|].
    intros (day' & c & [= <-] & Hc). by exists c.
  - split; [intros [c Hc]; by rewrite lookup_empty in Hc|].
    by intros (day' & c & ? & _).
Qed.


Lemma size_list_to_set_le (l : list string) :
  size (list_to_set l : gset string) ≤ length l.
Proof.
  induction l as [|x l IH]; cbn [list_to_set length foldr].
  - by rewrite size_empty.
  - destruct (decide (x ∈ (list_to_set l : gset string))) as [Hin|Hout].
    + assert (({[x]} ∪ list_to_set l) = list_to_set l :> gset string) as ->
        by set_solver. lia.
    + rewrite size_union by set_solver. rewrite size_singleton. lia.
Qed.

End candidates.

(** ** Properties of the design document *)

(** C1. The end-to-end scenario (chores Dishes and Trash, people A, B, C
    all available today, today unconfirmed, nothing recorded before today),
    evaluated on both versions of [generateAssignments] for every random
    source: each chore goes to a different person among A, B and C, but the
    call does show a warning.  On an empty history the window of the
    consecutive-day filter is empty, [every] holds of it for everybody, the
    strict pass finds no candidate for the first chore, and the map that is
    committed is the one of the relaxed pass, with its relaxation warning. *)
Theorem end_to_end_scenario_shows_relaxation_warning today rng :
  relaxedEndToEnd today (Script.generateAssignments (endToEnd today) today rng) ∧
  relaxedEndToEnd today (Refactored.generateAssignments (endToEnd today) today rng).
Proof.
  assert (assignmentsByDate (endToEnd today) !! today
          = Some (mkDay ["A"; "B"; "C"] ∅ false)) as Hday.
  { unfold endToEnd. cbn. by rewrite lookup_singleton_eq. }
  split.
  - unfold Script.generateAssignments.
    rewrite endToEnd_normalized, Hday. cbn [confirmed]. apply endToEnd_allocate.
  - unfold Refactored.generateAssignments.
    rewrite endToEnd_normalized, Hday. cbn [confirmed]. apply endToEnd_allocate.
Qed.

(** C2, as the code has it.  When the relaxed pass of either version meets
    an empty candidate list, the call shows the one fixed message
    "Assignment impossible ..." (which names no chore) and returns before
    the commit: the stored document is the normalised one, today's
    assignments are what they were, and the partial map of the pass is
    dropped. *)
Theorem relaxed_pass_failure_drops_partial_map data today day0 rng :
  assignmentsByDate data !! today = Some day0 →
  confirmed day0 = false →
  let normalized := normalizeAvailability data today in
  length (chores data) ≤ length (availableOn normalized today) →
  completed (strictPass normalized today rng) = false →
  completed (relaxedPass normalized today rng) = false →
  ∀ o, o ∈ [Script.generateAssignments data today rng;
            Refactored.generateAssignments data today rng] →
    stored o = normalized ∧
    assignmentsOn (stored o) today = assignments day0 ∧
    shownWarnings (ui o) = [msgImpossible].
Proof.
  intros Hday0 Hconf normalized Hlen Hstrict Hrelaxed o Ho. subst normalized.
  destruct (script_generate_existing _ _ _ rng Hday0) as (day & Hday & Hc & _ & Hs).
  destruct (refactored_generate data today rng) as (day' & Hday' & Hr).
  rewrite Hday in Hday'. injection Hday' as <-.
  rewrite Hconf in Hs. rewrite Hc, Hconf in Hr.
  assert (o = allocate (normalizeAvailability data today) today day rng [WarningText ""])
    as -> by set_solver.
  rewrite (allocate_unfold _ _ _ _ _ Hday), normalize_chores, Hstrict, Hrelaxed.
  assert (availableOn (normalizeAvailability data today) today ≠ []) as Hsome.
  { intros Hnil. unfold strictPass, enforcesSingleChore in Hstrict.
    rewrite Hnil, normalize_chores in *. cbn [length] in *.
    destruct (chores data); [done|]. cbn in Hlen. lia. }
  rewrite decide_False by (by destruct (availableOn _ today)).
  rewrite decide_False by lia. cbn [stored ui].
  split; [done|]. split; [by apply assignmentsOn_normalize|done].
Qed.

Lemma relaxed_pass_failure_witness :
  assignmentsByDate repeatedId !! "2024-03-10" = Some (mkDay ["A"; "A"] ∅ false) ∧
  ∀ o, o ∈ [Script.generateAssignments repeatedId "2024-03-10" (λ _, 0);
            Refactored.generateAssignments repeatedId "2024-03-10" (λ _, 0)] →
    stored o = normalizeAvailability repeatedId "2024-03-10" ∧
    assignmentsOn (stored o) "2024-03-10" = assignments (mkDay ["A"; "A"] ∅ false) ∧
    shownWarnings (ui o) = [msgImpossible].
Proof.
  split; [reflexivity|].
  apply (relaxed_pass_failure_drops_partial_map
           repeatedId "2024-03-10" (mkDay ["A"; "A"] ∅ false) (λ _, 0)).
  - reflexivity.
  - reflexivity.
  - vm_compute. lia.
  - vm_compute. reflexivity.
  - vm_compute. reflexivity.
Defined.

(** C2, as stated, fails: with the id A twice in today's availability and
    two chores, the relaxed pass gives Dishes to A and then has no
    candidate for Trash; the partial map {Dishes: A} is not written (today's
    assignments stay empty) and the message shown is the fixed one. *)
Lemma relaxed_pass_partial_map_is_not_written :
  let normalized := normalizeAvailability repeatedId "2024-03-10" in
  let o := Script.generateAssignments repeatedId "2024-03-10" (λ _, 0) in
  completed (relaxedPass normalized "2024-03-10" (λ _, 0)) = false ∧
  newAssignments (relaxedPass normalized "2024-03-10" (λ _, 0)) = {[ "c1" := "A" ]} ∧
  assignmentsOn (stored o) "2024-03-10" = ∅ ∧
  assignmentsOn (stored o) "2024-03-10"
    ≠ newAssignments (relaxedPass normalized "2024-03-10" (λ _, 0)) ∧
  shownWarnings (ui o) = [msgImpossible].
Proof.
  split; [by vm_compute|]. split; [by vm_compute|]. split; [by vm_compute|].
  split; [|by vm_compute].
  intros Heq. apply (f_equal (λ m : gmap string string, m !! "c1")) in Heq.
  vm_compute in Heq. discriminate.
Qed.




(** C4, as the code has it.  For each of the three validation blocks
    (today already confirmed; nobody available; fewer available people than
    chores) the call of script.js stops before any pick: no random draw is
    consumed, exactly one message is shown, today's assignments are what
    they were, and the stored document is the normalised one.  The
    normalisation that precedes the checks is saved, so today's
    availability may have been rewritten. *)
Theorem validation_blocks_stop_after_normalisation data today day0 rng :
  assignmentsByDate data !! today = Some day0 →
  confirmed day0 = true
  ∨ availableOn (normalizeAvailability data today) today = []
  ∨ length (availableOn (normalizeAvailability data today) today) < length (chores data) →
  let o := Script.generateAssignments data today rng in
  stored o = normalizeAvailability data today ∧
  rngAfter o = rng ∧
  (∃ w, w ∈ [msgConfirmed; msgNoPeople; msgNotEnough] ∧ shownWarnings (ui o) = [w]) ∧
  assignmentsOn (stored o) today = assignments day0.
Proof.
  intros Hday0 Hblock o. subst o.
  destruct (script_generate_existing _ _ _ rng Hday0) as (day & Hday & Hconf & Hasg & ->).
  assert (assignmentsOn (normalizeAvailability data today) today = assignments day0)
    as Hkept by (by apply assignmentsOn_normalize).
  destruct (confirmed day0) eqn:Hc.
  { cbn [stored rngAfter ui]. repeat split; [|done].
    exists msgConfirmed. split; [set_solver|done]. }
  rewrite (allocate_unfold _ _ _ _ _ Hday), normalize_chores.
  destruct Hblock as [?|[Hnone|Hfew]]; [done|..].
  - rewrite Hnone. rewrite decide_True by done. cbn [stored rngAfter ui].
    repeat split; [|done]. exists msgNoPeople. split; [set_solver|done].
  - case_decide.
    + cbn [stored rngAfter ui]. repeat split; [|done].
      exists msgNoPeople. split; [set_solver|done].
    + rewrite decide_True by done. cbn [stored rngAfter ui]. repeat split; [|done].
      exists msgNotEnough. split; [set_solver|done].
Qed.

Lemma validation_blocks_witness :
  assignmentsByDate reseedsBeforeBlock !! "2024-03-10" = Some (mkDay [] ∅ false) ∧
  let o := Script.generateAssignments reseedsBeforeBlock "2024-03-10" (λ _, 0) in
  stored o = normalizeAvailability reseedsBeforeBlock "2024-03-10" ∧
  rngAfter o = (λ _, 0) ∧
  (∃ w, w ∈ [msgConfirmed; msgNoPeople; msgNotEnough] ∧ shownWarnings (ui o) = [w]) ∧
  assignmentsOn (stored o) "2024-03-10" = assignments (mkDay [] ∅ false).
Proof.
  split; [reflexivity|].
  apply (validation_blocks_stop_after_normalisation
           reseedsBeforeBlock "2024-03-10" (mkDay [] ∅ false) (λ _, 0)).
  - reflexivity.
  - right. right. vm_compute. lia.
Defined.

(** C4, as stated, fails: on a day whose availability is empty while
    yesterday's is not, the call is stopped by the not-enough-people block,
    yet the stored document has changed (today's availability was reseeded
    by the normalisation). *)
Lemma validation_block_after_reseeding_mutates_state :
  let o := Script.generateAssignments reseedsBeforeBlock "2024-03-10" (λ _, 0) in
  shownWarnings (ui o) = [msgNotEnough] ∧
  availableOn reseedsBeforeBlock "2024-03-10" = [] ∧
  availableOn (stored o) "2024-03-10" = ["A"] ∧
  stored o ≠ reseedsBeforeBlock.
Proof.
  split; [by vm_compute|]. split; [by vm_compute|]. split; [by vm_compute|].
  intros Heq.
  assert (availableOn
            (stored (Script.generateAssignments reseedsBeforeBlock "2024-03-10" (λ _, 0)))
            "2024-03-10" = availableOn reseedsBeforeBlock "2024-03-10") as Hsame
    by (by rewrite Heq).
  vm_compute in Hsame. discriminate.
Qed.

(** C5. Whatever the document and the random source, the call of script.js
    leaves either the normalised document as it is, or the normalised
    document with today's assignment map replaced as a whole by the map
    [m] of a pass that ran to its end, in which every chore has a person.
    When the strict pass stops on an empty candidate list, [m] is the map
    the relaxed pass built from the empty map: the picks of the aborted
    strict pass are not written anywhere. *)
Theorem commit_is_one_replacement_by_a_completed_pass data today rng :
  let normalized := normalizeAvailability data today in
  let o := Script.generateAssignments data today rng in
  (stored o = normalized ∧
   ∀ day0, assignmentsByDate data !! today = Some day0 →
           assignmentsOn (stored o) today = assignments day0) ∨
  ∃ m, stored o = commit normalized today m ∧
       assignmentsOn (stored o) today = m ∧
       (∀ d, d ≠ today →
          assignmentsByDate (stored o) !! d = assignmentsByDate normalized !! d) ∧
       assignsEvery (chores data) m ∧
       ((completed (strictPass normalized today rng) = true ∧
         m = newAssignments (strictPass normalized today rng))
        ∨ (completed (strictPass normalized today rng) = false ∧
           completed (relaxedPass normalized today rng) = true ∧
           m = newAssignments (relaxedPass normalized today rng))).
Proof.
  intros normalized o. subst normalized o.
  destruct (assignmentsByDate data !! today) as [day0|] eqn:Hday0.
  2:{ left. unfold Script.generateAssignments. by rewrite Hday0. }
  destruct (script_generate_existing _ _ _ rng Hday0) as (day & Hday & _ & _ & ->).
  assert (∀ r ev,
            stored (mkOutcome (normalizeAvailability data today) r ev)
            = normalizeAvailability data today ∧
            ∀ day1, Some day0 = Some day1 →
              assignmentsOn
                (stored (mkOutcome (normalizeAvailability data today) r ev)) today
              = assignments day1) as Hkept.
  { intros r ev. split; [done|]. intros day1 [= <-]. by apply assignmentsOn_normalize. }
  destruct (confirmed day0); [by left|].
  rewrite (allocate_unfold _ _ _ _ _ Hday).
  repeat case_decide; try (by left).
  destruct (completed (strictPass _ today rng)) eqn:Hstrict.
  - right. eexists. split; [done|]. cbn [stored].
    split; [by eapply assignmentsOn_commit|].
    split; [by intros; apply commit_other|].
    split; [|by left].
    rewrite <- (normalize_chores data today).
    unfold strictPass in *. rewrite phase1_passWith in *.
    by apply pass_completed_assigns.
  - destruct (completed (relaxedPass _ today rng)) eqn:Hrelaxed; [|by left].
    right. eexists. split; [done|]. cbn [stored].
    split; [by eapply assignmentsOn_commit|].
    split; [by intros; apply commit_other|].
    split; [|by right].
    rewrite <- (normalize_chores data today).
    unfold relaxedPass in *. rewrite phase2_passWith in *.
    by apply pass_completed_assigns.
Qed.

(** C6, as the code has it.  When the record of a date exists with an
    empty availability array, the normalisation takes the array of the most
    recent earlier recorded date, whatever it holds, and keeps of it the
    ids of current people; an earlier date whose array is empty is not
    skipped, so today's array then stays empty.  With no earlier recorded
    date the record is left as it is. *)
Theorem empty_day_is_seeded_from_most_recent_day data date day :
  assignmentsByDate data !! date = Some day →
  availablePersonIds day = [] →
  (∀ d last, mostRecentBefore data date d →
     assignmentsByDate data !! d = Some last →
     assignmentsByDate (normalizeAvailability data date) !! date
     = Some (withAvailable day (filter (isPerson data) (availablePersonIds last))))
  ∧ ((∀ d, recorded data d → ¬ dateBefore d date) →
     assignmentsByDate (normalizeAvailability data date) !! date = Some day).
Proof.
  intros Hday Hempty. rewrite (normalize_existing _ _ _ Hday), Hempty. split.
  - intros d last Hmost Hlast. rewrite (getLastWorkday_Some _ _ _ _ Hmost Hlast).
    cbn [reseeded]. by destruct (availablePersonIds last).
  - intros Hnone. rewrite (getLastWorkday_None _ _ Hnone). cbn.
    destruct day; cbn in *. by subst.
Qed.

Lemma empty_day_is_seeded_witness :
  assignmentsByDate emptyDayBetween !! "2024-03-10" = Some (mkDay [] ∅ false) ∧
  availablePersonIds (mkDay [] ∅ false) = [] ∧
  (∀ d last, mostRecentBefore emptyDayBetween "2024-03-10" d →
     assignmentsByDate emptyDayBetween !! d = Some last →
     assignmentsByDate (normalizeAvailability emptyDayBetween "2024-03-10") !! "2024-03-10"
     = Some (withAvailable (mkDay [] ∅ false)
               (filter (isPerson emptyDayBetween) (availablePersonIds last))))
  ∧ ((∀ d, recorded emptyDayBetween d → ¬ dateBefore d "2024-03-10") →
     assignmentsByDate (normalizeAvailability emptyDayBetween "2024-03-10") !! "2024-03-10"
     = Some (mkDay [] ∅ false)).
Proof.
  split; [reflexivity|]. split; [reflexivity|].
  apply (empty_day_is_seeded_from_most_recent_day
           emptyDayBetween "2024-03-10" (mkDay [] ∅ false)); reflexivity.
Defined.

(** C6, as stated, fails: 2024-03-08 is the nearest earlier day with a
    non-empty availability ([A]), 2024-03-09 lies in between with an empty
    one, and normalising the empty record of 2024-03-10 leaves it empty. *)
Lemma normalize_does_not_skip_empty_days :
  availableOn emptyDayBetween "2024-03-10" = [] ∧
  availableOn emptyDayBetween "2024-03-09" = [] ∧
  availableOn emptyDayBetween "2024-03-08" = ["A"] ∧
  priorDates emptyDayBetween "2024-03-10" = ["2024-03-09"; "2024-03-08"] ∧
  availableOn (normalizeAvailability emptyDayBetween "2024-03-10") "2024-03-10" = [] ∧
  availableOn (normalizeAvailability emptyDayBetween "2024-03-10") "2024-03-10"
    ≠ availableOn emptyDayBetween "2024-03-08".
Proof. repeat split; by vm_compute. Qed.

(** C7, as the code has it.  On a document in which every availability
    array names only current people, normalising a date twice leaves the
    same document as normalising it once, and so the same record of the
    date (the record the refactored version returns). *)
Theorem normalize_is_idempotent_without_dangling_ids data date :
  availabilityRefersToPeople data →
  normalizeAvailability (normalizeAvailability data date) date
  = normalizeAvailability data date
  ∧ assignmentsByDate (normalizeAvailability (normalizeAvailability data date) date) !! date
    = assignmentsByDate (normalizeAvailability data date) !! date
  ∧ recorded (normalizeAvailability data date) date.
Proof.
  intros Hwf. rewrite (normalize_idemp _ _ Hwf). split; [done|]. split; [done|].
  apply normalize_recorded. by left.
Qed.

Lemma normalize_is_idempotent_witness :
  availabilityRefersToPeople emptyDayBetween ∧
  normalizeAvailability (normalizeAvailability emptyDayBetween "2024-03-11") "2024-03-11"
  = normalizeAvailability emptyDayBetween "2024-03-11"
  ∧ assignmentsByDate
      (normalizeAvailability (normalizeAvailability emptyDayBetween "2024-03-11")
         "2024-03-11") !! "2024-03-11"
    = assignmentsByDate (normalizeAvailability emptyDayBetween "2024-03-11") !! "2024-03-11"
  ∧ recorded (normalizeAvailability emptyDayBetween "2024-03-11") "2024-03-11".
Proof.
  assert (availabilityRefersToPeople emptyDayBetween) as Hwf
    by (unfold availabilityRefersToPeople; apply (bool_decide_unpack _);
        vm_compute; exact I).
  split; [exact Hwf|].
  exact (normalize_is_idempotent_without_dangling_ids emptyDayBetween "2024-03-11" Hwf).
Defined.

(** C7, as stated, fails: today's array lists only a deleted person and
    yesterday's a current one.  The first normalisation filters today's
    array down to nothing; the second finds it empty and reseeds it from
    yesterday. *)
Lemma normalize_twice_differs_on_dangling_ids :
  availableOn (normalizeAvailability danglingToday "2024-03-10") "2024-03-10" = [] ∧
  availableOn
    (normalizeAvailability (normalizeAvailability danglingToday "2024-03-10") "2024-03-10")
    "2024-03-10" = ["A"] ∧
  normalizeAvailability (normalizeAvailability danglingToday "2024-03-10") "2024-03-10"
  ≠ normalizeAvailability danglingToday "2024-03-10".
Proof.
  split; [by vm_compute|]. split; [by vm_compute|].
  intros Heq. apply (f_equal (λ data, availableOn data "2024-03-10")) in Heq.
  vm_compute in Heq. discriminate.
Qed.

(** C8, as the code has it.  The sweep of either version compares
    instants: the record of a calendar-date key [d], read as midnight UTC
    [t], is removed exactly when [t] is strictly before the cutoff, and
    kept unchanged otherwise.  The cutoff is not now minus thirty days but
    the instant at which the local wall clock shows the time of day of now
    thirty calendar days earlier; with [tz] the local offset in force then,
    every record dated strictly before the local calendar date of the
    cutoff (the boundary date, thirty days before today's local date) is
    removed, and the record dated on the boundary date is removed as well
    exactly when the local time of day of the sweep is later than [tz] (in
    UTC: at any time other than midnight sharp). *)
Theorem sweep_compares_instants_not_dates data now d day t :
  assignmentsByDate data !! d = Some day →
  calendarDate d = Some t →
  let swept := assignmentsByDate (Script.cleanupOldData data now) in
  let tz := offsetOfLocal now (localTime now - 30 * msPerDay) in
  let boundary := (localDay tz (cutoffTime now) * msPerDay)%Z in
  assignmentsByDate (Refactored.cleanupOldData data now).1 = swept ∧
  (cutoffTime now + tz = localTime now - 30 * msPerDay)%Z ∧
  (swept !! d = None ↔ (t < cutoffTime now)%Z) ∧
  (swept !! d = Some day ↔ (cutoffTime now ≤ t)%Z) ∧
  boundary = ((localTime now / msPerDay - 30) * msPerDay)%Z ∧
  ((tz < msPerDay)%Z → (t < boundary)%Z → swept !! d = None) ∧
  (t = boundary → (swept !! d = None ↔ (tz < localTime now mod msPerDay)%Z)).
Proof.
  intros Hday Ht swept tz boundary. subst swept boundary.
  pose proof (cutoffTime_local now) as Hcut. fold tz in Hcut.
  unfold Script.cleanupOldData, Refactored.cleanupOldData. cbn [assignmentsByDate withDays fst].
  rewrite sweep_lookup. unfold olderThan.
  rewrite (dateTime_calendarDate _ _ _ Ht), Hday.
  assert (∀ b : bool, (if b then None else Some day) = None ↔ b = true) as Hnone
    by (by intros []).
  assert (∀ b : bool, (if b then None else Some day) = Some day ↔ b = false) as Hsome
    by (by intros []).
  split; [done|]. split; [done|]. split; [by rewrite Hnone, Z.ltb_lt|].
  split; [by rewrite Hsome, Z.ltb_ge|].
  unfold localDay. rewrite Hcut.
  apply calendarDate_midnight in Ht as [n ->].
  assert (0 < msPerDay)%Z as Hpos by done.
  pose proof (Z.div_mod (localTime now) msPerDay) as Hdm.
  pose proof (Z.mod_pos_bound (localTime now) msPerDay Hpos) as Hm.
  assert ((localTime now - 30 * msPerDay) / msPerDay = localTime now / msPerDay - 30)%Z
    as ->.
  { replace (localTime now - 30 * msPerDay)%Z with (localTime now + (- 30) * msPerDay)%Z
      by lia.
    rewrite Z.div_add by lia. lia. }
  split; [done|]. rewrite !Hnone, !Z.ltb_lt. split.
  - intros Htz Hlt. apply Z.mul_lt_mono_pos_r in Hlt; [|done]. nia.
  - intros Heq. apply Z.mul_cancel_r in Heq; [|lia]. subst n. lia.
Qed.

Lemma sweep_compares_instants_witness :
  assignmentsByDate midMarch !! "2024-03-16" = Some (mkDay [] ∅ true) ∧
  calendarDate "2024-03-16" = Some 1710547200000%Z ∧
  cutoffTime londonApr15 = 1710549000000%Z ∧
  (getTime londonApr15 - 30 * msPerDay = 1710545400000)%Z ∧
  let swept := assignmentsByDate (Script.cleanupOldData midMarch londonApr15) in
  let tz := offsetOfLocal londonApr15 (localTime londonApr15 - 30 * msPerDay) in
  let boundary := (localDay tz (cutoffTime londonApr15) * msPerDay)%Z in
  assignmentsByDate (Refactored.cleanupOldData midMarch londonApr15).1 = swept ∧
  (cutoffTime londonApr15 + tz = localTime londonApr15 - 30 * msPerDay)%Z ∧
  (swept !! "2024-03-16" = None ↔ (1710547200000 < cutoffTime londonApr15)%Z) ∧
  (swept !! "2024-03-16" = Some (mkDay [] ∅ true)
   ↔ (cutoffTime londonApr15 ≤ 1710547200000)%Z) ∧
  boundary = ((localTime londonApr15 / msPerDay - 30) * msPerDay)%Z ∧
  ((tz < msPerDay)%Z → (1710547200000 < boundary)%Z → swept !! "2024-03-16" = None) ∧
  (1710547200000%Z = boundary →
   (swept !! "2024-03-16" = None ↔ (tz < localTime londonApr15 mod msPerDay)%Z)).
Proof.
  split; [reflexivity|]. split; [reflexivity|]. split; [reflexivity|].
  split; [reflexivity|].
  apply (sweep_compares_instants_not_dates
           midMarch londonApr15 "2024-03-16" (mkDay [] ∅ true) 1710547200000%Z);
    reflexivity.
Defined.

(** C8, as stated, fails: at noon UTC of 2024-01-31 the boundary date is
    2024-01-01; the record dated 2024-01-01 is removed by the sweep together
    with the one of 2023-12-31, and only 2024-01-02 is left. *)
Lemma boundary_date_record_is_removed :
  calendarDate "2024-01-01"
  = Some (localDay 0 (cutoffTime (utcClock noonJan31)) * msPerDay)%Z ∧
  cutoffTime (utcClock noonJan31) = (noonJan31 - 30 * msPerDay)%Z ∧
  recorded monthOld "2024-01-01" ∧
  assignmentsByDate (Script.cleanupOldData monthOld (utcClock noonJan31)) !! "2024-01-01"
  = None ∧
  assignmentsByDate (Script.cleanupOldData monthOld (utcClock noonJan31)) !! "2023-12-31"
  = None ∧
  recorded (Script.cleanupOldData monthOld (utcClock noonJan31)) "2024-01-02".
Proof.
  split; [by vm_compute|]. split; [by vm_compute|]. split; [by eexists; vm_compute|].
  split; [by vm_compute|]. split; [by vm_compute|]. by eexists; vm_compute.
Qed.

(** C9, as the code has it.  When today has a record and the number of
    distinct available person ids is at least the number of chores (for an
    availability array without repeated ids this is the validation
    precondition), the relaxed pass of script.js never meets an empty
    candidate list, the "Assignment impossible" message is never shown, and,
    once the other two blocks are passed, the call commits a map in which
    every chore has an available person and nobody has two chores. *)
Theorem relaxed_pass_completes_on_distinct_people data today day0 rng :
  assignmentsByDate data !! today = Some day0 →
  let normalized := normalizeAvailability data today in
  length (chores data) ≤ size (list_to_set (availableOn normalized today) : gset string) →
  let o := Script.generateAssignments data today rng in
  completed (relaxedPass normalized today rng) = true ∧
  (msgImpossible ∉ shownWarnings (ui o)) ∧
  (confirmed day0 = false → availableOn normalized today ≠ [] →
   ∃ m, stored o = commit normalized today m ∧
        assignsEvery (chores data) m ∧ onePerPerson m ∧
        ∀ c p, m !! c = Some p → p ∈ availableOn normalized today).
Proof.
  intros Hday0 normalized Hsize o. subst normalized o.
  set (normalized := normalizeAvailability data today) in *.
  pose proof (size_list_to_set_le (availableOn normalized today)) as Hle.
  assert (enforcesSingleChore normalized today = true) as Henf.
  { unfold enforcesSingleChore. apply bool_decide_eq_true.
    subst normalized. rewrite normalize_chores. lia. }
  assert (completed (relaxedPass normalized today rng) = true) as Hrelaxed.
  { unfold relaxedPass. rewrite Henf. apply phase2_completes.
    subst normalized. rewrite normalize_chores.
    by rewrite difference_empty_L. }
  destruct (script_generate_existing _ _ _ rng Hday0) as (day & Hday & _ & _ & ->).
  fold normalized in Hday |- *.
  rewrite (allocate_unfold _ _ _ _ _ Hday), Hrelaxed.
  assert (∀ p : Pass,
            (∀ c q, newAssignments p !! c = Some q →
                    q ∈ availableOn normalized today) →
            onePerPerson (newAssignments p) →
            assignsEvery (chores normalized) (newAssignments p) →
            ∃ m, commit normalized today (newAssignments p) = commit normalized today m ∧
                 assignsEvery (chores data) m ∧ onePerPerson m ∧
                 ∀ c q, m !! c = Some q → q ∈ availableOn normalized today) as Hpack.
  { intros p Hav Hone Hall. exists (newAssignments p).
    subst normalized. rewrite normalize_chores in Hall. done. }
  split; [done|]. split.
  - destruct (confirmed day0); [cbn [ui]; compute_done|].
    repeat case_decide; [cbn [ui]; compute_done..|].
    destruct (completed (strictPass normalized today rng)); cbn [ui]; compute_done.
  - intros -> Hsome.
    rewrite decide_False by (by destruct (availableOn normalized today)).
    rewrite decide_False by (subst normalized; rewrite normalize_chores; lia).
    destruct (completed (strictPass normalized today rng)) eqn:Hstrict; cbn [stored].
    + apply Hpack; unfold strictPass in *; rewrite phase1_passWith in *.
      * apply pass_values; [|done].
        intros a chore p [Hp _]%elem_of_phase1Candidates.
        by apply elem_of_notYetAssigned in Hp as [? _].
      * apply pass_onePerPerson; [|done..].
        intros a chore p [Hp _]%elem_of_phase1Candidates.
        apply elem_of_notYetAssigned in Hp as [_ Hp]. by apply Hp.
      * by apply pass_completed_assigns.
    + apply Hpack; unfold relaxedPass in *; rewrite phase2_passWith in *.
      * apply pass_values; [|done].
        intros a chore p Hp. unfold phase2Candidates in Hp.
        by apply elem_of_notYetAssigned in Hp as [? _].
      * apply pass_onePerPerson; [|done..].
        intros a chore p Hp. unfold phase2Candidates in Hp.
        apply elem_of_notYetAssigned in Hp as [_ Hp]. by apply Hp.
      * by apply pass_completed_assigns.
Qed.

Lemma relaxed_pass_completes_witness :
  assignmentsByDate (endToEnd "2024-03-10") !! "2024-03-10"
    = Some (mkDay ["A"; "B"; "C"] ∅ false) ∧
  let normalized := normalizeAvailability (endToEnd "2024-03-10") "2024-03-10" in
  let o := Script.generateAssignments (endToEnd "2024-03-10") "2024-03-10" (λ _, 0) in
  completed (relaxedPass normalized "2024-03-10" (λ _, 0)) = true ∧
  (msgImpossible ∉ shownWarnings (ui o)) ∧
  (confirmed (mkDay ["A"; "B"; "C"] ∅ false) = false →
   availableOn normalized "2024-03-10" ≠ [] →
   ∃ m, stored o = commit normalized "2024-03-10" m ∧
        assignsEvery (chores (endToEnd "2024-03-10")) m ∧ onePerPerson m ∧
        ∀ c p, m !! c = Some p → p ∈ availableOn normalized "2024-03-10").
Proof.
  split; [reflexivity|].
  apply (relaxed_pass_completes_on_distinct_people
           (endToEnd "2024-03-10") "2024-03-10" (mkDay ["A"; "B"; "C"] ∅ false) (λ _, 0)).
  - reflexivity.
  - vm_compute. lia.
Defined.

(** C9, as stated, fails: with the id A twice in today's availability and
    two chores, all three validation checks pass (today is unconfirmed, the
    array is non-empty and as long as the chore list), the strict pass
    fails, and the relaxed pass then meets an empty candidate list. *)
Lemma repeated_id_reaches_relaxed_failure :
  let normalized := normalizeAvailability repeatedId "2024-03-10" in
  let o := Script.generateAssignments repeatedId "2024-03-10" (λ _, 0) in
  length (chores repeatedId) ≤ length (availableOn normalized "2024-03-10") ∧
  availableOn normalized "2024-03-10" = ["A"; "A"] ∧
  completed (strictPass normalized "2024-03-10" (λ _, 0)) = false ∧
  completed (relaxedPass normalized "2024-03-10" (λ _, 0)) = false ∧
  shownWarnings (ui o) = [msgImpossible].
Proof.
  split; [vm_compute; lia|]. repeat split; by vm_compute.
Qed.

(** C10. In script.js, when today has no record at the moment of the
    call, [generateAssignments] creates the record by normalisation
    (availability inherited from the most recent earlier day, no
    assignments, unconfirmed) and then returns at [if (!day) return]: no
    random draw, nothing shown, and today's assignments are empty. *)
Theorem script_generate_without_record_only_normalizes data today rng :
  assignmentsByDate data !! today = None →
  let o := Script.generateAssignments data today rng in
  o = mkOutcome (normalizeAvailability data today) rng [] ∧
  assignmentsByDate (stored o) !! today
    = Some (mkDay (inheritedAvailability (getLastWorkday data today)) ∅ false) ∧
  assignmentsOn (stored o) today = ∅ ∧
  shownWarnings (ui o) = [].
Proof.
  intros Hnone o. subst o. unfold Script.generateAssignments. rewrite Hnone.
  cbn [stored ui]. pose proof (normalize_missing _ _ Hnone) as Hnew.
  split; [done|]. split; [done|]. split; [|done].
  by rewrite (assignmentsOn_lookup _ _ _ Hnew).
Qed.

Lemma script_generate_without_record_witness :
  assignmentsByDate reseedsBeforeBlock !! "2024-03-11" = None ∧
  let o := Script.generateAssignments reseedsBeforeBlock "2024-03-11" (λ _, 0) in
  o = mkOutcome (normalizeAvailability reseedsBeforeBlock "2024-03-11") (λ _, 0) [] ∧
  assignmentsByDate (stored o) !! "2024-03-11"
    = Some (mkDay (inheritedAvailability (getLastWorkday reseedsBeforeBlock "2024-03-11"))
              ∅ false) ∧
  assignmentsOn (stored o) "2024-03-11" = ∅ ∧
  shownWarnings (ui o) = [].
Proof.
  split; [reflexivity|].
  apply (script_generate_without_record_only_normalizes
           reseedsBeforeBlock "2024-03-11" (λ _, 0)).
  reflexivity.
Defined.

(** ** Further properties: history and normalisation *)

Lemma StronglySorted_lookup_lt {A} (R : relation A) (l : list A) i j x y :
  StronglySorted R l → i < j → l !! i = Some x → l !! j = Some y → R x y.
Proof.
  intros Hs. revert i j. induction Hs as [|a l Hs IH Hall]; intros i j Hij Hi Hj; [done|].
  destruct j as [|j]; [lia|]. cbn in Hj. destruct i as [|i]; cbn in Hi.
  - injection Hi as ->. rewrite Forall_forall in Hall. apply Hall.
    by eapply list_elem_of_lookup_2.
  - apply (IH i j); [lia|done..].
Qed.

(** X1. [getLastWorkday] / [getMostRecentDay] returns the record of the most
    recent recorded date strictly before the given one, and [null] exactly
    when no recorded date precedes it. *)
Theorem getLastWorkday_is_the_most_recent_earlier_record data date :
  (∀ last, getLastWorkday data date = Some last
           ↔ ∃ d, mostRecentBefore data date d ∧ assignmentsByDate data !! d = Some last)
  ∧ (getLastWorkday data date = None ↔ ∀ d, recorded data d → ¬ dateBefore d date).
Proof.
  split.
  - intros last. split; [apply getLastWorkday_inv|].
    intros (d & Hmost & Hlast). by eapply getLastWorkday_Some.
  - split; [|apply getLastWorkday_None].
    intros Hnone d Hrec Hlt. unfold getLastWorkday in Hnone.
    destruct (priorDates data date) as [|d0 rest] eqn:Heq.
    + assert (d ∈ priorDates data date) as Hin by (by apply elem_of_priorDates).
      rewrite Heq in Hin. by apply elem_of_nil in Hin.
    + apply priorDates_head in Heq as ([day Hday] & _ & _). congruence.
Qed.

(** X2. The history list [generateAssignments] builds
    ([Object.keys(...).filter(d => d < today).sort().reverse()]) holds
    exactly the recorded dates strictly before today, each once, in
    strictly descending order. *)
Theorem history_list_is_earlier_dates_descending data today :
  (∀ d, d ∈ priorDates data today ↔ recorded data d ∧ dateBefore d today) ∧
  NoDup (priorDates data today) ∧
  ∀ i j d1 d2, i < j →
    priorDates data today !! i = Some d1 → priorDates data today !! j = Some d2 →
    dateBefore d2 d1.
Proof.
  split; [apply elem_of_priorDates|]. split; [apply NoDup_priorDates|].
  intros i j d1 d2 Hij H1 H2. apply le_ne_dateBefore.
  - apply (StronglySorted_lookup_lt _ _ i j d1 d2 (priorDates_sorted data today)); done.
  - intros ->. pose proof (NoDup_priorDates data today) as Hnd.
    rewrite NoDup_alt in Hnd. specialize (Hnd _ _ _ H1 H2). lia.
Qed.

(** X3. Normalising a date that has no record creates one: unconfirmed,
    without assignments, and with the availability array of the most
    recent earlier recorded date copied as it is (also ids of people who
    no longer exist); with no earlier recorded date the array is empty. *)
Theorem new_day_inherits_availability_verbatim data date :
  assignmentsByDate data !! date = None →
  (∀ d last, mostRecentBefore data date d → assignmentsByDate data !! d = Some last →
     assignmentsByDate (normalizeAvailability data date) !! date
     = Some (mkDay (availablePersonIds last) ∅ false))
  ∧ ((∀ d, recorded data d → ¬ dateBefore d date) →
     assignmentsByDate (normalizeAvailability data date) !! date = Some (mkDay [] ∅ false)).
Proof.
  intros Hnone. rewrite (normalize_missing _ _ Hnone). split.
  - intros d last Hmost Hlast. rewrite (getLastWorkday_Some _ _ _ _ Hmost Hlast).
    cbn. by destruct (availablePersonIds last).
  - intros Hno. by rewrite (getLastWorkday_None _ _ Hno).
Qed.

Lemma new_day_inherits_witness :
  assignmentsByDate danglingToday !! "2024-03-11" = None ∧
  (∀ d last, mostRecentBefore danglingToday "2024-03-11" d →
     assignmentsByDate danglingToday !! d = Some last →
     assignmentsByDate (normalizeAvailability danglingToday "2024-03-11") !! "2024-03-11"
     = Some (mkDay (availablePersonIds last) ∅ false))
  ∧ ((∀ d, recorded danglingToday d → ¬ dateBefore d "2024-03-11") →
     assignmentsByDate (normalizeAvailability danglingToday "2024-03-11") !! "2024-03-11"
     = Some (mkDay [] ∅ false)).
Proof.
  split; [reflexivity|].
  apply (new_day_inherits_availability_verbatim danglingToday "2024-03-11"). reflexivity.
Defined.

(** X4. Normalisation touches nothing but the record of its date, and of an
    existing record nothing but the availability array, which afterwards
    holds only ids of current people, in the order they had. *)
Theorem normalize_touches_only_availability data date :
  onlyTouches date data (normalizeAvailability data date) ∧
  ∀ day, assignmentsByDate data !! date = Some day →
    ∃ ids, assignmentsByDate (normalizeAvailability data date) !! date
           = Some (withAvailable day ids) ∧
           Forall (isPerson data) ids ∧
           (availablePersonIds day ≠ [] → ids = filter (isPerson data) (availablePersonIds day)).
Proof.
  split.
  - split; [apply normalize_chores|]. split; [apply normalize_people|].
    intros d Hne. by apply normalize_other.
  - intros day Hday. eexists. split; [by apply normalize_existing|].
    split.
    + apply Forall_forall. intros p Hp. by apply list_elem_of_filter in Hp as [? _].
    + intros Hne. unfold reseeded. by destruct (availablePersonIds day).
Qed.

(** ** Further properties: what the handlers keep *)

Section everyDay.
Implicit Types (P : DayRecord → Prop) (data : Data) (d today : string).

Lemma everyDay_lookup P data d day :
  everyDay P data → assignmentsByDate data !! d = Some day → P day.
Proof. intros Hall Hd. by apply (Hall d day). Qed.

Lemma everyDay_impl P1 P2 data1 data2 :
  assignmentsByDate data1 = assignmentsByDate data2 →
  (∀ day, P1 day → P2 day) → everyDay P1 data1 → everyDay P2 data2.
Proof.
  unfold everyDay. intros <- Himp Hall d day Hd. apply Himp, (Hall d day Hd).
Qed.

Lemma everyDay_insert P data d day :
  P day → everyDay P data →
  everyDay P (withDays data (<[d := day]> (assignmentsByDate data))).
Proof. intros Hday Hall. unfold everyDay. cbn. by apply map_Forall_insert_2. Qed.

Lemma everyDay_commit P data today m :
  (∀ day, assignmentsByDate data !! today = Some day → P day → P (withAssignments day m)) →
  everyDay P data → everyDay P (commit data today m).
Proof.
  intros Hm Hall d day'. unfold commit. cbn. intros Hd.
  apply lookup_alter_Some in Hd as [(-> & day & Hday & ->)|[_ Hd]].
  - apply (Hm day Hday), (Hall _ _ Hday).
  - by apply (Hall d).
Qed.

Lemma everyDay_sweep P data (parse : string → option Z) (cutoff : Z) :
  everyDay P data →
  everyDay P (withDays data (sweep parse cutoff (assignmentsByDate data)).1).
Proof.
  intros Hall d day. unfold everyDay. cbn. rewrite sweep_lookup.
  destruct (olderThan parse cutoff d); [done|]. apply (Hall d).
Qed.

Lemma everyDay_normalize P data date :
  (∀ ids, ids = [] ∨ (∃ last, P last ∧ ids = availablePersonIds last) →
          P (mkDay ids ∅ false)) →
  (∀ day ids, P day →
     ids = availablePersonIds day ∨ (∃ last, P last ∧ ids = availablePersonIds last) →
     P (withAvailable day (filter (isPerson data) ids))) →
  everyDay P data → everyDay P (normalizeAvailability data date).
Proof.
  intros Hnew Hold Hall.
  assert (∀ l, getLastWorkday data date = Some l → P l) as Hlast.
  { intros l (d0 & _ & Hd0)%getLastWorkday_inv. by apply (Hall d0). }
  unfold normalizeAvailability.
  destruct (assignmentsByDate data !! date) as [day|] eqn:Hday.
  - apply everyDay_insert; [|done]. apply Hold; [by apply (Hall date)|].
    unfold reseeded. destruct (availablePersonIds day); [|by left].
    destruct (getLastWorkday data date) as [l|] eqn:Hl; [|by left].
    destruct (availablePersonIds l) eqn:Hav; [by left|].
    right. exists l. split; [by apply Hlast|done].
  - apply everyDay_insert; [|done]. apply Hnew. unfold inheritedAvailability.
    destruct (getLastWorkday data date) as [l|] eqn:Hl; [|by left].
    destruct (availablePersonIds l) eqn:Hav; [by left|].
    right. exists l. split; [by apply Hlast|done].
Qed.

Lemma everyDay_script_renderAvailability P data today :
  (∀ ids, ids = [] ∨ (∃ last, P last ∧ ids = availablePersonIds last) →
          P (mkDay ids ∅ false)) →
  (∀ day ids, P day →
     ids = availablePersonIds day ∨ (∃ last, P last ∧ ids = availablePersonIds last) →
     P (withAvailable day (filter (isPerson data) ids))) →
  everyDay P data → everyDay P (ScriptOps.renderAvailability data today).
Proof.
  intros Hnew Hold Hall. unfold ScriptOps.renderAvailability.
  destruct (assignmentsByDate data !! today) eqn:Hday.
  - by apply everyDay_normalize.
  - apply everyDay_normalize; [done|done|].
    apply everyDay_insert; [|done]. apply Hnew. by left.
Qed.

End everyDay.

Section generated.
Implicit Types (data : Data) (today : string) (rng : Rng)
  (m newA : gmap string string).

(** Every entry of the map a pass builds was picked from the candidate
    list of a chore with that id. *)
Lemma pass_entries (cands : gset string → Chore → list string)
    (Q : string → string → Prop) (chores : list Chore) newA assigned rng :
  (∀ a chore p, chore ∈ chores → p ∈ cands a chore → Q (chore_id chore) p) →
  (∀ c p, newA !! c = Some p → Q c p) →
  ∀ c p, newAssignments (passWith cands chores newA assigned rng) !! c = Some p → Q c p.
Proof.
  revert newA assigned rng.
  induction chores as [|chore rest IH]; intros ??? Hc Hold; [done|].
  cbn [passWith]. destruct (cands assigned chore) as [|c0 cs] eqn:Hcs; [done|].
  pose proof (pickOne_elem rng c0 cs) as Hin.
  destruct (pickOne _ _ _) as [pick rng']. cbn [fst] in Hin.
  apply IH.
  - intros a ch p Hch. apply Hc. by right.
  - intros c p. destruct (decide (chore_id chore = c)) as [<-|Hne].
    + rewrite lookup_insert_eq. intros [= <-].
      apply (Hc assigned chore); [by left|by rewrite Hcs].
    + rewrite lookup_insert_ne by done. apply Hold.
Qed.

Lemma allocate_stored data today day rng shown :
  assignmentsByDate data !! today = Some day →
  stored (allocate data today day rng shown) = data ∨
  ∃ m, stored (allocate data today day rng shown) = commit data today m ∧
       onePerPerson m ∧ assignsEvery (chores data) m ∧
       ∀ c p, m !! c = Some p →
              p ∈ availablePersonIds day ∧ c ∈ chore_id <$> chores data.
Proof.
  intros Hday. unfold allocate. cbv zeta.
  case_decide; [by left|]. case_decide; [by left|].
  rewrite bool_decide_true by lia.
  rewrite phase1_passWith.
  set (p1 := passWith _ (chores data) ∅ ∅ rng).
  assert (∀ cands : gset string → Chore → list string,
            (∀ a chore p, p ∈ cands a chore → p ∈ availablePersonIds day ∧ p ∉ a) →
            ∀ r, completed (passWith cands (chores data) ∅ ∅ r) = true →
            onePerPerson (newAssignments (passWith cands (chores data) ∅ ∅ r)) ∧
            assignsEvery (chores data) (newAssignments (passWith cands (chores data) ∅ ∅ r)) ∧
            ∀ c p, newAssignments (passWith cands (chores data) ∅ ∅ r) !! c = Some p →
                   p ∈ availablePersonIds day ∧ c ∈ chore_id <$> chores data) as Hpass.
  { intros cands Hc r Hdone. split; [|split].
    - apply pass_onePerPerson; [|done..]. intros a chore p Hp. by apply Hc in Hp as [_ ?].
    - by apply pass_completed_assigns.
    - apply (pass_entries cands
               (λ c p, p ∈ availablePersonIds day ∧ c ∈ chore_id <$> chores data));
        [|done].
      intros a chore p Hch Hp. split; [by apply Hc in Hp as [? _]|].
      apply list_elem_of_fmap. by exists chore. }
  destruct (completed p1) eqn:Hp1.
  - right. eexists. split; [done|]. subst p1. apply Hpass; [|done].
    intros a chore p [Hp _]%elem_of_phase1Candidates.
    apply elem_of_notYetAssigned in Hp as [? Hp]. split; [done|by apply Hp].
  - rewrite phase2_passWith.
    destruct (completed (passWith _ (chores data) ∅ ∅ (random p1))) eqn:Hp2; [|by left].
    right. eexists. split; [done|]. apply Hpass; [|done].
    intros a chore p Hp. unfold phase2Candidates in Hp.
    apply elem_of_notYetAssigned in Hp as [? Hp]. split; [done|by apply Hp].
Qed.

(** What either version of [generateAssignments] leaves stored. *)
Lemma generate_stored data today rng o :
  o ∈ [Script.generateAssignments data today rng;
       Refactored.generateAssignments data today rng] →
  stored o = normalizeAvailability data today ∨
  ∃ day m, assignmentsByDate (normalizeAvailability data today) !! today = Some day ∧
           stored o = commit (normalizeAvailability data today) today m ∧
           onePerPerson m ∧ assignsEvery (chores data) m ∧
           ∀ c p, m !! c = Some p →
                  p ∈ availablePersonIds day ∧ c ∈ chore_id <$> chores data.
Proof.
  assert (∀ day shown,
            assignmentsByDate (normalizeAvailability data today) !! today = Some day →
            let o := allocate (normalizeAvailability data today) today day rng shown in
            stored o = normalizeAvailability data today ∨
            ∃ day m, assignmentsByDate (normalizeAvailability data today) !! today = Some day ∧
                     stored o = commit (normalizeAvailability data today) today m ∧
                     onePerPerson m ∧ assignsEvery (chores data) m ∧
                     ∀ c p, m !! c = Some p →
                            p ∈ availablePersonIds day ∧ c ∈ chore_id <$> chores data)
    as Halloc.
  { intros day shown Hday. cbv zeta.
    destruct (allocate_stored _ _ _ rng shown Hday) as [?|(m & ? & ? & Hall & ?)]; [by left|].
    right. exists day, m. by rewrite normalize_chores in *. }
  intros Ho.
  apply elem_of_cons in Ho as [->|Ho]; [|apply list_elem_of_singleton in Ho as ->].
  - unfold Script.generateAssignments.
    destruct (assignmentsByDate data !! today); [|by left].
    destruct (assignmentsByDate (normalizeAvailability data today) !! today) as [day|] eqn:Hday;
      [|by left].
    destruct (confirmed day); [by left|]. by apply Halloc.
  - unfold Refactored.generateAssignments.
    destruct (assignmentsByDate (normalizeAvailability data today) !! today) as [day|] eqn:Hday;
      [|by left].
    destruct (confirmed day); [by left|]. by apply Halloc.
Qed.

End generated.

Section crud.

Context {A : Type} (id_of : A → string) (rename : A → string → A).
Hypothesis id_of_rename : ∀ x name, id_of (rename x name) = id_of x.

(** Renaming changes no id. *)
Lemma renamedFirst_ids (items : list A) (id name : string) items' :
  renamedFirst id_of rename items id name = Some items' →
  id_of <$> items' = id_of <$> items.
Proof.
  revert items'. induction items as [|x rest IH]; intros items'; [done|]. cbn.
  case_decide; [intros [= <-]; cbn; by rewrite id_of_rename|].
  destruct (renamedFirst id_of rename rest id name) as [r|]; [|done]. cbn.
  intros [= <-]. cbn. f_equal. by apply IH.
Qed.

(** It fails exactly when no item has the id. *)
Lemma renamedFirst_None (items : list A) (id name : string) :
  renamedFirst id_of rename items id name = None ↔ id ∉ id_of <$> items.
Proof.
  induction items as [|x rest IH]; cbn; [split; [by intros _ ?%elem_of_nil|done]|].
  case_decide as Hx.
  - split; [done|]. intros []. subst id. by left.
  - rewrite fmap_None, IH, not_elem_of_cons. naive_solver.
Qed.

(** The names afterwards: the new one, or one there was before. *)
Lemma renamedFirst_elem (items : list A) (id name : string) items' y :
  renamedFirst id_of rename items id name = Some items' →
  y ∈ items' → y ∈ items ∨ ∃ x, x ∈ items ∧ id_of x = id ∧ y = rename x name.
Proof.
  revert items'. induction items as [|x rest IH]; intros items'; [done|]. cbn.
  case_decide as Hx.
  - intros [= <-] [->|Hy]%elem_of_cons.
    + right. exists x. split; [by left|done].
    + left. by right.
  - destruct (renamedFirst id_of rename rest id name) as [r|]; [|done]. cbn.
    intros [= <-] [->|Hy]%elem_of_cons; [left; by left|].
    destruct (IH r eq_refl Hy) as [?|(x' & ? & ? & ?)]; [left; by right|].
    right. exists x'. split; [by right|done].
Qed.

(** When the ids are distinct and the new name, read through [f], is the
    name of no item with another id, names that were distinct stay so. *)
Lemma renamedFirst_NoDup (f : A → string) (items : list A) (id name : string) items' :
  renamedFirst id_of rename items id name = Some items' →
  NoDup (id_of <$> items) →
  NoDup (f <$> items) →
  (∀ x y, x ∈ items → y ∈ items → id_of y ≠ id → id_of x = id →
          f y ≠ f (rename x name)) →
  NoDup (f <$> items').
Proof.
  revert items'. induction items as [|x rest IH]; intros items'; [done|]. cbn.
  rewrite !NoDup_cons. intros Hre [Hid Hids] [Hf Hfs] Hother.
  case_decide as Hx.
  - injection Hre as <-. cbn. apply NoDup_cons. split; [|done].
    intros (y & Hy & Hin)%list_elem_of_fmap.
    apply (Hother x y); [by left|by right| |done|done].
    intros Heq. apply Hid. apply list_elem_of_fmap. exists y. split; [congruence|done].
  - destruct (renamedFirst id_of rename rest id name) as [r|] eqn:Hr; [|done].
    injection Hre as <-. cbn. apply NoDup_cons. split.
    + intros (y & Hy & Hin)%list_elem_of_fmap.
      destruct (renamedFirst_elem _ _ _ _ _ Hr Hin) as [?|(x' & Hx' & Hidx & ->)].
      * apply Hf. apply list_elem_of_fmap. by exists y.
      * apply (Hother x' x); [by right|by left|done|done|done].
    + apply IH; [done|done|done|].
      intros x' y Hx' Hy. apply Hother; by right.
Qed.

End crud.

Section crud_records.

Lemma renamedChore_ids (cs : list Chore) (id name : string) cs' :
  renamedChore cs id name = Some cs' → chore_id <$> cs' = chore_id <$> cs.
Proof. by apply renamedFirst_ids. Qed.

Lemma renamedPerson_ids (ps : list Person) (id name : string) ps' :
  renamedPerson ps id name = Some ps' → person_id <$> ps' = person_id <$> ps.
Proof. by apply renamedFirst_ids. Qed.

Lemma everyDay_normalize_reseed (P : DayRecord → Prop) (data : Data) (date : string) :
  (∀ ids, ids = [] ∨ (∃ last, P last ∧ ids = availablePersonIds last) →
          P (mkDay ids ∅ false)) →
  (∀ day, P day →
     P (withAvailable day (filter (isPerson data) (availablePersonIds day)))) →
  (∀ day last, P day → P last → availablePersonIds day = [] →
     P (withAvailable day (filter (isPerson data) (availablePersonIds last)))) →
  everyDay P data → everyDay P (normalizeAvailability data date).
Proof.
  intros Hnew Hown Hseed Hall.
  assert (∀ l, getLastWorkday data date = Some l → P l) as Hlast.
  { intros l (d0 & _ & Hd0)%getLastWorkday_inv. by apply (Hall d0). }
  unfold normalizeAvailability.
  destruct (assignmentsByDate data !! date) as [day|] eqn:Hday.
  - apply everyDay_insert; [|done]. pose proof (Hall date day Hday) as HP.
    assert (reseeded (availablePersonIds day) (getLastWorkday data date)
            = availablePersonIds day
            ∨ availablePersonIds day = [] ∧
              ∃ l, getLastWorkday data date = Some l ∧
                   reseeded (availablePersonIds day) (getLastWorkday data date)
                   = availablePersonIds l) as [->|(Hempty & l & Hl & ->)].
    { unfold reseeded. destruct (availablePersonIds day) eqn:Hav; [|by left].
      destruct (getLastWorkday data date) as [l|]; [|by left].
      destruct (availablePersonIds l) eqn:Havl; [by left|].
      right. split; [done|]. exists l. by rewrite Havl. }
    + by apply Hown.
    + apply Hseed; [done|by apply Hlast|done].
  - apply everyDay_insert; [|done]. apply Hnew. unfold inheritedAvailability.
    destruct (getLastWorkday data date) as [l|] eqn:Hl; [|by left].
    destruct (availablePersonIds l) eqn:Hav; [by left|].
    right. exists l. split; [by apply Hlast|done].
Qed.

(** What a toggle of either version saves: the document as it was (no
    record for today in part_001, or the person already in the state asked
    for), or today's record with the id appended, with the id filtered out
    (script.js), or with the id filtered out together with the assignments
    that name it (part_001). *)
Lemma toggle_cases (data : Data) (today pid : string) (available : bool) data' :
  ScriptOps.toggleAvailability data today pid available = Some data'
  ∨ RefactoredOps.toggleAvailability data today pid available = data' →
  data' = data ∨
  ∃ day, assignmentsByDate data !! today = Some day ∧
    ((available = true ∧ (pid ∉ availablePersonIds day) ∧
      data' = withDays data
                (<[today := withAvailable day (availablePersonIds day ++ [pid])%list]>
                   (assignmentsByDate data)))
     ∨ (available = false ∧
        ScriptOps.toggleAvailability data today pid false = Some data' ∧
        data' = withDays data
                  (<[today := withAvailable day
                                (filter (λ id, id ≠ pid) (availablePersonIds day))]>
                     (assignmentsByDate data)))
     ∨ (available = false ∧
        data' = withDays data
                  (<[today := {| availablePersonIds :=
                                   filter (λ id, id ≠ pid) (availablePersonIds day);
                                 assignments :=
                                   filter (λ cp, cp.2 ≠ pid) (assignments day);
                                 confirmed := confirmed day |}]>
                     (assignmentsByDate data)))).
Proof.
  assert (∀ day, assignmentsByDate data !! today = Some day →
            withDays data (<[today := withAvailable day (availablePersonIds day)]>
                             (assignmentsByDate data)) = data) as Hsame.
  { intros day Hday.
    assert (withAvailable day (availablePersonIds day) = day) as -> by (by destruct day).
    rewrite insert_id by done. by destruct data. }
  intros [Hto|Hto].
  - pose proof Hto as Hto'. unfold ScriptOps.toggleAvailability in Hto.
    destruct (assignmentsByDate data !! today) as [day|] eqn:Hday; [|done].
    cbn in Hto. injection Hto as <-. destruct available; cbn.
    + case_bool_decide as Hin; cbn.
      * left. by apply Hsame.
      * right. exists day. split; [done|]. by left.
    + right. exists day. split; [done|]. right. left. done.
  - subst data'. unfold RefactoredOps.toggleAvailability.
    destruct (assignmentsByDate data !! today) as [day|] eqn:Hday; [|by left].
    destruct available; cbn.
    + case_bool_decide as Hin; cbn.
      * left. by apply Hsame.
      * right. exists day. split; [done|]. by left.
    + right. exists day. split; [done|]. right. right. done.
Qed.

End crud_records.

Section ops.
Context (I : list Person → list Chore → DayRecord → Prop) `{!KeptByRecordOps I}.
Implicit Types (data : Data) (d today : string).

Lemma holds_insert data d day :
  I (people data) (chores data) day → holdsEveryDay I data →
  holdsEveryDay I (withDays data (<[d := day]> (assignmentsByDate data))).
Proof. intros Hday Hall. by apply (everyDay_insert _ data). Qed.

Lemma holds_more_ids data data' :
  assignmentsByDate data' = assignmentsByDate data →
  (∀ p, p ∈ person_id <$> people data → p ∈ person_id <$> people data') →
  (∀ c, c ∈ chore_id <$> chores data → c ∈ chore_id <$> chores data') →
  holdsEveryDay I data → holdsEveryDay I data'.
Proof.
  intros Hdays Hps Hcs Hall d day. rewrite Hdays. intros Hd.
  by apply (kept_ids (people data) _ (chores data)), (Hall d day Hd).
Qed.

Lemma holds_normalize data date :
  holdsEveryDay I data → holdsEveryDay I (normalizeAvailability data date).
Proof.
  intros Hall. unfold holdsEveryDay. rewrite normalize_people, normalize_chores.
  apply everyDay_normalize_reseed; [| | |done].
  - intros ids [->|(last & Hlast & ->)]; [apply kept_new|by apply kept_inherit].
  - intros day Hday. by apply kept_refilter.
  - intros day last Hday Hlast Hempty. by apply kept_reseed.
Qed.

Lemma holds_script_renderAll data today :
  holdsEveryDay I data → holdsEveryDay I (ScriptOps.renderAll data today).
Proof.
  intros Hall. unfold ScriptOps.renderAll, ScriptOps.renderAvailability.
  apply holds_normalize. destruct (assignmentsByDate data !! today); [done|].
  apply holds_insert; [apply kept_new|done].
Qed.

Lemma holds_generate data today rng o :
  o ∈ [Script.generateAssignments data today rng;
       Refactored.generateAssignments data today rng] →
  holdsEveryDay I data → holdsEveryDay I (stored o).
Proof.
  intros Ho Hall. pose proof (holds_normalize data today Hall) as Hnorm.
  destruct (generate_stored _ _ _ _ Ho) as [->|(day & m & Hday & -> & Hone & _ & Hent)];
    [done|].
  unfold holdsEveryDay.
  change (everyDay (I (people (normalizeAvailability data today))
                      (chores (normalizeAvailability data today)))
            (commit (normalizeAvailability data today) today m)).
  apply everyDay_commit; [|done].
  intros day' Hday' Hinv. rewrite Hday in Hday'. injection Hday' as <-.
  apply kept_commit; [done|done|]. rewrite normalize_chores. apply Hent.
Qed.

Lemma holds_sweep data (parse : string → option Z) (cutoff : Z) :
  holdsEveryDay I data →
  holdsEveryDay I (withDays data (sweep parse cutoff (assignmentsByDate data)).1).
Proof. intros Hall. by apply (everyDay_sweep _ data). Qed.

Lemma holds_deleteChoreCascade data id :
  holdsEveryDay I data → holdsEveryDay I (deleteChoreCascade data id).
Proof.
  intros Hall d day'. unfold deleteChoreCascade. cbn.
  intros (day & <- & Hday)%lookup_fmap_Some. apply kept_delete_chore, (Hall d day Hday).
Qed.

Lemma holds_deletePersonCascade data id :
  holdsEveryDay I data → holdsEveryDay I (deletePersonCascade data id).
Proof.
  intros Hall d day'. unfold deletePersonCascade. cbn.
  intros (day & <- & Hday)%lookup_fmap_Some. apply kept_delete_person, (Hall d day Hday).
Qed.

Lemma holds_refactored_switch_off data today pid :
  holdsEveryDay I data →
  holdsEveryDay I (RefactoredOps.toggleAvailability data today pid false).
Proof.
  intros Hall. unfold RefactoredOps.toggleAvailability.
  destruct (assignmentsByDate data !! today) as [day|] eqn:Hday; [|done].
  cbn. apply holds_insert; [|done]. apply kept_switch_off_drop. by apply (Hall today).
Qed.

(** A toggle keeps the property unless it switches on a stranger or
    switches off, without their assignments, a person who holds a chore. *)
Lemma holds_toggle_other data today pid available data' :
  ScriptOps.toggleAvailability data today pid available = Some data'
  ∨ RefactoredOps.toggleAvailability data today pid available = data' →
  ¬ switchesOffAnAssignee data data' → ¬ switchesOnAStranger data data' →
  holdsEveryDay I data → holdsEveryDay I data'.
Proof.
  intros Hto Hoff Hon Hall.
  destruct (toggle_cases _ _ _ _ _ Hto)
    as [->|(day & Hday & [(-> & Hout & ->)|[(-> & Hscript & ->)|(-> & ->)]])]; [done|..];
    pose proof (Hall today day Hday) as Hinv; (apply holds_insert; [|done]).
  - apply kept_switch_on; [done| |done].
    destruct (decide (isPerson data pid)) as [|Hno]; [done|].
    destruct Hon. by exists today, pid, day.
  - assert (filter (λ cp : string * string, cp.2 ≠ pid) (assignments day)
            = assignments day) as Hnone.
    { apply map_filter_id. intros c p Hcp Heq. cbn in Heq. subst p.
      apply Hoff. by exists today, pid, day, c. }
    pose proof (kept_switch_off_drop _ _ day pid Hinv) as Hk.
    by rewrite Hnone in Hk.
  - by apply kept_switch_off_drop.
Qed.

(** A property that survives the bare switch-off as well is kept by a
    toggle unless it switches on a stranger. *)
Lemma holds_toggle_known `{!KeptBySwitchOff I} data today pid available data' :
  ScriptOps.toggleAvailability data today pid available = Some data'
  ∨ RefactoredOps.toggleAvailability data today pid available = data' →
  ¬ switchesOnAStranger data data' →
  holdsEveryDay I data → holdsEveryDay I data'.
Proof.
  intros Hto Hon Hall.
  destruct (toggle_cases _ _ _ _ _ Hto)
    as [->|(day & Hday & [(-> & Hout & ->)|[(-> & Hscript & ->)|(-> & ->)]])]; [done|..];
    pose proof (Hall today day Hday) as Hinv; (apply holds_insert; [|done]).
  - apply kept_switch_on; [done| |done].
    destruct (decide (isPerson data pid)) as [|Hno]; [done|].
    destruct Hon. by exists today, pid, day.
  - by apply kept_switch_off.
  - by apply kept_switch_off_drop.
Qed.

(** A property that survives the bare switch-off and the switching on of
    any id is kept by every toggle. *)
Lemma holds_toggle_any `{!KeptBySwitchOff I, !KeptBySwitchOnAny I}
    data today pid available data' :
  ScriptOps.toggleAvailability data today pid available = Some data'
  ∨ RefactoredOps.toggleAvailability data today pid available = data' →
  holdsEveryDay I data → holdsEveryDay I data'.
Proof.
  intros Hto Hall.
  destruct (toggle_cases _ _ _ _ _ Hto)
    as [->|(day & Hday & [(-> & Hout & ->)|[(-> & Hscript & ->)|(-> & ->)]])]; [done|..];
    pose proof (Hall today day Hday) as Hinv; (apply holds_insert; [|done]).
  - by apply kept_switch_on_any.
  - by apply kept_switch_off.
  - by apply kept_switch_off_drop.
Qed.

Lemma not_in_values_unique (m : gmap string string) (pid c : string) :
  ¬ 1 ≤ length (filter (λ id, id = pid) (objectValues m)) →
  ∀ c', m !! c' = Some pid → c' = c.
Proof.
  intros Hnone c' Hc'. destruct Hnone.
  assert (pid ∈ filter (λ id, id = pid) (objectValues m)) as Hin.
  { apply list_elem_of_filter. split; [done|]. apply elem_of_objectValues. by exists c'. }
  destruct (filter _ _); [by apply elem_of_nil in Hin|cbn; lia].
Qed.

Lemma no_other_entry_unique (m : gmap string string) (pid c : string) :
  ¬ 1 ≤ length (filter (λ cp : string * string, cp.2 = pid ∧ cp.1 ≠ c) (map_to_list m)) →
  ∀ c', m !! c' = Some pid → c' = c.
Proof.
  intros Hnone c' Hc'. destruct (decide (c' = c)) as [|Hne]; [done|]. destruct Hnone.
  assert ((c', pid) ∈ filter (λ cp : string * string, cp.2 = pid ∧ cp.1 ≠ c)
                        (map_to_list m)) as Hin.
  { apply list_elem_of_filter. split; [done|]. by apply elem_of_map_to_list. }
  destruct (filter _ _); [by apply elem_of_nil in Hin|cbn; lia].
Qed.

Lemma holds_script_assign data today chore pid data' shown :
  chore ∈ chores data →
  ScriptOps.assignManually data today chore pid = (Some data', shown) →
  holdsEveryDay I data → holdsEveryDay I data'.
Proof.
  intros Hch Has Hall. unfold ScriptOps.assignManually in Has.
  destruct (assignmentsByDate data !! today) as [day|] eqn:Hday; [|done].
  repeat case_decide; try done. injection Has as <- <-.
  apply holds_insert; [|done]. apply kept_assign; [by apply (Hall today)| | |].
  - apply list_elem_of_fmap. by exists chore.
  - done.
  - by apply not_in_values_unique.
Qed.

Lemma holds_refactored_assign data today chore pid data' shown :
  chore ∈ chores data →
  RefactoredOps.assignManually data today chore pid = (Some data', shown) →
  holdsEveryDay I data → holdsEveryDay I data'.
Proof.
  intros Hch Has Hall. unfold RefactoredOps.assignManually in Has.
  destruct (assignmentsByDate data !! today) as [day|] eqn:Hday; [|done].
  repeat case_decide; try done; injection Has as <- <-; (apply holds_insert; [|done]).
  - by apply kept_unassign, (Hall today).
  - apply kept_assign; [by apply (Hall today)| | |].
    + apply list_elem_of_fmap. by exists chore.
    + done.
    + by apply no_other_entry_unique.
Qed.

Lemma holds_confirm data today o :
  o ∈ [ScriptOps.confirmAssignments data today;
       RefactoredOps.confirmAssignments data today] →
  holdsEveryDay I data → holdsEveryDay I o.1.
Proof.
  intros Ho Hall.
  apply elem_of_cons in Ho as [->|Ho]; [|apply list_elem_of_singleton in Ho as ->].
  - unfold ScriptOps.confirmAssignments.
    destruct (assignmentsByDate data !! today) as [day|] eqn:Hday; [|done]. cbn.
    apply holds_insert; [|done]. by apply kept_confirm, (Hall today).
  - unfold RefactoredOps.confirmAssignments.
    destruct (assignmentsByDate data !! today) as [day|] eqn:Hday; [|done].
    destruct (confirmed day); [done|]. cbn.
    apply holds_insert; [|done]. by apply kept_confirm, (Hall today).
Qed.

Lemma holds_withChores data cs :
  (∀ c, c ∈ chore_id <$> chores data → c ∈ chore_id <$> cs) →
  holdsEveryDay I data → holdsEveryDay I (withChores data cs).
Proof. intros Hcs. by apply holds_more_ids. Qed.

Lemma holds_withPeople data ps :
  (∀ p, p ∈ person_id <$> people data → p ∈ person_id <$> ps) →
  holdsEveryDay I data → holdsEveryDay I (withPeople data ps).
Proof. intros Hps. by apply holds_more_ids. Qed.

Lemma holds_more_chores data id name :
  holdsEveryDay I data →
  holdsEveryDay I (withChores data (chores data ++ [mkChore id name])).
Proof.
  apply holds_withChores. intros c Hc. rewrite fmap_app. apply elem_of_app. by left.
Qed.

Lemma holds_more_people data id name :
  holdsEveryDay I data →
  holdsEveryDay I (withPeople data (people data ++ [mkPerson id name])).
Proof.
  apply holds_withPeople. intros p Hp. rewrite fmap_app. apply elem_of_app. by left.
Qed.

Lemma holds_script_addChore data today id trimmed :
  holdsEveryDay I data → holdsEveryDay I (ScriptOps.addChore data today id trimmed).
Proof.
  intros Hall. unfold ScriptOps.addChore. case_decide; [done|].
  by apply holds_script_renderAll, holds_more_chores.
Qed.

Lemma holds_refactored_addChore toLowerCase data id trimmed :
  holdsEveryDay I data →
  holdsEveryDay I (RefactoredOps.addChore toLowerCase data id trimmed).1.
Proof.
  intros Hall. unfold RefactoredOps.addChore. repeat case_decide; [done|done|].
  by apply holds_more_chores.
Qed.

Lemma holds_script_addPerson data today id trimmed :
  holdsEveryDay I data → holdsEveryDay I (ScriptOps.addPerson data today id trimmed).
Proof.
  intros Hall. unfold ScriptOps.addPerson. case_decide; [done|].
  by apply holds_script_renderAll, holds_more_people.
Qed.

Lemma holds_refactored_addPerson toLowerCase data today id trimmed :
  holdsEveryDay I data →
  holdsEveryDay I (RefactoredOps.addPerson toLowerCase data today id trimmed).1.
Proof.
  intros Hall. unfold RefactoredOps.addPerson. repeat case_decide; [done|done|].
  by apply holds_normalize, holds_more_people.
Qed.

Lemma holds_script_renameChore data id name data' :
  ScriptOps.renameChore data id name = Some data' →
  holdsEveryDay I data → holdsEveryDay I data'.
Proof.
  unfold ScriptOps.renameChore. intros Hre Hall.
  destruct (renamedChore (chores data) id name) as [cs|] eqn:Hcs; [|done].
  injection Hre as <-. apply holds_withChores; [|done].
  by rewrite (renamedChore_ids _ _ _ _ Hcs).
Qed.

Lemma holds_script_renamePerson data id name data' :
  ScriptOps.renamePerson data id name = Some data' →
  holdsEveryDay I data → holdsEveryDay I data'.
Proof.
  unfold ScriptOps.renamePerson. intros Hre Hall.
  destruct (renamedPerson (people data) id name) as [ps|] eqn:Hps; [|done].
  injection Hre as <-. apply holds_withPeople; [|done].
  by rewrite (renamedPerson_ids _ _ _ _ Hps).
Qed.

Lemma holds_refactored_renameChore toLowerCase data today id trimmed :
  holdsEveryDay I data →
  holdsEveryDay I (RefactoredOps.renameChore toLowerCase data today id trimmed).1.
Proof.
  intros Hall. unfold RefactoredOps.renameChore.
  destruct (renamedChore (chores data) id trimmed) as [cs|] eqn:Hcs; [|done].
  repeat case_decide; cbn [fst]; [by apply holds_normalize..|].
  apply holds_withChores; [|done]. by rewrite (renamedChore_ids _ _ _ _ Hcs).
Qed.

Lemma holds_refactored_renamePerson toLowerCase data today id trimmed :
  holdsEveryDay I data →
  holdsEveryDay I (RefactoredOps.renamePerson toLowerCase data today id trimmed).1.
Proof.
  intros Hall. unfold RefactoredOps.renamePerson.
  destruct (renamedPerson (people data) id trimmed) as [ps|] eqn:Hps; [|done].
  repeat case_decide; cbn [fst]; [by apply holds_normalize..|].
  apply holds_normalize, holds_withPeople; [|done].
  by rewrite (renamedPerson_ids _ _ _ _ Hps).
Qed.

(** Every handler but the toggles keeps the property. *)
Lemma holds_step_or_toggle data data' :
  handlerStep data data' → holdsEveryDay I data →
  holdsEveryDay I data'
  ∨ ∃ today pid available,
      ScriptOps.toggleAvailability data today pid available = Some data'
      ∨ RefactoredOps.toggleAvailability data today pid available = data'.
Proof.
  destruct 1; intros Hall.
  - left. by apply holds_script_renderAll.
  - left. by apply holds_normalize.
  - left. apply (holds_generate data today rng); [set_solver|done].
  - left. apply (holds_generate data today rng); [set_solver|done].
  - right. exists today, personId, available. by left.
  - right. exists today, personId, available. by right.
  - left. by eapply holds_script_assign.
  - left. by eapply holds_refactored_assign.
  - left. apply (holds_confirm data today); [set_solver|done].
  - left. apply (holds_confirm data today); [set_solver|done].
  - left. by apply holds_script_renderAll, holds_deleteChoreCascade.
  - left. by apply holds_normalize, holds_deleteChoreCascade.
  - left. by apply holds_script_renderAll, holds_deletePersonCascade.
  - left. by apply holds_normalize, holds_deletePersonCascade.
  - left. by apply holds_sweep.
  - left. by apply holds_sweep.
  - left. by apply holds_script_addChore.
  - left. by apply holds_refactored_addChore.
  - left. by apply holds_script_addPerson.
  - left. by apply holds_refactored_addPerson.
  - left. by eapply holds_script_renameChore.
  - left. by apply holds_refactored_renameChore.
  - left. by eapply holds_script_renamePerson.
  - left. by apply holds_refactored_renamePerson.
Qed.

(** Nor does a toggle break it, unless it switches on a stranger or
    switches off, without their assignments, a person who holds a chore
    today. *)
Lemma holds_other_step data data' :
  otherStep data data' → holdsEveryDay I data → holdsEveryDay I data'.
Proof.
  intros (Hstep & Hoff & Hon) Hall.
  destruct (holds_step_or_toggle _ _ Hstep Hall)
    as [?|(today & pid & available & Hto)]; [done|].
  by eapply holds_toggle_other.
Qed.

Lemma holds_other_steps data data' :
  rtc otherStep data data' → holdsEveryDay I data → holdsEveryDay I data'.
Proof. induction 1; eauto using holds_other_step. Qed.

Lemma holds_known_step `{!KeptBySwitchOff I} data data' :
  knownStep data data' → holdsEveryDay I data → holdsEveryDay I data'.
Proof.
  intros (Hstep & Hon) Hall.
  destruct (holds_step_or_toggle _ _ Hstep Hall)
    as [?|(today & pid & available & Hto)]; [done|].
  by eapply holds_toggle_known.
Qed.

Lemma holds_known_steps `{!KeptBySwitchOff I} data data' :
  rtc knownStep data data' → holdsEveryDay I data → holdsEveryDay I data'.
Proof. induction 1; eauto using holds_known_step. Qed.

End ops.

Section kept.
Context (I : list Person → list Chore → DayRecord → Prop) `{!KeptByHandlers I}.
Implicit Types (data : Data) (d today : string).

(** A property that survives the record operations, the bare switch-off
    and the switching on of any id survives every handler, and so every
    sequence of handler calls. *)
Lemma holds_step data data' :
  handlerStep data data' → holdsEveryDay I data → holdsEveryDay I data'.
Proof.
  intros Hstep Hall.
  destruct (holds_step_or_toggle I _ _ Hstep Hall)
    as [?|(today & pid & available & Hto)]; [done|].
  by eapply (holds_toggle_any I).
Qed.

Lemma holds_steps data data' :
  rtc handlerStep data data' → holdsEveryDay I data → holdsEveryDay I data'.
Proof. induction 1; eauto using holds_step. Qed.

End kept.

Global Instance availabilityHasNoRepeats_ops : KeptByRecordOps availabilityHasNoRepeats.
Proof.
  split; unfold availabilityHasNoRepeats; cbn; intros; try done;
    try (by apply NoDup_filter); try (by apply NoDup_nil_2).
  apply NoDup_app. split; [done|]. split; [|apply NoDup_singleton].
  intros x Hx Hx'. apply list_elem_of_singleton in Hx' as ->. done.
Qed.

Global Instance availabilityHasNoRepeats_kept : KeptByHandlers availabilityHasNoRepeats.
Proof.
  split; [apply _|split..]; unfold availabilityHasNoRepeats; cbn; intros.
  - by apply NoDup_filter.
  - apply NoDup_app. split; [done|]. split; [|apply NoDup_singleton].
    intros x Hx Hx'. apply list_elem_of_singleton in Hx' as ->. done.
Qed.

Lemma elem_of_ids_filter_persons (ps : list Person) (id p : string) :
  p ∈ person_id <$> ps → p ≠ id →
  p ∈ person_id <$> filter (λ q, person_id q ≠ id) ps.
Proof.
  intros (q & -> & Hq)%list_elem_of_fmap Hne. apply list_elem_of_fmap.
  exists q. split; [done|]. by apply list_elem_of_filter.
Qed.

Lemma elem_of_ids_filter_chores (cs : list Chore) (id c : string) :
  c ∈ chore_id <$> cs → c ≠ id →
  c ∈ chore_id <$> filter (λ ch, chore_id ch ≠ id) cs.
Proof.
  intros (ch & -> & Hch)%list_elem_of_fmap Hne. apply list_elem_of_fmap.
  exists ch. split; [done|]. by apply list_elem_of_filter.
Qed.

Global Instance refersToCurrentIds_ops : KeptByRecordOps refersToCurrentIds.
Proof.
  split; unfold refersToCurrentIds; cbn.
  - intros ps ps' cs cs' day Hps Hcs [Hav Has]. split; [intros p Hp; by apply Hps, Hav|].
    intros c p Hcp. apply Has in Hcp as [? ?]. split; [by apply Hcs|by apply Hps].
  - intros ps cs. split; [by intros p ?%elem_of_nil|]. intros c p. by rewrite lookup_empty.
  - intros ps cs last [Hav _]. split; [done|]. intros c p. by rewrite lookup_empty.
  - intros ps cs day Q ? HQ [_ Has]. split; [|done].
    intros p [Hp _]%list_elem_of_filter. by apply HQ.
  - intros ps cs day last Q ? HQ [_ Has] _ _. split; [|done].
    intros p [Hp _]%list_elem_of_filter. by apply HQ.
  - intros ps cs day m [Hav _] _ Hent. split; [done|].
    intros c p [Hp Hc]%Hent. split; [done|]. by apply Hav.
  - done.
  - intros ps cs day pid [Hav Has] Hp _. split; [|done].
    intros p [?|Hp']%elem_of_app; [by apply Hav|].
    by apply list_elem_of_singleton in Hp' as ->.
  - intros ps cs day pid [Hav Has]. split.
    + intros p [_ Hp]%list_elem_of_filter. by apply Hav.
    + intros c p [Hcp _]%map_lookup_filter_Some. by apply Has in Hcp.
  - intros ps cs day c pid [Hav Has] Hc Hp _. split; [done|]. intros c' p.
    destruct (decide (c = c')) as [<-|Hne].
    + rewrite lookup_insert_eq. intros [= <-]. split; [done|]. by apply Hav.
    + rewrite lookup_insert_ne by done. apply Has.
  - intros ps cs day c [Hav Has]. split; [done|].
    intros c' p [_ Hcp]%lookup_delete_Some. by apply Has in Hcp.
  - intros ps cs day id [Hav Has]. split; [done|].
    intros c p [Hne Hcp]%lookup_delete_Some. apply Has in Hcp as [Hc Hp]. split; [|done].
    by apply elem_of_ids_filter_chores.
  - intros ps cs day id [Hav Has]. split.
    + intros p [Hne Hp]%list_elem_of_filter.
      apply elem_of_ids_filter_persons; [by apply Hav|done].
    + intros c p [Hcp Hne]%map_lookup_filter_Some. cbn in Hne.
      apply Has in Hcp as [Hc Hp]. split; [done|]. by apply elem_of_ids_filter_persons.
Qed.

Global Instance refersToCurrentIds_off : KeptBySwitchOff refersToCurrentIds.
Proof.
  split. unfold refersToCurrentIds; cbn.
  intros ps cs day pid [Hav Has]. split; [|done].
  intros p [_ Hp]%list_elem_of_filter. by apply Hav.
Qed.

Lemma onePerPerson_filter (m : gmap string string) (P : string * string → Prop)
    `{∀ x, Decision (P x)} :
  onePerPerson m → onePerPerson (filter P m).
Proof.
  intros Hm c1 c2 p [H1 _]%map_lookup_filter_Some [H2 _]%map_lookup_filter_Some.
  by apply (Hm c1 c2 p).
Qed.

Lemma onePerPerson_delete (m : gmap string string) (c : string) :
  onePerPerson m → onePerPerson (delete c m).
Proof.
  intros Hm c1 c2 p [_ H1]%lookup_delete_Some [_ H2]%lookup_delete_Some.
  by apply (Hm c1 c2 p).
Qed.

Global Instance nobodyHasTwoChores_ops : KeptByRecordOps nobodyHasTwoChores.
Proof.
  split; unfold nobodyHasTwoChores; cbn; intros; try done;
    try (by apply onePerPerson_filter); try (by apply onePerPerson_delete).
  intros c1 c2 p.
  destruct (decide (c = c1)) as [<-|Hne1]; destruct (decide (c = c2)) as [<-|Hne2];
    rewrite ?lookup_insert_eq, ?lookup_insert_ne by done; try done.
  - intros [= <-] Hc2. symmetry. eauto.
  - intros Hc1 [= <-]. eauto.
  - eauto.
Qed.

Global Instance nobodyHasTwoChores_kept : KeptByHandlers nobodyHasTwoChores.
Proof. split; [apply _|split..]; unfold nobodyHasTwoChores; cbn; by intros. Qed.

Global Instance assigneesAreAvailable_ops : KeptByRecordOps assigneesAreAvailable.
Proof.
  split; unfold assigneesAreAvailable.
  - intros ps ps' cs cs' day Hps Hcs [Hr Ha].
    split; [by apply (kept_ids ps ps' cs cs')|done].
  - intros ps cs. split; [apply kept_new|]. intros c p. cbn. by rewrite lookup_empty.
  - intros ps cs last [Hr _]. split; [by apply kept_inherit|].
    intros c p. cbn. by rewrite lookup_empty.
  - intros ps cs day Q ? HQ [Hr Ha]. split; [by apply kept_refilter|]. cbn.
    intros c p Hcp. apply list_elem_of_filter. split; [|by apply (Ha c)].
    apply HQ. destruct Hr as [_ Has]. by apply Has in Hcp as [_ ?].
  - intros ps cs day last Q ? HQ [Hr Ha] [Hl _] Hempty. split; [by apply kept_reseed|]. cbn.
    intros c p Hcp. apply Ha in Hcp. rewrite Hempty in Hcp. by apply elem_of_nil in Hcp.
  - intros ps cs day m [Hr Ha] Hone Hent. split; [by apply kept_commit|]. cbn.
    intros c p Hcp. by apply Hent in Hcp as [? _].
  - intros ps cs day [Hr Ha]. split; [by apply kept_confirm|done].
  - intros ps cs day pid [Hr Ha] Hp Hn. split; [by apply kept_switch_on|]. cbn.
    intros c p Hcp. apply elem_of_app. left. by apply (Ha c).
  - intros ps cs day pid [Hr Ha]. split; [by apply kept_switch_off_drop|]. cbn.
    intros c p [Hcp Hne]%map_lookup_filter_Some. apply list_elem_of_filter.
    split; [done|by apply (Ha c)].
  - intros ps cs day c pid [Hr Ha] Hc Hp Hu. split; [by apply kept_assign|]. cbn.
    intros c' p. destruct (decide (c = c')) as [<-|Hne].
    + rewrite lookup_insert_eq. by intros [= <-].
    + rewrite lookup_insert_ne by done. apply Ha.
  - intros ps cs day c [Hr Ha]. split; [by apply kept_unassign|]. cbn.
    intros c' p [_ Hcp]%lookup_delete_Some. by apply (Ha c').
  - intros ps cs day id [Hr Ha]. split; [by apply kept_delete_chore|]. cbn.
    intros c p [_ Hcp]%lookup_delete_Some. by apply (Ha c).
  - intros ps cs day id [Hr Ha]. split; [by apply kept_delete_person|]. cbn.
    intros c p [Hcp Hne]%map_lookup_filter_Some. apply list_elem_of_filter.
    split; [done|by apply (Ha c)].
Qed.

(** X5. No sequence of handler calls (rendering, generation, availability
    toggles, manual assignment, confirmation, adding, renaming and deleting
    chores and people, the sweep; either version) puts an id twice into an
    availability array that held none twice before. *)
Theorem handlers_keep_availability_duplicate_free data data' :
  rtc handlerStep data data' →
  availabilityDuplicateFree data → availabilityDuplicateFree data'.
Proof. apply (holds_steps availabilityHasNoRepeats). Qed.

Lemma tidyHistory_two_steps :
  rtc handlerStep tidyHistory
    (stored (Script.generateAssignments
               (RefactoredOps.toggleAvailability tidyHistory "2024-03-10" "C" false)
               "2024-03-10" (λ _, 0))).
Proof.
  eapply rtc_l; [|apply rtc_once, step_script_generate].
  apply step_refactored_toggle.
Qed.

Lemma handlers_keep_duplicate_free_witness :
  availabilityDuplicateFree tidyHistory ∧
  availabilityDuplicateFree
    (stored (Script.generateAssignments
               (RefactoredOps.toggleAvailability tidyHistory "2024-03-10" "C" false)
               "2024-03-10" (λ _, 0))).
Proof.
  assert (availabilityDuplicateFree tidyHistory) as Hinv
    by (unfold availabilityDuplicateFree; apply (bool_decide_unpack _); vm_compute; exact I).
  split; [exact Hinv|].
  exact (handlers_keep_availability_duplicate_free _ _ tidyHistory_two_steps Hinv).
Defined.

Section strangers.
Implicit Types (data : Data) (today pid : string).

(** The toggles that are left out are handler calls. *)
Lemma switchesOnAStranger_step data data' :
  switchesOnAStranger data data' → handlerStep data data'.
Proof.
  intros (today & pid & day & _ & _ & _ & [Hto|<-]).
  - by eapply step_script_toggle.
  - apply step_refactored_toggle.
Qed.

(** What they save names somebody who is not a person of the document. *)
Lemma switchesOnAStranger_breaks data data' :
  switchesOnAStranger data data' → ¬ referentialIntegrity data'.
Proof.
  intros (today & pid & day & Hday & Hno & Hout & Hto) Hall.
  assert (data' = withDays data
                    (<[today := withAvailable day (availablePersonIds day ++ [pid])%list]>
                       (assignmentsByDate data))) as ->.
  { destruct Hto as [Hto|<-].
    - unfold ScriptOps.toggleAvailability in Hto. rewrite Hday in Hto. cbn in Hto.
      rewrite bool_decide_eq_false_2 in Hto by done. cbn in Hto. by injection Hto as <-.
    - unfold RefactoredOps.toggleAvailability. rewrite Hday. cbn.
      by rewrite bool_decide_eq_false_2 by done. }
  destruct (Hall today (withAvailable day (availablePersonIds day ++ [pid])%list))
    as [Hav _]; [cbn; apply lookup_insert_eq|].
  apply Hno. apply (Hav pid). cbn. apply elem_of_app. right. by apply list_elem_of_singleton.
Qed.

Lemma handlerStep_known data data' :
  handlerStep data data' → referentialIntegrity data' → knownStep data data'.
Proof.
  intros Hstep Hall. split; [done|]. intros Hsw.
  by apply switchesOnAStranger_breaks in Hsw.
Qed.

(** A manual selection leaves the people and the availability arrays as
    they are. *)
Lemma refactored_assign_same_people data today chore pid after shown :
  RefactoredOps.assignManually data today chore pid = (Some after, shown) →
  people after = people data ∧
  ∃ day day', assignmentsByDate data !! today = Some day ∧
              assignmentsByDate after !! today = Some day' ∧
              availablePersonIds day' = availablePersonIds day.
Proof.
  unfold RefactoredOps.assignManually.
  destruct (assignmentsByDate data !! today) as [day|] eqn:Hday; [|done].
  repeat case_decide; intros [= <- <-]; (split; [done|]);
    eexists day, _; (split; [done|]); cbn; rewrite lookup_insert_eq; done.
Qed.

(** part_001 gets to such a toggle through its own page.  [addPerson]
    builds the list and the checkboxes again but not the selectors, so a
    selection made afterwards saves the document the selectors hold, the
    new person missing from it; the checkbox of the new person is on the
    page, and ticking it stores the id of nobody. *)
Lemma stale_selection_then_new_checkbox (toLowerCase : string → string)
    (page : Page) held today id name chore pid after shown :
  selectors page = Some held → referentialIntegrity held → ¬ isPerson held id →
  RefactoredOps.assignManually held today chore pid = (Some after, shown) →
  let added :=
    withoutRendering (λ d, (RefactoredOps.addPerson toLowerCase d today id name).1) page in
  let selected :=
    (select (λ d, RefactoredOps.assignManually d today chore pid) today added).1 in
  saved selected = after ∧
  switchesOnAStranger after (RefactoredOps.toggleAvailability after today id true).
Proof.
  intros Hheld Hall Hno Hassign. cbv zeta.
  split; [unfold select, withoutRendering; cbn; by rewrite Hheld, Hassign|].
  destruct (refactored_assign_same_people _ _ _ _ _ _ Hassign)
    as (Hpeople & day & day' & Hday & Hday' & Hsame).
  exists today, id, day'. split; [done|]. split; [|split; [|by right]].
  - unfold isPerson. by rewrite Hpeople.
  - rewrite Hsame. intros Hin. apply Hno. by apply (Hall today day Hday).
Qed.

End strangers.

(** X6. Referential integrity: every id in every availability array and
    every assignment names a current person, and every assignment key a
    current chore.  Every sequence of handler calls on the stored document
    keeps it, as long as no toggle switches on an id that is not the id of a
    person of that document.  Such a toggle is a handler call too, and what
    it saves has lost the property.  The page of part_001 gets there: its
    [addPerson] does not build the selectors again, so a selection through
    selectors that hold the document [data'] saves [data'] with the
    selection made, without the person just added, and the checkbox of that
    person then switches on a stranger. *)
Theorem handlers_keep_referential_integrity data data' :
  rtc knownStep data data' →
  referentialIntegrity data →
  referentialIntegrity data' ∧
  (∀ data'', switchesOnAStranger data' data'' →
     handlerStep data' data'' ∧ ¬ referentialIntegrity data'') ∧
  ∀ toLowerCase page today id name chore pid after shown,
    selectors page = Some data' → ¬ isPerson data' id →
    RefactoredOps.assignManually data' today chore pid = (Some after, shown) →
    let added :=
      withoutRendering (λ d, (RefactoredOps.addPerson toLowerCase d today id name).1)
        page in
    let selected :=
      (select (λ d, RefactoredOps.assignManually d today chore pid) today added).1 in
    saved selected = after ∧
    handlerStep after (RefactoredOps.toggleAvailability after today id true) ∧
    ¬ referentialIntegrity (RefactoredOps.toggleAvailability after today id true).
Proof.
  intros Hsteps Hall.
  assert (referentialIntegrity data') as Hall'
    by by apply (holds_known_steps refersToCurrentIds data).
  split; [done|]. split.
  - intros data'' Hsw. split.
    + by apply switchesOnAStranger_step.
    + by apply (switchesOnAStranger_breaks data').
  - intros toLowerCase page today id name chore pid after shown Hheld Hno Hassign.
    destruct (stale_selection_then_new_checkbox toLowerCase page data' today id name
                chore pid after shown Hheld Hall' Hno Hassign) as [Hsaved Hsw].
    split; [done|]. split; [apply step_refactored_toggle|].
    by apply (switchesOnAStranger_breaks after).
Qed.

Lemma tidyHistory_referentialIntegrity : referentialIntegrity tidyHistory.
Proof.
  intros d day Hd. unfold tidyHistory in Hd. cbn [assignmentsByDate] in Hd.
  apply lookup_insert_Some in Hd as [[_ <-]|[_ Hd]];
    [|apply lookup_singleton_Some in Hd as [_ <-]].
  - split; cbn.
    + intros p Hp. repeat (apply elem_of_cons in Hp as [->|Hp]; [compute_done|]).
      by apply elem_of_nil in Hp.
    + intros c p Hcp. apply lookup_insert_Some in Hcp as [[<- <-]|[_ Hcp]]; [compute_done|].
      apply lookup_singleton_Some in Hcp as [<- <-]. compute_done.
  - split; cbn.
    + intros p Hp. repeat (apply elem_of_cons in Hp as [->|Hp]; [compute_done|]).
      by apply elem_of_nil in Hp.
    + intros c p. by rewrite lookup_empty.
Qed.

Lemma tidyHistory_known_steps :
  rtc knownStep tidyHistory
    (stored (Script.generateAssignments
               (RefactoredOps.toggleAvailability tidyHistory "2024-03-10" "C" false)
               "2024-03-10" (λ _, 0))).
Proof.
  pose proof (holds_refactored_switch_off refersToCurrentIds tidyHistory "2024-03-10" "C"
                tidyHistory_referentialIntegrity) as H1.
  eapply rtc_l; [|apply rtc_once].
  - apply handlerStep_known; [apply step_refactored_toggle|done].
  - apply handlerStep_known; [apply step_script_generate|].
    apply (holds_generate refersToCurrentIds
             (RefactoredOps.toggleAvailability tidyHistory "2024-03-10" "C" false)
             "2024-03-10" (λ _, 0)); [set_solver|done].
Qed.

Lemma handlers_keep_referential_integrity_witness :
  let after :=
    stored (Script.generateAssignments
              (RefactoredOps.toggleAvailability tidyHistory "2024-03-10" "C" false)
              "2024-03-10" (λ _, 0)) in
  referentialIntegrity tidyHistory ∧
  referentialIntegrity after ∧
  (∀ data'', switchesOnAStranger after data'' →
     handlerStep after data'' ∧ ¬ referentialIntegrity data'') ∧
  ∀ toLowerCase page today id name chore pid after' shown,
    selectors page = Some after → ¬ isPerson after id →
    RefactoredOps.assignManually after today chore pid = (Some after', shown) →
    let added :=
      withoutRendering (λ d, (RefactoredOps.addPerson toLowerCase d today id name).1)
        page in
    let selected :=
      (select (λ d, RefactoredOps.assignManually d today chore pid) today added).1 in
    saved selected = after' ∧
    handlerStep after' (RefactoredOps.toggleAvailability after' today id true) ∧
    ¬ referentialIntegrity (RefactoredOps.toggleAvailability after' today id true).
Proof.
  split; [exact tidyHistory_referentialIntegrity|].
  exact (handlers_keep_referential_integrity _ _ tidyHistory_known_steps
           tidyHistory_referentialIntegrity).
Defined.

(** X7. No sequence of handler calls gives a person two chores on one day:
    if no recorded day had a person with two chores, none has afterwards. *)
Theorem handlers_keep_one_chore_per_person data data' :
  rtc handlerStep data data' →
  onePerPersonEveryDay data → onePerPersonEveryDay data'.
Proof. apply (holds_steps nobodyHasTwoChores). Qed.

Lemma tidyHistory_onePerPerson : onePerPersonEveryDay tidyHistory.
Proof.
  intros d day Hd. unfold tidyHistory in Hd. cbn [assignmentsByDate] in Hd.
  apply lookup_insert_Some in Hd as [[_ <-]|[_ Hd]];
    [|apply lookup_singleton_Some in Hd as [_ <-]]; intros c1 c2 p; cbn.
  - intros H1 H2.
    apply lookup_insert_Some in H1 as [[<- <-]|[_ H1]];
      [|apply lookup_singleton_Some in H1 as [<- <-]];
      (apply lookup_insert_Some in H2 as [[<- ?]|[_ H2]];
        [|apply lookup_singleton_Some in H2 as [<- ?]]); done.
  - by rewrite lookup_empty.
Qed.

Lemma handlers_keep_one_chore_witness :
  onePerPersonEveryDay tidyHistory ∧
  onePerPersonEveryDay
    (stored (Script.generateAssignments
               (RefactoredOps.toggleAvailability tidyHistory "2024-03-10" "C" false)
               "2024-03-10" (λ _, 0))).
Proof.
  split; [exact tidyHistory_onePerPerson|].
  exact (handlers_keep_one_chore_per_person _ _ tidyHistory_two_steps
           tidyHistory_onePerPerson).
Defined.

(** ** Further properties: the engine *)

Section engine_more.
Implicit Types (data : Data) (today : string) (rng : Rng).

Lemma relaxedPass_completes_without_repeats data today rng :
  NoDup (availableOn data today) →
  length (chores data) ≤ length (availableOn data today) →
  completed (relaxedPass data today rng) = true.
Proof.
  intros Hnd Hlen. unfold relaxedPass, enforcesSingleChore.
  rewrite bool_decide_true by done. apply phase2_completes.
  rewrite difference_empty_L, size_list_to_set by done. done.
Qed.

Lemma allocate_never_impossible data today day rng shown :
  assignmentsByDate data !! today = Some day →
  NoDup (availablePersonIds day) →
  msgImpossible ∉ shownWarnings shown →
  msgImpossible ∉ shownWarnings (ui (allocate data today day rng shown)).
Proof.
  intros Hday Hnd Hshown. rewrite (allocate_unfold _ _ _ _ _ Hday).
  assert (∀ msg, msg ≠ msgImpossible → msg ≠ "" →
            msgImpossible ∉ shownWarnings (shown ++ [WarningText msg])) as Hmsg.
  { intros msg Hne Hne'. unfold shownWarnings. rewrite omap_app. cbn.
    rewrite decide_False by done. intros [?|Hin]%elem_of_app; [done|].
    by apply list_elem_of_singleton in Hin. }
  case_decide; [by apply Hmsg|]. case_decide; [by apply Hmsg|].
  destruct (completed (strictPass data today rng)); [done|].
  assert (completed (relaxedPass data today rng) = true) as ->; [|by apply Hmsg].
  rewrite (availableOn_lookup _ _ _ Hday) in *.
  apply relaxedPass_completes_without_repeats;
    rewrite (availableOn_lookup _ _ _ Hday); [done|lia].
Qed.

(** The first [n] raw draws of a source are gone after [n] picks. *)
Lemma pass_draws (cands : gset string → Chore → list string) chores newA assigned rng :
  completed (passWith cands chores newA assigned rng) = true →
  ∀ k, random (passWith cands chores newA assigned rng) k = rng (length chores + k).
Proof.
  revert newA assigned rng. induction chores as [|chore rest IH]; intros ??? Hdone k; [done|].
  cbn [passWith] in *. destruct (cands assigned chore) as [|c0 cs]; [done|].
  unfold pickOne in *. cbn [uniform] in *. rewrite IH by done. cbn [length].
  f_equal; lia.
Qed.

Lemma assignedOnEveryRecentDay_false data dates pid :
  assignedOnEveryRecentDay data dates pid = false →
  ∃ d, d ∈ take 2 dates ∧ ¬ assignedOn data d pid.
Proof.
  unfold assignedOnEveryRecentDay, CONSECUTIVE_ASSIGNMENT_LIMIT.
  induction (take 2 dates) as [|d ds IH]; [done|]. cbn [forallb].
  intros [Hd|Hds]%andb_false_iff.
  - exists d. split; [by left|]. apply bool_decide_eq_false in Hd.
    by rewrite <- assignedOn_values.
  - destruct (IH Hds) as (d' & Hin & Hnot). exists d'. split; [by right|done].
Qed.

Lemma hadChoreRecently_false data dates chore pid :
  hadChoreRecently data dates chore pid = false →
  ∀ d, d ∈ take 5 dates → assignmentsOn data d !! chore_id chore ≠ Some pid.
Proof.
  unfold hadChoreRecently, SAME_CHORE_COOLDOWN_DAYS. intros Hnone d Hd Heq.
  assert (existsb (λ d, bool_decide (assignmentsOn data d !! chore_id chore = Some pid))
                  (take 5 dates) = true) as Hsome; [|congruence].
  apply existsb_exists. exists d. split; [by apply list_elem_of_In|].
  by apply bool_decide_eq_true.
Qed.

Lemma strictPass_respects_history data today rng c p :
  newAssignments (strictPass data today rng) !! c = Some p →
  respectsHistory data today c p.
Proof.
  unfold strictPass. rewrite phase1_passWith.
  apply (pass_entries _ (respectsHistory data today)); [|done].
  intros a chore q _ (_ & Hcons & Hcool)%elem_of_phase1Candidates. split.
  - by apply hadChoreRecently_false.
  - by apply assignedOnEveryRecentDay_false.
Qed.

End engine_more.

Section generate_more.
Implicit Types (data : Data) (today : string) (rng : Rng) (o : Outcome).

(** The three ways a call of [generateAssignments] can go. *)
Lemma generate_cases data today rng o :
  o ∈ [Script.generateAssignments data today rng;
       Refactored.generateAssignments data today rng] →
  (assignmentsByDate data !! today = None ∧
   o = mkOutcome (normalizeAvailability data today) rng [])
  ∨ (∃ day ev, assignmentsByDate (normalizeAvailability data today) !! today = Some day ∧
       confirmed day = true ∧ ev ∈ [Alert msgConfirmed; WarningText msgConfirmed] ∧
       o = mkOutcome (normalizeAvailability data today) rng [ev])
  ∨ (∃ day, assignmentsByDate (normalizeAvailability data today) !! today = Some day ∧
       confirmed day = false ∧
       o = allocate (normalizeAvailability data today) today day rng [WarningText ""]).
Proof.
  intros Ho.
  assert (recorded (normalizeAvailability data today) today) as [day Hday]
    by (apply normalize_recorded; by left).
  apply elem_of_cons in Ho as [->|Ho]; [|apply list_elem_of_singleton in Ho as ->].
  - unfold Script.generateAssignments. rewrite Hday.
    destruct (assignmentsByDate data !! today); [|by left]. right.
    destruct (confirmed day) eqn:Hc; [left|right; by exists day].
    exists day, (Alert msgConfirmed).
    split; [done|]. split; [done|]. split; [set_solver|done].
  - unfold Refactored.generateAssignments. rewrite Hday. right.
    destruct (confirmed day) eqn:Hc; [left|right; by exists day].
    exists day, (WarningText msgConfirmed).
    split; [done|]. split; [done|]. split; [set_solver|done].
Qed.

Lemma respectsHistory_normalize data today c p :
  respectsHistory (normalizeAvailability data today) today c p →
  respectsHistory data today c p.
Proof.
  unfold respectsHistory. rewrite priorDates_normalize.
  assert (∀ n d, d ∈ take n (priorDates data today) → d ≠ today) as Hne.
  { intros n d Hd ->. apply priorDates_take_most_recent in Hd as (_ & Hlt & _).
    by apply dateBefore_irrefl in Hlt. }
  intros [Hcool (d & Hd & Hfree)]. split.
  - intros d' Hd'. specialize (Hcool d' Hd'). unfold assignmentsOn in *.
    by rewrite normalize_other in Hcool by eauto.
  - exists d. split; [done|]. intros (day & c' & Hday & Hc'). apply Hfree.
    exists day, c'. by rewrite normalize_other by eauto.
Qed.

End generate_more.

(** X8. On a document whose availability arrays hold no id twice, neither
    version of [generateAssignments] ever shows "Assignment impossible
    without violating daily limits": once the checks are passed the relaxed
    pass always finds a candidate. *)
Theorem no_impossible_message_without_repeated_ids data today rng :
  availabilityDuplicateFree data →
  Forall (λ o, msgImpossible ∉ shownWarnings (ui o))
    [Script.generateAssignments data today rng;
     Refactored.generateAssignments data today rng].
Proof.
  intros Hdf. apply Forall_forall. intros o Ho.
  pose proof (holds_normalize availabilityHasNoRepeats data today Hdf) as Hnorm.
  destruct (generate_cases _ _ _ _ Ho)
    as [[_ ->]|[(day & ev & _ & _ & Hev & ->)|(day & Hday & _ & ->)]].
  - cbn. set_solver.
  - cbn [ui].
    apply elem_of_cons in Hev as [->|Hev]; [|apply list_elem_of_singleton in Hev as ->];
      compute_done.
  - apply allocate_never_impossible; [done| |compute_done].
    apply (Hnorm today day Hday).
Qed.

Lemma no_impossible_message_witness :
  availabilityDuplicateFree tidyHistory ∧
  Forall (λ o, msgImpossible ∉ shownWarnings (ui o))
    [Script.generateAssignments tidyHistory "2024-03-10" (λ _, 0);
     Refactored.generateAssignments tidyHistory "2024-03-10" (λ _, 0)].
Proof.
  assert (availabilityDuplicateFree tidyHistory) as Hinv
    by (unfold availabilityDuplicateFree; apply (bool_decide_unpack _); vm_compute; exact I).
  split; [exact Hinv|].
  exact (no_impossible_message_without_repeated_ids tidyHistory "2024-03-10" (λ _, 0) Hinv).
Defined.

(** X9. On a document none of whose chores has the id [__proto__] (a
    key that the assignment [newAssignments[chore.id] = pick] of the source
    does not add to the object), when either version of
    [generateAssignments] writes today's assignments, the map it writes
    gives every chore of the list a person, has no key that is not a chore
    id, names only people available today, and gives nobody two chores. *)
Theorem generate_stores_complete_fair_map data today rng :
  ("__proto__" ∉ chore_id <$> chores data) →
  Forall (storesCompleteFairMap data today)
    [Script.generateAssignments data today rng;
     Refactored.generateAssignments data today rng].
Proof.
  intros _. apply Forall_forall. intros o Ho.
  destruct (generate_stored _ _ _ _ Ho) as [?|(day & m & Hday & Hst & Hone & Hall & Hent)];
    [by left|].
  right. exists m. split; [done|]. rewrite Hst.
  split; [by eapply assignmentsOn_commit|]. split; [done|]. split; [done|].
  intros c p [Hp Hc]%Hent. split; [done|]. by rewrite (availableOn_lookup _ _ _ Hday).
Qed.

Lemma generate_stores_complete_fair_map_witness :
  "__proto__" ∉ chore_id <$> chores tidyHistory ∧
  Forall (storesCompleteFairMap tidyHistory "2024-03-10")
    [Script.generateAssignments tidyHistory "2024-03-10" (λ _, 0);
     Refactored.generateAssignments tidyHistory "2024-03-10" (λ _, 0)].
Proof.
  assert ("__proto__" ∉ chore_id <$> chores tidyHistory) as Hids
    by (apply (bool_decide_unpack _); vm_compute; exact I).
  split; [exact Hids|].
  exact (generate_stores_complete_fair_map tidyHistory "2024-03-10" (λ _, 0) Hids).
Defined.

(** X10. When a call of either version shows no message (it only clears the
    warning text), the map it commits respects both history rules for every
    entry: the person did not have that chore on any of the five most
    recent recorded dates before today and was free on one of the two most
    recent ones.  Exactly one random draw per chore has been consumed. *)
Theorem silent_generation_respects_history data today rng :
  Forall (λ o, ui o = [WarningText ""] →
            ∃ m, stored o = commit (normalizeAvailability data today) today m ∧
                 (∀ c p, m !! c = Some p → respectsHistory data today c p) ∧
                 ∀ k, rngAfter o k = rng (length (chores data) + k))
    [Script.generateAssignments data today rng;
     Refactored.generateAssignments data today rng].
Proof.
  apply Forall_forall. intros o Ho Hui.
  destruct (generate_cases _ _ _ _ Ho)
    as [[_ ->]|[(day & ev & _ & _ & Hev & ->)|(day & Hday & _ & ->)]].
  - done.
  - cbn in Hui. injection Hui as ->. set_solver.
  - rewrite (allocate_unfold _ _ _ _ _ Hday) in Hui |- *.
    repeat case_decide; try done.
    destruct (completed (strictPass _ today rng)) eqn:Hstrict.
    + eexists. split; [done|]. cbn [rngAfter]. split.
      * intros c p Hcp. by apply respectsHistory_normalize, (strictPass_respects_history _ _ rng).
      * rewrite <- (normalize_chores data today). unfold strictPass in *.
        rewrite phase1_passWith in *. by apply pass_draws.
    + by destruct (completed (relaxedPass _ today rng)).
Qed.

(** X11. While no date before today is recorded and there is at least one
    chore, the strict pass cannot complete.  The refactored version then
    always ends with a message on the page.  So does script.js on a day
    that has a record; on a day that has none it returns before it touches
    the page, shows nothing, draws nothing and saves the normalised
    document only.  So no call ends with the warning text merely cleared,
    and a map is only ever committed together with the relaxation
    warning. *)
Theorem no_silent_generation_on_empty_history data today rng :
  (∀ d, recorded data d → ¬ dateBefore d today) →
  chores data ≠ [] →
  completed (strictPass (normalizeAvailability data today) today rng) = false ∧
  shownWarnings (ui (Refactored.generateAssignments data today rng)) ≠ [] ∧
  (recorded data today →
   shownWarnings (ui (Script.generateAssignments data today rng)) ≠ []) ∧
  (¬ recorded data today →
   Script.generateAssignments data today rng
   = mkOutcome (normalizeAvailability data today) rng []) ∧
  Forall (λ o, ui o ≠ [WarningText ""] ∧
               (stored o ≠ normalizeAvailability data today →
                shownWarnings (ui o) = [msgRelaxed]))
    [Script.generateAssignments data today rng;
     Refactored.generateAssignments data today rng].
Proof.
  intros Hnone Hchores.
  assert (completed (strictPass (normalizeAvailability data today) today rng) = false)
    as Hstrict.
  { unfold strictPass. rewrite priorDates_normalize, normalize_chores.
    assert (priorDates data today = []) as ->.
    { apply elem_of_nil_inv. intros d [Hrec Hlt]%elem_of_priorDates. by apply (Hnone d). }
    destruct (chores data) as [|chore rest]; [done|]. cbn [phase1].
    by rewrite phase1Candidates_no_history. }
  assert (∀ day,
            assignmentsByDate (normalizeAvailability data today) !! today = Some day →
            shownWarnings
              (ui (allocate (normalizeAvailability data today) today day rng
                     [WarningText ""])) ≠ []) as Hshown.
  { intros day Hday. rewrite (allocate_unfold _ _ _ _ _ Hday), Hstrict.
    repeat case_decide; try done.
    by destruct (completed (relaxedPass _ today rng)). }
  split; [done|]. split; [|split; [|split]].
  - unfold Refactored.generateAssignments.
    destruct (normalize_recorded data today today) as [_ [day Hday]]; [by left|].
    rewrite Hday. destruct (confirmed day); [done|]. by apply Hshown.
  - intros [day0 Hday0].
    destruct (script_generate_existing _ _ _ rng Hday0) as (day & Hday & _ & _ & ->).
    destruct (confirmed day0); [done|]. by apply Hshown.
  - intros Hno. unfold Script.generateAssignments.
    destruct (assignmentsByDate data !! today) as [day0|] eqn:Hday0; [|done].
    destruct Hno. by exists day0.
  - apply Forall_forall. intros o Ho.
    destruct (generate_cases _ _ _ _ Ho)
      as [[_ ->]|[(day & ev & _ & _ & Hev & ->)|(day & Hday & _ & ->)]].
    + done.
    + split; [|done]. cbn. intros [= ->]. set_solver.
    + rewrite (allocate_unfold _ _ _ _ _ Hday), Hstrict.
      repeat case_decide; try done.
      by destruct (completed (relaxedPass _ today rng)).
Qed.

Lemma no_silent_generation_witness :
  (∀ d, recorded repeatedId d → ¬ dateBefore d "2024-03-10") ∧
  chores repeatedId ≠ [] ∧
  completed (strictPass (normalizeAvailability repeatedId "2024-03-10") "2024-03-10" (λ _, 0))
  = false ∧
  shownWarnings (ui (Refactored.generateAssignments repeatedId "2024-03-10" (λ _, 0))) ≠ [] ∧
  (recorded repeatedId "2024-03-10" →
   shownWarnings (ui (Script.generateAssignments repeatedId "2024-03-10" (λ _, 0))) ≠ []) ∧
  (¬ recorded repeatedId "2024-03-10" →
   Script.generateAssignments repeatedId "2024-03-10" (λ _, 0)
   = mkOutcome (normalizeAvailability repeatedId "2024-03-10") (λ _, 0) []) ∧
  Forall (λ o, ui o ≠ [WarningText ""] ∧
               (stored o ≠ normalizeAvailability repeatedId "2024-03-10" →
                shownWarnings (ui o) = [msgRelaxed]))
    [Script.generateAssignments repeatedId "2024-03-10" (λ _, 0);
     Refactored.generateAssignments repeatedId "2024-03-10" (λ _, 0)].
Proof.
  assert (∀ d, recorded repeatedId d → ¬ dateBefore d "2024-03-10") as Hnone.
  { intros d [day Hd]. unfold repeatedId in Hd. cbn in Hd.
    apply lookup_singleton_Some in Hd as [<- _]. apply dateBefore_irrefl. }
  assert (chores repeatedId ≠ []) as Hch by done.
  split; [exact Hnone|]. split; [exact Hch|].
  exact (no_silent_generation_on_empty_history repeatedId "2024-03-10" (λ _, 0) Hnone Hch).
Defined.

(** X12. With an empty chore list, a call on an unconfirmed day with
    somebody available shows no message, draws nothing, and replaces
    today's assignments, whatever they were, by the empty map. *)
Theorem generation_without_chores_clears_today data today day0 rng :
  chores data = [] →
  assignmentsByDate data !! today = Some day0 →
  confirmed day0 = false →
  availableOn (normalizeAvailability data today) today ≠ [] →
  Forall (λ o, o = mkOutcome (commit (normalizeAvailability data today) today ∅) rng
                     [WarningText ""]
               ∧ assignmentsOn (stored o) today = ∅)
    [Script.generateAssignments data today rng;
     Refactored.generateAssignments data today rng].
Proof.
  intros Hch Hday0 Hconf Hsome. apply Forall_forall. intros o Ho.
  pose proof (normalize_existing _ _ _ Hday0) as Hday.
  destruct (generate_cases _ _ _ _ Ho)
    as [[? _]|[(day & ev & Hday' & Hc & _)|(day & Hday' & _ & ->)]]; [congruence|..].
  { rewrite Hday in Hday'. injection Hday' as <-. cbn in Hc. congruence. }
  rewrite (allocate_unfold _ _ _ _ _ Hday').
  rewrite decide_False by (by destruct (availableOn _ today)).
  rewrite normalize_chores, Hch. rewrite decide_False by (cbn; lia).
  unfold strictPass. rewrite normalize_chores, Hch. cbn.
  split; [done|]. by eapply assignmentsOn_commit.
Qed.

Lemma generation_without_chores_witness :
  chores emptyDayBetween = [] ∧
  assignmentsByDate emptyDayBetween !! "2024-03-08" = Some (mkDay ["A"] ∅ false) ∧
  confirmed (mkDay ["A"] ∅ false) = false ∧
  availableOn (normalizeAvailability emptyDayBetween "2024-03-08") "2024-03-08" ≠ [] ∧
  Forall (λ o, o = mkOutcome (commit (normalizeAvailability emptyDayBetween "2024-03-08")
                                "2024-03-08" ∅) (λ _, 0) [WarningText ""]
               ∧ assignmentsOn (stored o) "2024-03-08" = ∅)
    [Script.generateAssignments emptyDayBetween "2024-03-08" (λ _, 0);
     Refactored.generateAssignments emptyDayBetween "2024-03-08" (λ _, 0)].
Proof.
  assert (availableOn (normalizeAvailability emptyDayBetween "2024-03-08") "2024-03-08" ≠ [])
    as Hsome by (vm_compute; discriminate).
  split; [reflexivity|]. split; [reflexivity|]. split; [reflexivity|].
  split; [exact Hsome|].
  exact (generation_without_chores_clears_today emptyDayBetween "2024-03-08"
           (mkDay ["A"] ∅ false) (λ _, 0) eq_refl eq_refl eq_refl Hsome).
Defined.

(** X13. When today has a record, the two versions of
    [generateAssignments] leave the same document and the same random
    source and show the same messages; they differ only in that script.js
    reports a confirmed day by [alert] and the refactored version in the
    warning element. *)
Theorem versions_agree_on_existing_day data today day0 rng :
  assignmentsByDate data !! today = Some day0 →
  let s := Script.generateAssignments data today rng in
  let r := Refactored.generateAssignments data today rng in
  stored s = stored r ∧ rngAfter s = rngAfter r ∧
  shownWarnings (ui s) = shownWarnings (ui r) ∧
  (confirmed day0 = false → s = r).
Proof.
  intros Hday0 s r. subst s r.
  destruct (script_generate_existing _ _ _ rng Hday0) as (day & Hday & Hc & _ & ->).
  destruct (refactored_generate data today rng) as (day' & Hday' & ->).
  rewrite Hday in Hday'. injection Hday' as <-. rewrite Hc.
  by destruct (confirmed day0).
Qed.

Lemma versions_agree_witness :
  assignmentsByDate tidyHistory !! "2024-03-10" = Some (mkDay ["A"; "B"; "C"] ∅ false) ∧
  let s := Script.generateAssignments tidyHistory "2024-03-10" (λ _, 0) in
  let r := Refactored.generateAssignments tidyHistory "2024-03-10" (λ _, 0) in
  stored s = stored r ∧ rngAfter s = rngAfter r ∧
  shownWarnings (ui s) = shownWarnings (ui r) ∧
  (confirmed (mkDay ["A"; "B"; "C"] ∅ false) = false → s = r).
Proof.
  split; [reflexivity|].
  exact (versions_agree_on_existing_day tidyHistory "2024-03-10"
           (mkDay ["A"; "B"; "C"] ∅ false) (λ _, 0) eq_refl).
Defined.

(** X14. When today has no record, the refactored version does not return
    silently as script.js does: it goes on with the record the
    normalisation has just created, and when that record inherits nobody
    (no earlier recorded day, or one without availability) it shows "No
    available people selected" and leaves the new empty record stored. *)
Theorem refactored_generate_goes_on_without_record data today rng :
  assignmentsByDate data !! today = None →
  let created := mkDay (inheritedAvailability (getLastWorkday data today)) ∅ false in
  Refactored.generateAssignments data today rng
  = allocate (normalizeAvailability data today) today created rng [WarningText ""]
  ∧ (inheritedAvailability (getLastWorkday data today) = [] →
     Refactored.generateAssignments data today rng
     = mkOutcome (normalizeAvailability data today) rng
         [WarningText ""; WarningText msgNoPeople]
     ∧ assignmentsByDate (normalizeAvailability data today) !! today
       = Some (mkDay [] ∅ false)).
Proof.
  intros Hnone created. subst created.
  pose proof (normalize_missing _ _ Hnone) as Hnew.
  unfold Refactored.generateAssignments. rewrite Hnew. cbn [confirmed].
  split; [done|]. intros Hempty. rewrite Hempty in *. split; [|done].
  unfold allocate. cbn [availablePersonIds length]. by rewrite decide_True.
Qed.

Lemma refactored_generate_goes_on_witness :
  assignmentsByDate (endToEnd "2024-03-10") !! "2024-03-09" = None ∧
  let created :=
    mkDay (inheritedAvailability (getLastWorkday (endToEnd "2024-03-10") "2024-03-09"))
          ∅ false in
  Refactored.generateAssignments (endToEnd "2024-03-10") "2024-03-09" (λ _, 0)
  = allocate (normalizeAvailability (endToEnd "2024-03-10") "2024-03-09") "2024-03-09"
      created (λ _, 0) [WarningText ""]
  ∧ (inheritedAvailability (getLastWorkday (endToEnd "2024-03-10") "2024-03-09") = [] →
     Refactored.generateAssignments (endToEnd "2024-03-10") "2024-03-09" (λ _, 0)
     = mkOutcome (normalizeAvailability (endToEnd "2024-03-10") "2024-03-09") (λ _, 0)
         [WarningText ""; WarningText msgNoPeople]
     ∧ assignmentsByDate (normalizeAvailability (endToEnd "2024-03-10") "2024-03-09")
         !! "2024-03-09"
       = Some (mkDay [] ∅ false)).
Proof.
  split; [reflexivity|].
  exact (refactored_generate_goes_on_without_record (endToEnd "2024-03-10") "2024-03-09"
           (λ _, 0) eq_refl).
Defined.

(** ** Further properties: what the handlers leave alone *)

Section frames.
Implicit Types (data : Data) (d today : string).

Lemma onlyTouches_refl today data : onlyTouches today data data.
Proof. by repeat split. Qed.

Lemma onlyTouches_trans today data1 data2 data3 :
  onlyTouches today data1 data2 → onlyTouches today data2 data3 →
  onlyTouches today data1 data3.
Proof.
  intros (Hc1 & Hp1 & Hd1) (Hc2 & Hp2 & Hd2). split; [congruence|]. split; [congruence|].
  intros d Hne. by rewrite Hd2, Hd1.
Qed.

Lemma keepsConfirmed_refl data : keepsConfirmed data data.
Proof. intros d day Hd. by exists day. Qed.

Lemma keepsConfirmed_trans data1 data2 data3 :
  keepsConfirmed data1 data2 → keepsConfirmed data2 data3 → keepsConfirmed data1 data3.
Proof.
  intros H12 H23 d day Hd. destruct (H12 d day Hd) as (day2 & Hd2 & Hc2).
  destruct (H23 d day2 Hd2) as (day3 & Hd3 & Hc3). exists day3. split; [done|]. auto.
Qed.

Lemma insert_onlyTouches data today day :
  onlyTouches today data (withDays data (<[today := day]> (assignmentsByDate data))).
Proof. split; [done|]. split; [done|]. intros d Hne. cbn. by rewrite lookup_insert_ne. Qed.

Lemma insert_keepsConfirmed data today day' :
  (∀ day, assignmentsByDate data !! today = Some day → confirmed day = true →
          confirmed day' = true) →
  keepsConfirmed data (withDays data (<[today := day']> (assignmentsByDate data))).
Proof.
  intros Hday d day Hd. cbn. destruct (decide (today = d)) as [->|Hne].
  - rewrite lookup_insert_eq. exists day'. split; [done|]. by apply (Hday day).
  - rewrite lookup_insert_ne by done. by exists day.
Qed.

Lemma normalize_keepsConfirmed data date :
  keepsConfirmed data (normalizeAvailability data date).
Proof.
  unfold normalizeAvailability.
  destruct (assignmentsByDate data !! date) as [day|] eqn:Hday;
    apply insert_keepsConfirmed; intros day' Hday'; [|congruence].
  rewrite Hday in Hday'. by injection Hday' as <-.
Qed.

Lemma normalize_onlyTouches data date :
  onlyTouches date data (normalizeAvailability data date).
Proof.
  split; [apply normalize_chores|]. split; [apply normalize_people|].
  intros d Hne. by apply normalize_other.
Qed.

Lemma script_renderAll_onlyTouches data today :
  onlyTouches today data (ScriptOps.renderAll data today).
Proof.
  unfold ScriptOps.renderAll, ScriptOps.renderAvailability.
  destruct (assignmentsByDate data !! today); [apply normalize_onlyTouches|].
  eapply onlyTouches_trans; [apply insert_onlyTouches|apply normalize_onlyTouches].
Qed.

Lemma script_renderAll_keepsConfirmed data today :
  keepsConfirmed data (ScriptOps.renderAll data today).
Proof.
  unfold ScriptOps.renderAll, ScriptOps.renderAvailability.
  destruct (assignmentsByDate data !! today) eqn:Hday; [apply normalize_keepsConfirmed|].
  eapply keepsConfirmed_trans; [|apply normalize_keepsConfirmed].
  apply insert_keepsConfirmed. congruence.
Qed.

Lemma commit_onlyTouches data today m : onlyTouches today data (commit data today m).
Proof. split; [done|]. split; [done|]. intros d Hne. by apply commit_other. Qed.

Lemma commit_keepsConfirmed data today m : keepsConfirmed data (commit data today m).
Proof.
  intros d day Hd. unfold commit. cbn. destruct (decide (today = d)) as [->|Hne].
  - rewrite lookup_alter_eq, Hd. cbn. by eexists.
  - rewrite lookup_alter_ne by done. by exists day.
Qed.

Lemma generate_frames data today rng o :
  o ∈ [Script.generateAssignments data today rng;
       Refactored.generateAssignments data today rng] →
  onlyTouches today data (stored o) ∧ keepsConfirmed data (stored o) ∧
  availableOn (stored o) today = availableOn (normalizeAvailability data today) today.
Proof.
  intros Ho.
  destruct (generate_stored _ _ _ _ Ho) as [->|(day & m & Hday & -> & _)].
  - split; [apply normalize_onlyTouches|]. split; [apply normalize_keepsConfirmed|done].
  - split; [|split].
    + eapply onlyTouches_trans; [apply normalize_onlyTouches|apply commit_onlyTouches].
    + eapply keepsConfirmed_trans; [apply normalize_keepsConfirmed|apply commit_keepsConfirmed].
    + by rewrite (availableOn_lookup _ _ _ (commit_today _ _ _ m Hday)),
                 (availableOn_lookup _ _ _ Hday).
Qed.

Lemma script_toggle_frames data today pid available data' :
  ScriptOps.toggleAvailability data today pid available = Some data' →
  onlyTouches today data data' ∧ keepsConfirmed data data'.
Proof.
  unfold ScriptOps.toggleAvailability.
  destruct (assignmentsByDate data !! today) as [day|] eqn:Hday; [|done].
  cbn. intros [= <-]. split; [apply insert_onlyTouches|].
  apply insert_keepsConfirmed. intros day' Hday'. rewrite Hday in Hday'.
  by injection Hday' as <-.
Qed.

Lemma refactored_toggle_frames data today pid available :
  onlyTouches today data (RefactoredOps.toggleAvailability data today pid available) ∧
  keepsConfirmed data (RefactoredOps.toggleAvailability data today pid available).
Proof.
  unfold RefactoredOps.toggleAvailability.
  destruct (assignmentsByDate data !! today) as [day|] eqn:Hday;
    [|split; [apply onlyTouches_refl|apply keepsConfirmed_refl]].
  split; [apply insert_onlyTouches|].
  apply insert_keepsConfirmed. intros day' Hday'. rewrite Hday in Hday'.
  injection Hday' as <-. by destruct available.
Qed.

Lemma assign_frames data today chore pid data' shown :
  (ScriptOps.assignManually data today chore pid = (Some data', shown)
   ∨ RefactoredOps.assignManually data today chore pid = (Some data', shown)) →
  onlyTouches today data data' ∧ keepsConfirmed data data'.
Proof.
  unfold ScriptOps.assignManually, RefactoredOps.assignManually.
  destruct (assignmentsByDate data !! today) as [day|] eqn:Hday; [|by intros [|]].
  intros [Has|Has]; repeat case_decide; try done; injection Has as <- <-;
    (split; [apply insert_onlyTouches|]);
    apply insert_keepsConfirmed; intros day' Hday'; rewrite Hday in Hday';
    by injection Hday' as <-.
Qed.

Lemma confirm_frames data today o :
  o ∈ [ScriptOps.confirmAssignments data today;
       RefactoredOps.confirmAssignments data today] →
  onlyTouches today data o.1 ∧ keepsConfirmed data o.1.
Proof.
  intros Ho.
  apply elem_of_cons in Ho as [->|Ho]; [|apply list_elem_of_singleton in Ho as ->].
  - unfold ScriptOps.confirmAssignments.
    destruct (assignmentsByDate data !! today);
      [|split; [apply onlyTouches_refl|apply keepsConfirmed_refl]].
    split; [apply insert_onlyTouches|]. by apply insert_keepsConfirmed.
  - unfold RefactoredOps.confirmAssignments.
    destruct (assignmentsByDate data !! today) as [day|];
      [|split; [apply onlyTouches_refl|apply keepsConfirmed_refl]].
    destruct (confirmed day); [split; [apply onlyTouches_refl|apply keepsConfirmed_refl]|].
    split; [apply insert_onlyTouches|]. by apply insert_keepsConfirmed.
Qed.

Lemma keepsConfirmed_same_days data data' :
  assignmentsByDate data' = assignmentsByDate data → keepsConfirmed data data'.
Proof. intros Hsame d day Hd. rewrite Hsame. by exists day. Qed.

Lemma add_keepsConfirmed toLowerCase data today id trimmed :
  keepsConfirmed data (ScriptOps.addChore data today id trimmed) ∧
  keepsConfirmed data (RefactoredOps.addChore toLowerCase data id trimmed).1 ∧
  keepsConfirmed data (ScriptOps.addPerson data today id trimmed) ∧
  keepsConfirmed data (RefactoredOps.addPerson toLowerCase data today id trimmed).1.
Proof.
  unfold ScriptOps.addChore, RefactoredOps.addChore, ScriptOps.addPerson,
    RefactoredOps.addPerson.
  repeat split; repeat case_decide; cbn [fst]; try apply keepsConfirmed_refl.
  - eapply keepsConfirmed_trans; [|apply script_renderAll_keepsConfirmed].
    by apply keepsConfirmed_same_days.
  - by apply keepsConfirmed_same_days.
  - eapply keepsConfirmed_trans; [|apply script_renderAll_keepsConfirmed].
    by apply keepsConfirmed_same_days.
  - eapply keepsConfirmed_trans; [|apply normalize_keepsConfirmed].
    by apply keepsConfirmed_same_days.
Qed.

Lemma script_rename_keepsConfirmed data id name data' :
  ScriptOps.renameChore data id name = Some data'
  ∨ ScriptOps.renamePerson data id name = Some data' →
  keepsConfirmed data data'.
Proof.
  unfold ScriptOps.renameChore, ScriptOps.renamePerson.
  intros [Hre|Hre]; apply fmap_Some in Hre as (l & _ & ->);
    by apply keepsConfirmed_same_days.
Qed.

Lemma refactored_rename_keepsConfirmed toLowerCase data today id trimmed :
  keepsConfirmed data (RefactoredOps.renameChore toLowerCase data today id trimmed).1 ∧
  keepsConfirmed data (RefactoredOps.renamePerson toLowerCase data today id trimmed).1.
Proof.
  unfold RefactoredOps.renameChore, RefactoredOps.renamePerson. split.
  - destruct (renamedChore _ _ _); [|apply keepsConfirmed_refl].
    repeat case_decide; cbn [fst]; [apply normalize_keepsConfirmed..|].
    by apply keepsConfirmed_same_days.
  - destruct (renamedPerson _ _ _); [|apply keepsConfirmed_refl].
    repeat case_decide; cbn [fst]; [apply normalize_keepsConfirmed..|].
    eapply keepsConfirmed_trans; [|apply normalize_keepsConfirmed].
    by apply keepsConfirmed_same_days.
Qed.

Lemma deleteChoreCascade_keepsConfirmed data id :
  keepsConfirmed data (deleteChoreCascade data id).
Proof.
  intros d day Hd. unfold deleteChoreCascade. cbn. rewrite lookup_fmap, Hd. cbn.
  by eexists.
Qed.

Lemma deletePersonCascade_keepsConfirmed data id :
  keepsConfirmed data (deletePersonCascade data id).
Proof.
  intros d day Hd. unfold deletePersonCascade. cbn. rewrite lookup_fmap, Hd. cbn.
  by eexists.
Qed.

End frames.

(** X15. Rendering, generation, availability toggles, manual assignment and
    confirmation, in either version, change nothing but the record of
    today in the document they work on (the stored one; for a manual
    selection the one its selector was built from): the chore list, the
    people list and the record of every other date stay as they were.
    Generation moreover leaves today's availability as the normalisation
    made it. *)
Theorem handlers_touch_only_todays_record data today :
  onlyTouches today data (ScriptOps.renderAll data today) ∧
  onlyTouches today data (RefactoredOps.renderAll data today) ∧
  (∀ rng, Forall (λ o, onlyTouches today data (stored o) ∧
                       availableOn (stored o) today
                       = availableOn (normalizeAvailability data today) today)
            [Script.generateAssignments data today rng;
             Refactored.generateAssignments data today rng]) ∧
  (∀ pid available,
     (∀ data', ScriptOps.toggleAvailability data today pid available = Some data' →
               onlyTouches today data data') ∧
     onlyTouches today data (RefactoredOps.toggleAvailability data today pid available)) ∧
  (∀ chore pid data' shown,
     ScriptOps.assignManually data today chore pid = (Some data', shown)
     ∨ RefactoredOps.assignManually data today chore pid = (Some data', shown) →
     onlyTouches today data data') ∧
  Forall (λ o, onlyTouches today data o.1)
    [ScriptOps.confirmAssignments data today;
     RefactoredOps.confirmAssignments data today].
Proof.
  split; [apply script_renderAll_onlyTouches|]. split; [apply normalize_onlyTouches|].
  split; [|split; [|split]].
  - intros rng. apply Forall_forall. intros o Ho.
    by destruct (generate_frames _ _ _ _ Ho) as (? & _ & ?).
  - intros pid available. split; [|apply refactored_toggle_frames].
    intros data' Hto. by apply script_toggle_frames in Hto as [? _].
  - intros chore pid data' shown Has. by apply assign_frames in Has as [? _].
  - apply Forall_forall. intros o Ho. by apply confirm_frames in Ho as [? _].
Qed.

(** X16. No handler resets a confirmation or loses a record of the
    document it works on, the sweep apart: in what any other handler saves
    every record of that document is still there, and still confirmed if
    it was.  The sweep only removes records; those it leaves are
    unchanged. *)
Theorem handlers_never_unconfirm data data' :
  handlerStep data data' →
  keepsConfirmed data data'
  ∨ (∃ now, data' = Script.cleanupOldData data now ∧
            ∀ d day, assignmentsByDate data' !! d = Some day →
                     assignmentsByDate data !! d = Some day).
Proof.
  assert (∀ now, ∀ d day,
            assignmentsByDate (Script.cleanupOldData data now) !! d = Some day →
            assignmentsByDate data !! d = Some day) as Hsweep.
  { intros now d day. unfold Script.cleanupOldData. cbn. rewrite sweep_lookup.
    by destruct (olderThan (parseOther now) (cutoffTime now) d). }
  destruct 1.
  - left. apply script_renderAll_keepsConfirmed.
  - left. apply normalize_keepsConfirmed.
  - left. apply (generate_frames data today rng). set_solver.
  - left. apply (generate_frames data today rng). set_solver.
  - left. by eapply script_toggle_frames.
  - left. apply refactored_toggle_frames.
  - left. eapply assign_frames. by left.
  - left. eapply assign_frames. by right.
  - left. apply (confirm_frames data today). set_solver.
  - left. apply (confirm_frames data today). set_solver.
  - left. eapply keepsConfirmed_trans;
      [apply deleteChoreCascade_keepsConfirmed|apply script_renderAll_keepsConfirmed].
  - left. eapply keepsConfirmed_trans;
      [apply deleteChoreCascade_keepsConfirmed|apply normalize_keepsConfirmed].
  - left. eapply keepsConfirmed_trans;
      [apply deletePersonCascade_keepsConfirmed|apply script_renderAll_keepsConfirmed].
  - left. eapply keepsConfirmed_trans;
      [apply deletePersonCascade_keepsConfirmed|apply normalize_keepsConfirmed].
  - right. exists now. split; [done|apply Hsweep].
  - right. exists now. split; [done|apply Hsweep].
  - left. apply (add_keepsConfirmed (λ name, name)).
  - left. apply (add_keepsConfirmed toLowerCase data "").
  - left. apply (add_keepsConfirmed (λ name, name)).
  - left. apply add_keepsConfirmed.
  - left. eapply script_rename_keepsConfirmed. by left.
  - left. apply refactored_rename_keepsConfirmed.
  - left. eapply script_rename_keepsConfirmed. by right.
  - left. apply refactored_rename_keepsConfirmed.
Qed.

Lemma handlers_never_unconfirm_witness :
  handlerStep tidyHistory (ScriptOps.deletePerson tidyHistory "2024-03-10" "A") ∧
  (keepsConfirmed tidyHistory (ScriptOps.deletePerson tidyHistory "2024-03-10" "A")
   ∨ (∃ now, ScriptOps.deletePerson tidyHistory "2024-03-10" "A"
             = Script.cleanupOldData tidyHistory now ∧
             ∀ d day,
               assignmentsByDate (ScriptOps.deletePerson tidyHistory "2024-03-10" "A") !! d
               = Some day →
               assignmentsByDate tidyHistory !! d = Some day)).
Proof.
  split; [apply step_script_deletePerson|].
  exact (handlers_never_unconfirm tidyHistory
           (ScriptOps.deletePerson tidyHistory "2024-03-10" "A")
           (step_script_deletePerson tidyHistory "2024-03-10" "A")).
Defined.

(** X17. Confirmation protects today's assignments from the engine: after
    [confirmAssignments] of either version on a day that has a record, a
    call of [generateAssignments] of either version consumes no random
    draw, shows only "Assignments are already confirmed for today." and
    leaves today's assignments as they were. *)
Theorem generation_after_confirmation_is_blocked data today day0 rng :
  assignmentsByDate data !! today = Some day0 →
  ∀ c, c ∈ [ScriptOps.confirmAssignments data today;
            RefactoredOps.confirmAssignments data today] →
  ∀ o, o ∈ [Script.generateAssignments c.1 today rng;
            Refactored.generateAssignments c.1 today rng] →
    rngAfter o = rng ∧ shownWarnings (ui o) = [msgConfirmed] ∧
    assignmentsOn (stored o) today = assignments day0 ∧
    stored o = normalizeAvailability c.1 today.
Proof.
  intros Hday0 c Hc o Ho.
  assert (∃ day1, assignmentsByDate c.1 !! today = Some day1 ∧ confirmed day1 = true ∧
                  assignments day1 = assignments day0) as (day1 & Hday1 & Hconf & Hasg).
  { apply elem_of_cons in Hc as [->|Hc]; [|apply list_elem_of_singleton in Hc as ->].
    - unfold ScriptOps.confirmAssignments. rewrite Hday0. cbn.
      rewrite lookup_insert_eq. by eexists.
    - unfold RefactoredOps.confirmAssignments. rewrite Hday0.
      destruct (confirmed day0) eqn:Hc0; cbn; [by exists day0|].
      rewrite lookup_insert_eq. by eexists. }
  pose proof (normalize_existing _ _ _ Hday1) as Hnorm.
  destruct (generate_cases _ _ _ _ Ho)
    as [[? _]|[(day & ev & Hday & _ & Hev & ->)|(day & Hday & Hopen & _)]].
  - congruence.
  - cbn [rngAfter ui stored]. split; [done|]. split.
    + apply elem_of_cons in Hev as [->|Hev]; [|apply list_elem_of_singleton in Hev as ->];
        reflexivity.
    + split; [|done]. by rewrite (assignmentsOn_normalize _ _ _ Hday1).
  - rewrite Hnorm in Hday. injection Hday as <-. cbn in Hopen. congruence.
Qed.

Lemma generation_after_confirmation_witness :
  assignmentsByDate tidyHistory !! "2024-03-10" = Some (mkDay ["A"; "B"; "C"] ∅ false) ∧
  ∀ c, c ∈ [ScriptOps.confirmAssignments tidyHistory "2024-03-10";
            RefactoredOps.confirmAssignments tidyHistory "2024-03-10"] →
  ∀ o, o ∈ [Script.generateAssignments c.1 "2024-03-10" (λ _, 0);
            Refactored.generateAssignments c.1 "2024-03-10" (λ _, 0)] →
    rngAfter o = (λ _, 0) ∧ shownWarnings (ui o) = [msgConfirmed] ∧
    assignmentsOn (stored o) "2024-03-10" = assignments (mkDay ["A"; "B"; "C"] ∅ false) ∧
    stored o = normalizeAvailability c.1 "2024-03-10".
Proof.
  split; [reflexivity|].
  exact (generation_after_confirmation_is_blocked tidyHistory "2024-03-10"
           (mkDay ["A"; "B"; "C"] ∅ false) (λ _, 0) eq_refl).
Defined.

(** ** Further properties: deletions, toggles, manual assignment *)

Section cascades.
Implicit Types (data : Data) (d today id : string).

Lemma render_keeps (P : DayRecord → Prop) data today after :
  after ∈ [ScriptOps.renderAll data today; RefactoredOps.renderAll data today] →
  (∀ ids, ids = [] ∨ (∃ last, P last ∧ ids = availablePersonIds last) →
          P (mkDay ids ∅ false)) →
  (∀ day ids, P day →
     ids = availablePersonIds day ∨ (∃ last, P last ∧ ids = availablePersonIds last) →
     P (withAvailable day (filter (isPerson data) ids))) →
  everyDay P data → everyDay P after ∧ onlyTouches today data after.
Proof.
  intros Hafter Hnew Hold Hall.
  apply elem_of_cons in Hafter as [->|Hafter];
    [|apply list_elem_of_singleton in Hafter as ->].
  - split; [by apply everyDay_script_renderAvailability|apply script_renderAll_onlyTouches].
  - split; [by apply everyDay_normalize|apply normalize_onlyTouches].
Qed.

Lemma not_isPerson_after_delete (ps : list Person) id :
  id ∉ person_id <$> filter (λ p, person_id p ≠ id) ps.
Proof. intros (q & -> & [Hne _]%list_elem_of_filter)%list_elem_of_fmap. done. Qed.

Lemma not_chore_after_delete (cs : list Chore) id :
  id ∉ chore_id <$> filter (λ c, chore_id c ≠ id) cs.
Proof. intros (q & -> & [Hne _]%list_elem_of_filter)%list_elem_of_fmap. done. Qed.

End cascades.

(** X18. The deletions remove every reference.  After [deletePerson(id)]
    of either version nothing refers to the person any more: they are off
    the people list, in no availability array and in no assignment of any
    date, today's re-rendered record included; the chore list is
    untouched, the other people stay, and the record of every other date
    loses exactly the entries that name the person.  After
    [deleteChore(id)] of either version the chore is off the chore list and
    is a key of no assignment map, today's included; the people list is
    untouched, the other chores stay, and the record of every other date
    loses exactly that key. *)
Theorem deletions_remove_every_reference data today id :
  Forall (λ after,
            personGone after id ∧ chores after = chores data ∧
            people after = filter (λ p, person_id p ≠ id) (people data) ∧
            ∀ d day, d ≠ today → assignmentsByDate data !! d = Some day →
              assignmentsByDate after !! d
              = Some {| availablePersonIds := filter (λ pid, pid ≠ id) (availablePersonIds day);
                        assignments := filter (λ cp, cp.2 ≠ id) (assignments day);
                        confirmed := confirmed day |})
    [ScriptOps.deletePerson data today id; RefactoredOps.deletePerson data today id] ∧
  Forall (λ after,
            choreGone after id ∧ people after = people data ∧
            chores after = filter (λ c, chore_id c ≠ id) (chores data) ∧
            ∀ d day, d ≠ today → assignmentsByDate data !! d = Some day →
              assignmentsByDate after !! d
              = Some (withAssignments day (delete id (assignments day))))
    [ScriptOps.deleteChore data today id; RefactoredOps.deleteChore data today id].
Proof.
  split; apply Forall_forall; intros after Hafter.
  - set (P := λ day : DayRecord,
                (id ∉ availablePersonIds day) ∧ ∀ c, assignments day !! c ≠ Some id).
    assert (everyDay P (deletePersonCascade data id)) as Hcascade.
    { intros d day'. unfold deletePersonCascade. cbn.
      intros (day & <- & Hday)%lookup_fmap_Some. split; cbn.
      - by intros [? _]%list_elem_of_filter.
      - by intros c [_ ?]%map_lookup_filter_Some. }
    destruct (render_keeps P (deletePersonCascade data id) today after)
      as [Hgone (Hch & Hpp & Hother)]; [done| | |done|].
    { intros ids [->|(last & [Hlast _] & ->)];
        (split; [|by intros c; cbn; rewrite lookup_empty]);
        [by intros ?%elem_of_nil|done]. }
    { intros day ids [Hav Has] Hids. split; [|done]. cbn.
      intros [_ Hin]%list_elem_of_filter.
      destruct Hids as [->|(last & [Hlast _] & ->)]; done. }
    split; [|split; [done|split; [done|]]].
    + split; [|apply Hgone]. unfold isPerson. rewrite Hpp. apply not_isPerson_after_delete.
    + intros d day Hne Hday. rewrite Hother by done. unfold deletePersonCascade. cbn.
      by rewrite lookup_fmap, Hday.
  - set (P := λ day : DayRecord, assignments day !! id = None).
    assert (everyDay P (deleteChoreCascade data id)) as Hcascade.
    { intros d day'. unfold deleteChoreCascade. cbn.
      intros (day & <- & Hday)%lookup_fmap_Some. apply lookup_delete_eq. }
    destruct (render_keeps P (deleteChoreCascade data id) today after)
      as [Hgone (Hch & Hpp & Hother)]; [done|done|done|done|].
    split; [|split; [done|split; [done|]]].
    + split; [|apply Hgone]. rewrite Hch. apply not_chore_after_delete.
    + intros d day Hne Hday. rewrite Hother by done. unfold deleteChoreCascade. cbn.
      by rewrite lookup_fmap, Hday.
Qed.

Section confirmed_day.
Implicit Types (data : Data) (today pid : string) (day : DayRecord).

Lemma withDays_same data : withDays data (assignmentsByDate data) = data.
Proof. by destruct data. Qed.

Lemma script_confirm_lookup data today day :
  assignmentsByDate data !! today = Some day →
  (ScriptOps.confirmAssignments data today).1
  = withDays data (<[today := withConfirmed day]> (assignmentsByDate data)).
Proof. intros Hday. unfold ScriptOps.confirmAssignments. by rewrite Hday. Qed.

Lemma refactored_confirm_lookup data today day :
  assignmentsByDate data !! today = Some day →
  (RefactoredOps.confirmAssignments data today).1
  = withDays data (<[today := withConfirmed day]> (assignmentsByDate data)).
Proof.
  intros Hday. unfold RefactoredOps.confirmAssignments. rewrite Hday.
  destruct (confirmed day) eqn:Hc; [|done]. cbn [fst].
  assert (withConfirmed day = day) as -> by (destruct day; cbn in *; by subst).
  by rewrite insert_id, withDays_same.
Qed.

End confirmed_day.

Section pages.
Implicit Types (data : Data) (today : string) (page : Page).

Lemma select_accepted assign today data handler :
  recorded data today →
  is_Some (assign data).1 →
  (assign data).1
  = Some (saved (select assign today
                   (withoutRendering handler
                      (renderAssignments today (mkPage data None)))).1).
Proof.
  intros [day Hday] [after Hafter]. unfold select, withoutRendering, renderAssignments.
  cbn. rewrite Hday. cbn. destruct (assign data) as [[?|] ?]; [|done].
  cbn in Hafter. by injection Hafter as ->.
Qed.

Lemma assign_keeps_flag data today day chore pid assign after :
  assignmentsByDate data !! today = Some day →
  assign ∈ [λ held, ScriptOps.assignManually held today chore pid;
            λ held, RefactoredOps.assignManually held today chore pid] →
  (assign data).1 = Some after →
  onlyTouches today data after ∧
  ∃ day', assignmentsByDate after !! today = Some day' ∧ confirmed day' = confirmed day.
Proof.
  intros Hday Has Hafter.
  assert (ScriptOps.assignManually data today chore pid = (Some after, (assign data).2)
          ∨ RefactoredOps.assignManually data today chore pid
            = (Some after, (assign data).2)) as Hcase.
  { apply elem_of_cons in Has as [->|Has]; [|apply list_elem_of_singleton in Has as ->];
      [left|right]; cbn in *; rewrite <- Hafter; by destruct (_ : option Data * _). }
  split; [by destruct (assign_frames _ _ _ _ _ _ Hcase)|].
  unfold ScriptOps.assignManually, RefactoredOps.assignManually in Hcase.
  rewrite Hday in Hcase.
  destruct Hcase as [Hcase|Hcase]; repeat case_decide; try done;
    injection Hcase as <- _; cbn; rewrite lookup_insert_eq; by eexists.
Qed.

End pages.

(** X19. A selector saves the document it was built from.  With the
    selectors built from a document that has a record for today, let
    [confirmAssignments] or [cleanupOldData] of either version run (they
    save, and leave the selectors as they are) and then make a selection
    that either version accepts.  What is stored afterwards is the
    document the selectors were built from, with the selection: today's
    record has the confirmation flag it had before [confirmAssignments],
    although it was stored as confirmed in between, and each record
    [cleanupOldData] had removed is stored again. *)
Theorem selection_saves_the_document_of_its_selector data today day chore pid now assign :
  assignmentsByDate data !! today = Some day →
  assign ∈ [λ held, ScriptOps.assignManually held today chore pid;
            λ held, RefactoredOps.assignManually held today chore pid] →
  is_Some (assign data).1 →
  let page := renderAssignments today (mkPage data None) in
  Forall (λ confirm,
            let confirmed_page := withoutRendering confirm page in
            (∃ day1, assignmentsByDate (saved confirmed_page) !! today = Some day1 ∧
                     confirmed day1 = true) ∧
            ∃ day2, assignmentsByDate (saved (select assign today confirmed_page).1) !! today
                    = Some day2 ∧
                    confirmed day2 = confirmed day)
    [λ stored, (ScriptOps.confirmAssignments stored today).1;
     λ stored, (RefactoredOps.confirmAssignments stored today).1] ∧
  Forall (λ cleanup,
            let swept_page := withoutRendering cleanup page in
            ∀ d, d ≠ today →
              assignmentsByDate (saved (select assign today swept_page).1) !! d
              = assignmentsByDate data !! d)
    [λ stored, Script.cleanupOldData stored now;
     λ stored, (Refactored.cleanupOldData stored now).1].
Proof.
  intros Hday Has Hacc page.
  assert (recorded data today) as Hrec by (by exists day).
  assert (∀ handler,
            onlyTouches today data
              (saved (select assign today (withoutRendering handler page)).1) ∧
            ∃ day', assignmentsByDate
                      (saved (select assign today (withoutRendering handler page)).1)
                      !! today = Some day' ∧ confirmed day' = confirmed day) as Hsel.
  { intros handler. eapply assign_keeps_flag; [done..|].
    by apply select_accepted. }
  split.
  - apply Forall_forall. intros confirm Hc. cbv zeta. split; [|apply Hsel].
    subst page. unfold withoutRendering, renderAssignments. cbn [saved].
    apply elem_of_cons in Hc as [->|Hc]; [|apply list_elem_of_singleton in Hc as ->].
    + rewrite (script_confirm_lookup _ _ _ Hday). cbn. rewrite lookup_insert_eq.
      by eexists.
    + rewrite (refactored_confirm_lookup _ _ _ Hday). cbn. rewrite lookup_insert_eq.
      by eexists.
  - apply Forall_forall. intros cleanup _. cbv zeta. intros d Hne.
    destruct (Hsel cleanup) as [(_ & _ & Hother) _]. by apply Hother.
Qed.

Lemma selection_saves_witness :
  assignmentsByDate tidyHistory !! "2024-03-10" = Some (mkDay ["A"; "B"; "C"] ∅ false) ∧
  is_Some (ScriptOps.assignManually tidyHistory "2024-03-10" (mkChore "c1" "Dishes") "A").1 ∧
  let assign := λ held, ScriptOps.assignManually held "2024-03-10" (mkChore "c1" "Dishes") "A" in
  let page := renderAssignments "2024-03-10" (mkPage tidyHistory None) in
  Forall (λ confirm,
            let confirmed_page := withoutRendering confirm page in
            (∃ day1, assignmentsByDate (saved confirmed_page) !! "2024-03-10" = Some day1 ∧
                     confirmed day1 = true) ∧
            ∃ day2, assignmentsByDate (saved (select assign "2024-03-10" confirmed_page).1)
                      !! "2024-03-10" = Some day2 ∧
                    confirmed day2 = confirmed (mkDay ["A"; "B"; "C"] ∅ false))
    [λ stored, (ScriptOps.confirmAssignments stored "2024-03-10").1;
     λ stored, (RefactoredOps.confirmAssignments stored "2024-03-10").1] ∧
  Forall (λ cleanup,
            let swept_page := withoutRendering cleanup page in
            ∀ d, d ≠ "2024-03-10" →
              assignmentsByDate (saved (select assign "2024-03-10" swept_page).1) !! d
              = assignmentsByDate tidyHistory !! d)
    [λ stored, Script.cleanupOldData stored (utcClock noonJan31);
     λ stored, (Refactored.cleanupOldData stored (utcClock noonJan31)).1].
Proof.
  split; [reflexivity|]. split; [by eexists; vm_compute|].
  apply (selection_saves_the_document_of_its_selector tidyHistory "2024-03-10"
           (mkDay ["A"; "B"; "C"] ∅ false) (mkChore "c1" "Dishes") "A"
           (utcClock noonJan31)).
  - reflexivity.
  - by left.
  - by eexists; vm_compute.
Defined.

Section toggles.
Implicit Types (data : Data) (today pid : string) (day : DayRecord).

(** The array both versions of [toggleAvailability] store. *)
Lemma toggled_ids_spec (ids : list string) pid (available : bool) :
  let ids' :=
    if available && negb (bool_decide (pid ∈ ids)) then (ids ++ [pid])%list else ids in
  let ids'' := if negb available then filter (λ id, id ≠ pid) ids' else ids' in
  (pid ∈ ids'' ↔ available = true) ∧
  (∀ p, p ≠ pid → p ∈ ids'' ↔ p ∈ ids) ∧
  (available = true → pid ∈ ids → ids'' = ids) ∧
  (available = false → pid ∉ ids → ids'' = ids).
Proof.
  cbv zeta. destruct available; cbn [andb negb].
  - destruct (bool_decide_reflect (pid ∈ ids)) as [Hin|Hout]; cbn [negb].
    + split; [done|]. split; [done|]. done.
    + split; [split; [done|set_solver]|]. split; [set_solver|]. done.
  - split; [split; [by intros [? _]%list_elem_of_filter|done]|].
    split; [intros p Hne; rewrite list_elem_of_filter; naive_solver|].
    split; [done|]. intros _ Hout. apply filter_all, Forall_forall.
    intros x Hx ->. done.
Qed.

Lemma refactored_toggle_lookup data today pid available day :
  assignmentsByDate data !! today = Some day →
  assignmentsByDate (RefactoredOps.toggleAvailability data today pid available) !! today
  = Some
      (let ids := availablePersonIds day in
       let ids :=
         if available && negb (bool_decide (pid ∈ ids)) then (ids ++ [pid])%list
         else ids in
       if negb available then
         {| availablePersonIds := filter (λ id, id ≠ pid) ids;
            assignments := filter (λ cp, cp.2 ≠ pid) (assignments day);
            confirmed := confirmed day |}
       else withAvailable day ids).
Proof.
  intros Hday. unfold RefactoredOps.toggleAvailability. rewrite Hday. cbn.
  by rewrite lookup_insert_eq.
Qed.

End toggles.

(** X20. [toggleAvailability(personId, available)] changes the membership
    of that one person in today's availability array and of nobody else:
    afterwards the person is in the array exactly when [available] is set,
    every other id is in it exactly when it was, and a toggle that asks for
    the state the person is already in leaves the array as it was.  Both
    versions store the same array; the one of script.js leaves today's
    assignments and confirmation flag alone. *)
Theorem toggle_changes_one_membership data today pid available day :
  assignmentsByDate data !! today = Some day →
  ∃ ids,
    ScriptOps.toggleAvailability data today pid available
    = Some (withDays data (<[today := withAvailable day ids]> (assignmentsByDate data))) ∧
    availableOn (RefactoredOps.toggleAvailability data today pid available) today = ids ∧
    (pid ∈ ids ↔ available = true) ∧
    (∀ p, p ≠ pid → p ∈ ids ↔ p ∈ availablePersonIds day) ∧
    (available = true → pid ∈ availablePersonIds day → ids = availablePersonIds day) ∧
    (available = false → pid ∉ availablePersonIds day → ids = availablePersonIds day).
Proof.
  intros Hday.
  pose proof (toggled_ids_spec (availablePersonIds day) pid available) as Hspec.
  cbv zeta in Hspec. eexists. split; [|split; [|exact Hspec]].
  - unfold ScriptOps.toggleAvailability. rewrite Hday. cbn. done.
  - unfold availableOn. rewrite (refactored_toggle_lookup _ _ _ _ _ Hday). cbv zeta.
    by destruct available.
Qed.

Lemma toggle_changes_one_membership_witness :
  assignmentsByDate tidyHistory !! "2024-03-09"
  = Some (mkDay ["A"; "B"] {[ "c1" := "A"; "c2" := "B" ]} true) ∧
  ∃ ids,
    ScriptOps.toggleAvailability tidyHistory "2024-03-09" "C" true
    = Some (withDays tidyHistory
              (<["2024-03-09" :=
                   withAvailable (mkDay ["A"; "B"] {[ "c1" := "A"; "c2" := "B" ]} true) ids]>
                 (assignmentsByDate tidyHistory))) ∧
    availableOn (RefactoredOps.toggleAvailability tidyHistory "2024-03-09" "C" true)
                "2024-03-09" = ids ∧
    ("C" ∈ ids ↔ true = true) ∧
    (∀ p, p ≠ "C" → p ∈ ids ↔ p ∈ ["A"; "B"]) ∧
    (true = true → "C" ∈ ["A"; "B"] → ids = ["A"; "B"]) ∧
    (true = false → "C" ∉ ["A"; "B"] → ids = ["A"; "B"]).
Proof.
  split; [reflexivity|].
  apply (toggle_changes_one_membership tidyHistory "2024-03-09" "C" true
           (mkDay ["A"; "B"] {[ "c1" := "A"; "c2" := "B" ]} true)).
  reflexivity.
Defined.

(** X21. What script.js does when what it dereferences is missing.  Its
    toggle needs a record for today: it fails (and saves nothing) exactly
    when there is none, where the refactored one returns without a change.
    [renderAll] of either version always leaves a record for today, so a
    toggle that follows a rendering never fails.  Its renamings need an
    item with the id: they fail (and save nothing) exactly when no chore,
    or no person, has it, where the refactored ones return without a
    change and without a message. *)
Theorem script_handlers_fail_exactly_on_what_is_missing
    toLowerCase data today pid available id name :
  (ScriptOps.toggleAvailability data today pid available = None ↔ ¬ recorded data today) ∧
  (recorded data today ∨ RefactoredOps.toggleAvailability data today pid available = data) ∧
  recorded (ScriptOps.renderAll data today) today ∧
  recorded (RefactoredOps.renderAll data today) today ∧
  is_Some (ScriptOps.toggleAvailability (ScriptOps.renderAll data today) today pid available) ∧
  (ScriptOps.renameChore data id name = None ↔ id ∉ chore_id <$> chores data) ∧
  (ScriptOps.renamePerson data id name = None ↔ id ∉ person_id <$> people data) ∧
  (id ∈ chore_id <$> chores data
   ∨ RefactoredOps.renameChore toLowerCase data today id name = (data, [])) ∧
  (id ∈ person_id <$> people data
   ∨ RefactoredOps.renamePerson toLowerCase data today id name = (data, [])).
Proof.
  assert (∀ data', ScriptOps.toggleAvailability data' today pid available = None
                   ↔ ¬ recorded data' today) as Hfail.
  { intros data'. unfold ScriptOps.toggleAvailability, recorded.
    destruct (assignmentsByDate data' !! today) as [day|]; cbn.
    - split; [done|]. intros []. by eexists.
    - split; [|done]. intros _ [? ?]. done. }
  assert (recorded (ScriptOps.renderAll data today) today) as Hrec.
  { unfold ScriptOps.renderAll, ScriptOps.renderAvailability.
    apply normalize_recorded. by left. }
  split; [apply Hfail|]. split; [|split; [done|split; [|split]]].
  - unfold RefactoredOps.toggleAvailability, recorded.
    destruct (assignmentsByDate data !! today); [left; by eexists|by right].
  - apply normalize_recorded. by left.
  - destruct (ScriptOps.toggleAvailability (ScriptOps.renderAll data today) today pid
                available) eqn:Hto; [by eexists|].
    by apply Hfail in Hto.
  - pose proof (renamedFirst_None chore_id (λ c name, mkChore (chore_id c) name)
                  (chores data) id name) as Hc.
    pose proof (renamedFirst_None person_id (λ p name, mkPerson (person_id p) name)
                  (people data) id name) as Hp.
    fold (renamedChore (chores data) id name) in Hc.
    fold (renamedPerson (people data) id name) in Hp.
    unfold ScriptOps.renameChore, ScriptOps.renamePerson,
      RefactoredOps.renameChore, RefactoredOps.renamePerson.
    rewrite !fmap_None.
    split; [done|]. split; [done|]. split.
    + destruct (renamedChore (chores data) id name) eqn:Hre; [|by right].
      left. destruct (decide (id ∈ chore_id <$> chores data)) as [|Hno]; [done|].
      apply Hc in Hno. congruence.
    + destruct (renamedPerson (people data) id name) eqn:Hre; [|by right].
      left. destruct (decide (id ∈ person_id <$> people data)) as [|Hno]; [done|].
      apply Hp in Hno. congruence.
Qed.

(** X22. Switching off a person who holds a chore today.  script.js takes
    them out of the availability array and leaves the assignment: the
    stored record then assigns a chore to a person it lists as
    unavailable.  The refactored version removes their assignments with
    them, and keeps every assignment of anybody else. *)
Theorem switching_off_an_assignee data today pid day c :
  assignmentsByDate data !! today = Some day →
  assignments day !! c = Some pid →
  (∃ after, ScriptOps.toggleAvailability data today pid false = Some after ∧
            assignmentsOn after today !! c = Some pid ∧
            pid ∉ availableOn after today) ∧
  let after := RefactoredOps.toggleAvailability data today pid false in
  (pid ∉ availableOn after today) ∧
  ¬ assignedOn after today pid ∧
  ∀ c' p, p ≠ pid → assignmentsOn after today !! c' = Some p ↔ assignments day !! c' = Some p.
Proof.
  intros Hday Hc. split.
  - eexists. split; [unfold ScriptOps.toggleAvailability; rewrite Hday; cbn; done|].
    unfold assignmentsOn, availableOn. cbn. rewrite lookup_insert_eq. cbn.
    split; [done|]. by intros [? _]%list_elem_of_filter.
  - cbv zeta. unfold assignmentsOn, availableOn, assignedOn.
    rewrite (refactored_toggle_lookup _ _ _ _ _ Hday). cbn.
    split; [by intros [? _]%list_elem_of_filter|]. split.
    + intros (day' & c' & [= <-] & Hc'). cbn in Hc'.
      by apply map_lookup_filter_Some in Hc' as [_ ?].
    + intros c' p Hne. rewrite map_lookup_filter_Some. cbn. naive_solver.
Qed.

Lemma switching_off_an_assignee_witness :
  assignmentsByDate tidyHistory !! "2024-03-09"
  = Some (mkDay ["A"; "B"] {[ "c1" := "A"; "c2" := "B" ]} true) ∧
  assignments (mkDay ["A"; "B"] {[ "c1" := "A"; "c2" := "B" ]} true) !! "c1" = Some "A" ∧
  (∃ after, ScriptOps.toggleAvailability tidyHistory "2024-03-09" "A" false = Some after ∧
            assignmentsOn after "2024-03-09" !! "c1" = Some "A" ∧
            "A" ∉ availableOn after "2024-03-09") ∧
  let after := RefactoredOps.toggleAvailability tidyHistory "2024-03-09" "A" false in
  ("A" ∉ availableOn after "2024-03-09") ∧
  ¬ assignedOn after "2024-03-09" "A" ∧
  ∀ c' p, p ≠ "A" →
    assignmentsOn after "2024-03-09" !! c' = Some p
    ↔ assignments (mkDay ["A"; "B"] {[ "c1" := "A"; "c2" := "B" ]} true) !! c' = Some p.
Proof.
  split; [reflexivity|]. split; [reflexivity|].
  apply (switching_off_an_assignee tidyHistory "2024-03-09" "A"
           (mkDay ["A"; "B"] {[ "c1" := "A"; "c2" := "B" ]} true) "c1");
    reflexivity.
Defined.

Section manual.
Implicit Types (data : Data) (today pid : string) (day : DayRecord).




End manual.



(** ** Further properties: retention and the history view *)

Section retention_more.
Implicit Types (data : Data) (days : gmap string DayRecord) (d : string) (cutoff : Z)
  (parse : string → option Z) (now : Clock).

Lemma sweep_is_filter parse cutoff days :
  (sweep parse cutoff days).1 = filter (λ kv, olderThan parse cutoff kv.1 = false) days.
Proof.
  apply map_eq. intros d. rewrite sweep_lookup. symmetry.
  destruct (olderThan parse cutoff d) eqn:Hold.
  - apply map_lookup_filter_None. right. intros day _. cbn. by rewrite Hold.
  - destruct (days !! d) as [day|] eqn:Hday.
    + by apply map_lookup_filter_Some.
    + apply map_lookup_filter_None. by left.
Qed.

Lemma sweep_fold_count parse cutoff (keys : list string)
    (acc : gmap string DayRecord * nat) :
  (foldl (λ acc date,
            if olderThan parse cutoff date then (delete date acc.1, S acc.2) else acc)
         acc keys).2
  = acc.2 + length (filter (λ d, olderThan parse cutoff d = true) keys).
Proof.
  revert acc. induction keys as [|k keys IH]; intros acc; [cbn; lia|].
  cbn [foldl]. rewrite IH, filter_cons.
  destruct (olderThan parse cutoff k) eqn:Hk; cbn [snd].
  - rewrite decide_True by done. cbn. lia.
  - by rewrite decide_False by done.
Qed.

Lemma sweep_count parse cutoff days :
  (sweep parse cutoff days).2
  = length (filter (λ d, olderThan parse cutoff d = true) (objectKeys days)).
Proof. unfold sweep. by rewrite sweep_fold_count. Qed.

Lemma size_split_keys {V} (f : string → bool) (m : gmap string V) :
  size m = size (filter (λ kv : string * V, f kv.1 = false) m)
           + length (filter (λ d, f d = true) (objectKeys m)).
Proof.
  induction m as [|i x m Hi IH] using map_ind.
  - rewrite map_filter_empty, map_size_empty. unfold objectKeys.
    by rewrite map_to_list_empty.
  - unfold objectKeys in *. rewrite map_to_list_insert by done.
    rewrite fmap_cons, filter_cons. cbn [fst].
    rewrite map_size_insert_None by done.
    destruct (f i) eqn:Hfi.
    + rewrite decide_True by done.
      rewrite map_filter_insert_False by (cbn; congruence).
      rewrite delete_id by done. cbn [length]. lia.
    + rewrite decide_False by done.
      rewrite map_filter_insert_True by done.
      rewrite map_size_insert_None by (apply map_lookup_filter_None; by left). lia.
Qed.

Lemma sweep_size parse cutoff days :
  size days = size (sweep parse cutoff days).1 + (sweep parse cutoff days).2.
Proof. rewrite sweep_is_filter, sweep_count. apply size_split_keys. Qed.

Lemma olderThan_mono parse cutoff1 cutoff2 d :
  (cutoff1 ≤ cutoff2)%Z →
  olderThan parse cutoff1 d = true → olderThan parse cutoff2 d = true.
Proof.
  unfold olderThan. destruct (dateTime parse d) as [t|]; [|done].
  rewrite !Z.ltb_lt. lia.
Qed.

Lemma sweep_sweep parse cutoff1 cutoff2 days :
  (cutoff1 ≤ cutoff2)%Z →
  (sweep parse cutoff2 (sweep parse cutoff1 days).1).1 = (sweep parse cutoff2 days).1.
Proof.
  intros Hle. apply map_eq. intros d. rewrite !sweep_lookup.
  destruct (olderThan parse cutoff2 d) eqn:H2; [done|].
  destruct (olderThan parse cutoff1 d) eqn:H1; [|done].
  apply (olderThan_mono _ _ _ _ Hle) in H1. congruence.
Qed.

Lemma notOlderThan_spec parse cutoff d :
  notOlderThan parse cutoff d = true ↔ ∃ t, dateTime parse d = Some t ∧ (cutoff ≤ t)%Z.
Proof.
  unfold notOlderThan. destruct (dateTime parse d) as [t|].
  - rewrite Z.leb_le. naive_solver.
  - naive_solver.
Qed.

Lemma olderThan_false parse cutoff d :
  olderThan parse cutoff d = false
  ↔ dateTime parse d = None ∨ ∃ t, dateTime parse d = Some t ∧ (cutoff ≤ t)%Z.
Proof.
  unfold olderThan. destruct (dateTime parse d) as [t|].
  - rewrite Z.ltb_ge. naive_solver.
  - naive_solver.
Qed.

Lemma elem_of_historyDates data now d :
  d ∈ historyDates data now
  ↔ recorded data d ∧
    ∃ t, dateTime (parseOther now) d = Some t ∧ (cutoffTime now ≤ t)%Z.
Proof.
  unfold historyDates, recorded.
  rewrite elem_of_reverse, merge_sort_Permutation, list_elem_of_filter.
  rewrite elem_of_objectKeys, notOlderThan_spec. tauto.
Qed.

Lemma NoDup_historyDates data now : NoDup (historyDates data now).
Proof.
  unfold historyDates. rewrite reverse_Permutation, merge_sort_Permutation.
  apply NoDup_filter, NoDup_objectKeys.
Qed.

Lemma historyDates_sorted data now :
  StronglySorted (flip String.le) (historyDates data now).
Proof.
  unfold historyDates. apply Sorted_StronglySorted; [apply _|].
  apply Sorted_reverse, Sorted_merge_sort; apply _.
Qed.

Lemma flip_le_antisymmetric : AntiSymm (=) (flip String.le).
Proof. intros x y Hxy Hyx. by apply (anti_symm String.le). Qed.

Lemma cleanup_recorded data now d :
  recorded (Script.cleanupOldData data now) d
  ↔ recorded data d ∧ olderThan (parseOther now) (cutoffTime now) d = false.
Proof.
  unfold recorded, Script.cleanupOldData. cbn. rewrite sweep_lookup.
  destruct (olderThan (parseOther now) (cutoffTime now) d).
  - split; [by intros [? ?]|by intros [_ ?]].
  - tauto.
Qed.

(** Where the offset does not change, a later clock has a later cutoff. *)
Lemma cutoffTime_mono now1 now2 tz :
  (∀ t, offsetAt now1 t = tz ∧ offsetAt now2 t = tz ∧
        offsetOfLocal now1 t = tz ∧ offsetOfLocal now2 t = tz) →
  (getTime now1 ≤ getTime now2)%Z → (cutoffTime now1 ≤ cutoffTime now2)%Z.
Proof.
  intros Htz Hle. unfold cutoffTime, localTime.
  destruct (Htz (getTime now1)) as (-> & _ & _ & _).
  destruct (Htz (getTime now2)) as (_ & -> & _ & _).
  destruct (Htz (getTime now1 + tz - HISTORY_RETENTION_DAYS * msPerDay)%Z)
    as (_ & _ & -> & _).
  destruct (Htz (getTime now2 + tz - HISTORY_RETENTION_DAYS * msPerDay)%Z)
    as (_ & _ & _ & ->).
  lia.
Qed.

End retention_more.

(** X24. [cleanupOldData] removes exactly the records whose key the engine
    reads as an instant before the cutoff and nothing else: the stored map
    afterwards is the old one restricted to the other keys, every record
    that is kept is unchanged, a key the engine reads as no date is never
    removed, and the chore and people lists are untouched.  The count the
    refactored version reports is the number of records that went: the
    size of the map before, less its size afterwards. *)
Theorem cleanup_removes_old_records_and_counts_them data now :
  let after := Script.cleanupOldData data now in
  let report := Refactored.cleanupOldData data now in
  report.1 = after ∧
  chores after = chores data ∧ people after = people data ∧
  assignmentsByDate after
  = filter (λ kv, olderThan (parseOther now) (cutoffTime now) kv.1 = false)
           (assignmentsByDate data) ∧
  (∀ d day, assignmentsByDate after !! d = Some day → assignmentsByDate data !! d = Some day) ∧
  (∀ d, dateTime (parseOther now) d = None →
        assignmentsByDate after !! d = assignmentsByDate data !! d) ∧
  size (assignmentsByDate data) = size (assignmentsByDate after) + report.2.
Proof.
  cbv zeta. unfold Script.cleanupOldData, Refactored.cleanupOldData.
  cbn [fst snd chores people assignmentsByDate withDays].
  split; [done|]. split; [done|]. split; [done|]. split; [apply sweep_is_filter|].
  split; [|split; [|apply sweep_size]].
  - intros d day. rewrite sweep_lookup. by destruct (olderThan _ _ d).
  - intros d Hd. rewrite sweep_lookup. unfold olderThan. by rewrite Hd.
Qed.

(** X25. Sweeps compose.  On one engine, a sweep after a sweep with an
    earlier (or the same) cutoff leaves the same document as the later
    sweep alone, and the two counts reported add up to the count of the
    later sweep alone.  In particular a second sweep at the same clock
    changes nothing and reports zero.  The order is that of the cutoffs: a
    later clock has a later cutoff where the local offset stays the same,
    not always where clocks change in between. *)
Theorem cleanup_after_cleanup data now1 now2 :
  parseOther now1 = parseOther now2 →
  (cutoffTime now1 ≤ cutoffTime now2)%Z →
  let first := Refactored.cleanupOldData data now1 in
  let second := Refactored.cleanupOldData first.1 now2 in
  let once := Refactored.cleanupOldData data now2 in
  second.1 = once.1 ∧
  first.2 + second.2 = once.2 ∧
  Script.cleanupOldData (Script.cleanupOldData data now1) now2
  = Script.cleanupOldData data now2 ∧
  Refactored.cleanupOldData first.1 now1 = (first.1, 0).
Proof.
  intros Hparse Hcut. cbv zeta.
  unfold Script.cleanupOldData, Refactored.cleanupOldData.
  cbn [fst snd chores people assignmentsByDate withDays]. rewrite Hparse.
  set (parse := parseOther now2).
  pose proof (sweep_sweep parse _ _ (assignmentsByDate data) Hcut) as H12.
  pose proof (sweep_sweep parse (cutoffTime now1) (cutoffTime now1) (assignmentsByDate data)
                ltac:(lia)) as H11.
  pose proof (sweep_size parse (cutoffTime now1) (assignmentsByDate data)) as Hs1.
  pose proof (sweep_size parse (cutoffTime now2) (assignmentsByDate data)) as Hs2.
  pose proof (sweep_size parse (cutoffTime now2)
                (sweep parse (cutoffTime now1) (assignmentsByDate data)).1) as Hs12.
  pose proof (sweep_size parse (cutoffTime now1)
                (sweep parse (cutoffTime now1) (assignmentsByDate data)).1) as Hs11.
  rewrite H12 in Hs12. rewrite H11 in Hs11.
  split; [by rewrite H12|]. split; [lia|]. split; [by rewrite H12|].
  unfold withDays; cbn. rewrite H11. f_equal. lia.
Qed.

Lemma cleanup_after_cleanup_witness :
  parseOther (utcClock (noonJan31 - msPerDay)) = parseOther (utcClock noonJan31) ∧
  (cutoffTime (utcClock (noonJan31 - msPerDay)) ≤ cutoffTime (utcClock noonJan31))%Z ∧
  let first := Refactored.cleanupOldData monthOld (utcClock (noonJan31 - msPerDay)) in
  let second := Refactored.cleanupOldData first.1 (utcClock noonJan31) in
  let once := Refactored.cleanupOldData monthOld (utcClock noonJan31) in
  second.1 = once.1 ∧
  first.2 + second.2 = once.2 ∧
  Script.cleanupOldData (Script.cleanupOldData monthOld (utcClock (noonJan31 - msPerDay)))
    (utcClock noonJan31)
  = Script.cleanupOldData monthOld (utcClock noonJan31) ∧
  Refactored.cleanupOldData first.1 (utcClock (noonJan31 - msPerDay)) = (first.1, 0).
Proof.
  split; [reflexivity|]. split; [by vm_compute|].
  apply (cleanup_after_cleanup monthOld (utcClock (noonJan31 - msPerDay))
           (utcClock noonJan31)); [reflexivity|by vm_compute].
Defined.

(** X26. The history view and the sweep use the same cutoff.  When the
    clock reads [now], [renderHistory] lists exactly the recorded keys the
    engine reads as an instant at or after the cutoff, each once, most
    recent first.  What a sweep at the same clock keeps is what the view
    lists together with the records whose key the engine reads as no date:
    those are never swept and never listed.  Sweeping does not change the
    list. *)
Theorem history_lists_what_the_sweep_keeps data now :
  let shown := historyDates data now in
  let swept := Script.cleanupOldData data now in
  (∀ d, d ∈ shown
        ↔ recorded data d ∧
          ∃ t, dateTime (parseOther now) d = Some t ∧ (cutoffTime now ≤ t)%Z) ∧
  NoDup shown ∧
  (∀ i j d1 d2, i < j → shown !! i = Some d1 → shown !! j = Some d2 → dateBefore d2 d1) ∧
  (∀ d, recorded swept d
        ↔ d ∈ shown ∨ (recorded data d ∧ dateTime (parseOther now) d = None)) ∧
  historyDates swept now = shown.
Proof.
  cbv zeta.
  assert (∀ d, recorded (Script.cleanupOldData data now) d
               ↔ d ∈ historyDates data now
                 ∨ (recorded data d ∧ dateTime (parseOther now) d = None))
    as Hkept.
  { intros d. rewrite cleanup_recorded, elem_of_historyDates, olderThan_false. tauto. }
  split; [apply elem_of_historyDates|]. split; [apply NoDup_historyDates|].
  split; [|split; [done|]].
  - intros i j d1 d2 Hij H1 H2. apply le_ne_dateBefore.
    + apply (StronglySorted_lookup_lt _ _ i j d1 d2 (historyDates_sorted data now)); done.
    + intros ->. pose proof (NoDup_historyDates data now) as Hnd.
      rewrite NoDup_alt in Hnd. specialize (Hnd _ _ _ H1 H2). lia.
  - pose proof flip_le_antisymmetric as Hanti.
    apply (StronglySorted_unique (flip String.le)); try apply historyDates_sorted.
    apply NoDup_Permutation; try apply NoDup_historyDates.
    intros d. rewrite (elem_of_historyDates (Script.cleanupOldData data now)).
    rewrite Hkept, elem_of_historyDates. split; [|tauto].
    intros [[?|[_ Hnone]] (t & Ht & ?)]; [tauto|congruence].
Qed.

(** ** Further properties: assignees and availability *)

Section assignees.
Implicit Types (data : Data) (today pid : string).

(** The toggles that are left out are handler calls, and do break the
    property. *)
Lemma switchesOffAnAssignee_step data data' :
  switchesOffAnAssignee data data' → handlerStep data data'.
Proof. intros (today & pid & day & c & _ & _ & Hto). by eapply step_script_toggle. Qed.

Lemma switchesOffAnAssignee_breaks data data' :
  switchesOffAnAssignee data data' → ¬ assigneesAvailableEveryDay data'.
Proof.
  intros (today & pid & day & c & Hday & Hc & Hto) Hall.
  unfold ScriptOps.toggleAvailability in Hto. rewrite Hday in Hto. cbn in Hto.
  injection Hto as <-.
  assert (assignmentsByDate
            (withDays data
               (<[today := withAvailable day
                             (filter (λ id, id ≠ pid) (availablePersonIds day))]>
                  (assignmentsByDate data))) !! today
          = Some (withAvailable day (filter (λ id, id ≠ pid) (availablePersonIds day))))
    as Hnew by (cbn; apply lookup_insert_eq).
  destruct (Hall _ _ Hnew) as [_ Ha]. apply Ha in Hc. cbn in Hc.
  by apply list_elem_of_filter in Hc as [? _].
Qed.

Lemma switchesOnAStranger_breaks_availability data data' :
  switchesOnAStranger data data' → ¬ assigneesAvailableEveryDay data'.
Proof.
  intros Hsw Hall. apply (switchesOnAStranger_breaks _ _ Hsw).
  intros d day Hd. by destruct (Hall d day Hd).
Qed.

Lemma handlerStep_other data data' :
  handlerStep data data' → assigneesAvailableEveryDay data' → otherStep data data'.
Proof.
  intros Hstep Hall. split; [done|]. split; intros Hsw.
  - by apply switchesOffAnAssignee_breaks in Hsw.
  - by apply switchesOnAStranger_breaks_availability in Hsw.
Qed.

Lemma tidyHistory_assigneesAvailable : assigneesAvailableEveryDay tidyHistory.
Proof.
  intros d day Hd. split; [by apply (tidyHistory_referentialIntegrity d day)|].
  unfold tidyHistory in Hd. cbn [assignmentsByDate] in Hd.
  apply lookup_insert_Some in Hd as [[_ <-]|[_ Hd]];
    [|apply lookup_singleton_Some in Hd as [_ <-]]; intros c p; cbn.
  - intros Hcp. apply lookup_insert_Some in Hcp as [[_ <-]|[_ Hcp]]; [set_solver|].
    apply lookup_singleton_Some in Hcp as [_ <-]. set_solver.
  - by rewrite lookup_empty.
Qed.

Lemma tidyHistory_other_steps :
  rtc otherStep tidyHistory
    (stored (Script.generateAssignments
               (RefactoredOps.toggleAvailability tidyHistory "2024-03-09" "A" false)
               "2024-03-10" (λ _, 0))).
Proof.
  pose proof (holds_refactored_switch_off assigneesAreAvailable tidyHistory "2024-03-09" "A"
                tidyHistory_assigneesAvailable) as H1.
  eapply rtc_l; [|apply rtc_once].
  - apply handlerStep_other; [apply step_refactored_toggle|done].
  - apply handlerStep_other; [apply step_script_generate|].
    apply (holds_generate assigneesAreAvailable
             (RefactoredOps.toggleAvailability tidyHistory "2024-03-09" "A" false)
             "2024-03-10" (λ _, 0)); [set_solver|done].
Qed.

End assignees.

(** X27. Whoever holds a chore is available that day, and stays so.  On a
    document where every id is current and, on every day, every person who
    holds a chore is in the availability array of that day, this is still
    the case after any sequence of handler calls of either version
    (rendering, generation, toggles, manual selection, confirmation,
    adding, renaming, deleting, the sweep) in which the toggle of script.js
    never switches off a person who holds a chore today and no toggle
    switches on an id that is not the id of a person of the document.  Both
    of these are handler calls, and each breaks the property: script.js
    leaves the assignment where the refactored toggle removes it, and
    either version appends whatever id it is given. *)
Theorem assignees_stay_available_unless_switched_off data data' :
  rtc otherStep data data' →
  assigneesAvailableEveryDay data →
  assigneesAvailableEveryDay data' ∧
  (∀ data'', switchesOffAnAssignee data' data'' →
     handlerStep data' data'' ∧ ¬ assigneesAvailableEveryDay data'') ∧
  (∀ data'', switchesOnAStranger data' data'' →
     handlerStep data' data'' ∧ ¬ assigneesAvailableEveryDay data'').
Proof.
  intros Hsteps Hall. split; [by apply (holds_other_steps assigneesAreAvailable data)|].
  split; intros data'' Hsw.
  - split; [by apply switchesOffAnAssignee_step|].
    by apply (switchesOffAnAssignee_breaks data').
  - split; [by apply switchesOnAStranger_step|].
    by apply (switchesOnAStranger_breaks_availability data').
Qed.

Lemma assignees_stay_available_witness :
  let after :=
    stored (Script.generateAssignments
              (RefactoredOps.toggleAvailability tidyHistory "2024-03-09" "A" false)
              "2024-03-10" (λ _, 0)) in
  assigneesAvailableEveryDay tidyHistory ∧
  assigneesAvailableEveryDay after ∧
  (∀ data'', switchesOffAnAssignee after data'' →
     handlerStep after data'' ∧ ¬ assigneesAvailableEveryDay data'') ∧
  (∀ data'', switchesOnAStranger after data'' →
     handlerStep after data'' ∧ ¬ assigneesAvailableEveryDay data'').
Proof.
  split; [exact tidyHistory_assigneesAvailable|].
  exact (assignees_stay_available_unless_switched_off _ _ tidyHistory_other_steps
           tidyHistory_assigneesAvailable).
Defined.

(** X28. Confirmation locks the engine only.  On a day that has a record,
    both versions of [confirmAssignments] store the same thing, the flag
    set; and the availability toggle and the manual selection of either
    version do on the confirmed document exactly what they do on the open
    one, the flag staying set: they accept and refuse the same requests,
    show the same messages and make the same change to the record. *)
Theorem confirmation_locks_only_the_engine data today day chore pid available :
  assignmentsByDate data !! today = Some day →
  let confirm := λ d : Data, (ScriptOps.confirmAssignments d today).1 in
  (RefactoredOps.confirmAssignments data today).1 = confirm data ∧
  ScriptOps.toggleAvailability (confirm data) today pid available
  = confirm <$> ScriptOps.toggleAvailability data today pid available ∧
  RefactoredOps.toggleAvailability (confirm data) today pid available
  = confirm (RefactoredOps.toggleAvailability data today pid available) ∧
  ScriptOps.assignManually (confirm data) today chore pid
  = prod_map (fmap confirm) id (ScriptOps.assignManually data today chore pid) ∧
  RefactoredOps.assignManually (confirm data) today chore pid
  = prod_map (fmap confirm) id (RefactoredOps.assignManually data today chore pid).
Proof.
  intros Hday. cbv zeta.
  rewrite (refactored_confirm_lookup _ _ _ Hday), (script_confirm_lookup _ _ _ Hday).
  split; [done|].
  assert (∀ day', (ScriptOps.confirmAssignments
                     (withDays data (<[today := day']> (assignmentsByDate data))) today).1
                  = withDays data (<[today := withConfirmed day']> (assignmentsByDate data)))
    as Hconfirm.
  { intros day'. unfold ScriptOps.confirmAssignments. cbn.
    rewrite lookup_insert_eq. cbn. by rewrite insert_insert_eq. }
  split; [|split; [|split]].
  - unfold ScriptOps.toggleAvailability. rewrite Hday. cbn.
    rewrite lookup_insert_eq. cbn. rewrite insert_insert_eq, Hconfirm. done.
  - unfold RefactoredOps.toggleAvailability. rewrite Hday. cbn.
    rewrite lookup_insert_eq. cbn. rewrite insert_insert_eq, Hconfirm.
    by destruct available.
  - unfold ScriptOps.assignManually. rewrite Hday. cbn.
    rewrite lookup_insert_eq. cbn.
    repeat case_decide; cbn; try done. by rewrite insert_insert_eq, Hconfirm.
  - unfold RefactoredOps.assignManually. rewrite Hday. cbn.
    rewrite lookup_insert_eq. cbn.
    repeat case_decide; cbn; try done; by rewrite insert_insert_eq, Hconfirm.
Qed.

Lemma confirmation_locks_only_the_engine_witness :
  assignmentsByDate tidyHistory !! "2024-03-10" = Some (mkDay ["A"; "B"; "C"] ∅ false) ∧
  let confirm := λ d : Data, (ScriptOps.confirmAssignments d "2024-03-10").1 in
  (RefactoredOps.confirmAssignments tidyHistory "2024-03-10").1 = confirm tidyHistory ∧
  ScriptOps.toggleAvailability (confirm tidyHistory) "2024-03-10" "C" false
  = confirm <$> ScriptOps.toggleAvailability tidyHistory "2024-03-10" "C" false ∧
  RefactoredOps.toggleAvailability (confirm tidyHistory) "2024-03-10" "C" false
  = confirm (RefactoredOps.toggleAvailability tidyHistory "2024-03-10" "C" false) ∧
  ScriptOps.assignManually (confirm tidyHistory) "2024-03-10" (mkChore "c1" "Dishes") "C"
  = prod_map (fmap confirm) id
      (ScriptOps.assignManually tidyHistory "2024-03-10" (mkChore "c1" "Dishes") "C") ∧
  RefactoredOps.assignManually (confirm tidyHistory) "2024-03-10" (mkChore "c1" "Dishes") "C"
  = prod_map (fmap confirm) id
      (RefactoredOps.assignManually tidyHistory "2024-03-10" (mkChore "c1" "Dishes") "C").
Proof.
  split; [reflexivity|].
  apply (confirmation_locks_only_the_engine tidyHistory "2024-03-10"
           (mkDay ["A"; "B"; "C"] ∅ false) (mkChore "c1" "Dishes") "C" false).
  reflexivity.
Defined.

(** ** Further properties: today's key *)

Section todays_key.
Implicit Types (data : Data) (now : Clock) (year month date : Z).

Lemma forallb_seqZ (f : Z → bool) (a len x : Z) :
  forallb f (seqZ a len) = true → (a ≤ x < a + len)%Z → f x = true.
Proof.
  intros Hall Hx. eapply (proj1 (forallb_forall f (seqZ a len))); [done|].
  apply list_elem_of_In, elem_of_seqZ. lia.
Qed.

(** A year of four digits is printed as four digits that read back. *)
Lemma decimal_year year :
  (1000 ≤ year ≤ 9999)%Z →
  ∃ a b c d, decimal year = [a; b; c; d] ∧ number [a; b; c; d] = Some year.
Proof.
  intros Hy.
  assert (forallb (λ y, match decimal y with
                        | [a; b; c; d] => bool_decide (number [a; b; c; d] = Some y)
                        | _ => false
                        end) (seqZ 1000 9000) = true) as Hall by (vm_compute; reflexivity).
  apply (forallb_seqZ _ _ _ year) in Hall; [|lia]. cbv beta in Hall.
  destruct (decimal year) as [|a [|b [|c [|d [|? ?]]]]]; try done.
  apply bool_decide_eq_true in Hall. by exists a, b, c, d.
Qed.

(** A month or a day of the month is padded to two digits that read back. *)
Lemma decimal_two n :
  (1 ≤ n ≤ 31)%Z →
  ∃ a b, padStart2 (decimal n) = [a; b] ∧ number [a; b] = Some n.
Proof.
  intros Hn.
  assert (forallb (λ k, match padStart2 (decimal k) with
                        | [a; b] => bool_decide (number [a; b] = Some k)
                        | _ => false
                        end) (seqZ 1 31) = true) as Hall by (vm_compute; reflexivity).
  apply (forallb_seqZ _ _ _ n) in Hall; [|lia]. cbv beta in Hall.
  destruct (padStart2 (decimal n)) as [|a [|b [|? ?]]]; try done.
  apply bool_decide_eq_true in Hall. by exists a, b.
Qed.

Lemma daysInMonth_le_31 year m : (daysInMonth year m ≤ 31)%Z.
Proof. unfold daysInMonth. repeat case_match; lia. Qed.

Lemma calendarDate_getLocalDateString year month date :
  (1000 ≤ year ≤ 9999)%Z → (0 ≤ month ≤ 11)%Z →
  (1 ≤ date ≤ daysInMonth year (month + 1))%Z →
  calendarDate (getLocalDateString year month date)
  = Some (daysFromCivil year (month + 1) date * msPerDay)%Z.
Proof.
  intros Hy Hm Hd. pose proof (daysInMonth_le_31 year (month + 1)) as H31.
  destruct (decimal_year year Hy) as (y1 & y2 & y3 & y4 & Hys & Hyn).
  destruct (decimal_two (month + 1)) as (m1 & m2 & Hms & Hmn); [lia|].
  destruct (decimal_two date) as (d1 & d2 & Hds & Hdn); [lia|].
  unfold calendarDate, getLocalDateString.
  rewrite list_ascii_of_string_of_list_ascii, Hys, Hms, Hds. cbn [app].
  rewrite decide_True by done. rewrite Hyn, Hmn, Hdn. cbn.
  destruct ((1 <=? month + 1)%Z && (month + 1 <=? 12)%Z && (1 <=? date)%Z
            && (date <=? daysInMonth year (month + 1))%Z) eqn:Hvalid; [done|].
  rewrite !andb_false_iff, !Z.leb_gt in Hvalid. lia.
Qed.

(** The midnight of a day at most 28 days before the local day of [now]
    is not before the cutoff. *)
Lemma recent_midnight_not_before_cutoff now n :
  (- msPerDay < offsetOfLocal now (localTime now - 30 * msPerDay))%Z →
  (localTime now / msPerDay - 28 ≤ n)%Z →
  (cutoffTime now ≤ n * msPerDay)%Z.
Proof.
  intros Htz Hn. pose proof (cutoffTime_local now) as Hcut.
  assert (0 < msPerDay)%Z as Hpos by done.
  pose proof (Z.div_mod (localTime now) msPerDay) as Hdm.
  pose proof (Z.mod_pos_bound (localTime now) msPerDay Hpos) as Hmod.
  nia.
Qed.

End todays_key.

(** X29. The key [getLocalDateString] builds reads back as the day it was
    built from.  For a local date with a year of four digits the key is
    [YYYY-MM-DD], and the sweep and the history view read it as the
    midnight (UTC) of that very day, on every engine.  Hence the record of
    today, and of any day at most 28 days before today's local date, is
    never removed by [cleanupOldData] of either version and is listed by
    [renderHistory] whenever it exists, at whatever time of day the call
    is made and whatever the local offsets, provided the offset in force
    at the cutoff is less than a day behind UTC. *)
Theorem recent_keys_read_back_and_survive data now year month date :
  (1000 ≤ year ≤ 9999)%Z → (0 ≤ month ≤ 11)%Z →
  (1 ≤ date ≤ daysInMonth year (month + 1))%Z →
  (- msPerDay < offsetOfLocal now (localTime now - 30 * msPerDay))%Z →
  (localTime now / msPerDay - 28 ≤ daysFromCivil year (month + 1) date)%Z →
  let key := getLocalDateString year month date in
  calendarDate key = Some (daysFromCivil year (month + 1) date * msPerDay)%Z ∧
  dateTime (parseOther now) key
  = Some (daysFromCivil year (month + 1) date * msPerDay)%Z ∧
  assignmentsByDate (Script.cleanupOldData data now) !! key
  = assignmentsByDate data !! key ∧
  assignmentsByDate (Refactored.cleanupOldData data now).1 !! key
  = assignmentsByDate data !! key ∧
  (key ∈ historyDates data now ↔ recorded data key).
Proof.
  intros Hy Hm Hd Htz Hrecent key.
  pose proof (calendarDate_getLocalDateString year month date Hy Hm Hd) as Hcal.
  pose proof (recent_midnight_not_before_cutoff now _ Htz Hrecent) as Hcut.
  fold key in Hcal.
  pose proof (dateTime_calendarDate (parseOther now) _ _ Hcal) as Hkey.
  assert (olderThan (parseOther now) (cutoffTime now) key = false) as Hold.
  { apply olderThan_false. right. eauto. }
  split; [done|]. split; [done|].
  unfold Script.cleanupOldData, Refactored.cleanupOldData. cbn [assignmentsByDate withDays fst].
  rewrite sweep_lookup, Hold. split; [done|]. split; [done|].
  rewrite elem_of_historyDates. split; [tauto|]. intros Hrec. split; [done|]. eauto.
Qed.

Lemma recent_keys_witness :
  (1000 ≤ 2024 ≤ 9999)%Z ∧ (0 ≤ 2 ≤ 11)%Z ∧ (1 ≤ 18 ≤ daysInMonth 2024 (2 + 1))%Z ∧
  (- msPerDay < offsetOfLocal londonApr15 (localTime londonApr15 - 30 * msPerDay))%Z ∧
  (localTime londonApr15 / msPerDay - 28 ≤ daysFromCivil 2024 (2 + 1) 18)%Z ∧
  getLocalDateString 2024 2 18 = "2024-03-18" ∧
  let key := getLocalDateString 2024 2 18 in
  calendarDate key = Some (daysFromCivil 2024 (2 + 1) 18 * msPerDay)%Z ∧
  dateTime (parseOther londonApr15) key
  = Some (daysFromCivil 2024 (2 + 1) 18 * msPerDay)%Z ∧
  assignmentsByDate (Script.cleanupOldData midMarch londonApr15) !! key
  = assignmentsByDate midMarch !! key ∧
  assignmentsByDate (Refactored.cleanupOldData midMarch londonApr15).1 !! key
  = assignmentsByDate midMarch !! key ∧
  (key ∈ historyDates midMarch londonApr15 ↔ recorded midMarch key).
Proof.
  split; [by vm_compute|]. split; [by vm_compute|]. split; [by vm_compute|].
  split; [by vm_compute|]. split; [by vm_compute|]. split; [reflexivity|].
  apply (recent_keys_read_back_and_survive midMarch londonApr15 2024 2 18);
    by vm_compute.
Defined.

(** ** Further properties: names *)

Section names_more.
Implicit Types (data : Data) (today id trimmed : string).

Lemma NoDup_fmap_snoc {A} (f : A → string) (l : list A) (x : A) :
  NoDup (f <$> l) → f x ∉ f <$> l → NoDup (f <$> (l ++ [x])%list).
Proof.
  intros Hl Hx. rewrite fmap_app. apply NoDup_app. split; [done|].
  split; [|apply NoDup_singleton].
  intros y Hy Hy'. cbn in Hy'. apply list_elem_of_singleton in Hy' as ->. done.
Qed.

Lemma namesDistinct_normalize toLowerCase data date :
  namesDistinct toLowerCase (normalizeAvailability data date)
  ↔ namesDistinct toLowerCase data.
Proof. unfold namesDistinct. by rewrite normalize_chores, normalize_people. Qed.

End names_more.

(** X30. The refactored [addChore], [addPerson], [renameChore] and
    [renamePerson] keep names distinct up to case.  On a document where no
    two chores and no two people share an id, and none share a name up to
    case, none do after any of the four calls, whichever name is asked for:
    a name that is taken is refused.  The renamings moreover change no
    id. *)
Theorem refactored_names_stay_distinct toLowerCase data today id trimmed :
  idsDistinct data → namesDistinct toLowerCase data →
  Forall (namesDistinct toLowerCase)
    [(RefactoredOps.addChore toLowerCase data id trimmed).1;
     (RefactoredOps.addPerson toLowerCase data today id trimmed).1;
     (RefactoredOps.renameChore toLowerCase data today id trimmed).1;
     (RefactoredOps.renamePerson toLowerCase data today id trimmed).1] ∧
  Forall (λ after, chore_id <$> chores after = chore_id <$> chores data ∧
                   person_id <$> people after = person_id <$> people data)
    [(RefactoredOps.renameChore toLowerCase data today id trimmed).1;
     (RefactoredOps.renamePerson toLowerCase data today id trimmed).1].
Proof.
  intros [Hcid Hpid] [Hcn Hpn]. split.
  - repeat apply Forall_cons_2; [| | | |done].
    + unfold RefactoredOps.addChore. repeat case_decide; cbn [fst]; [done|done|].
      split; [|done]. cbn. by apply NoDup_fmap_snoc.
    + unfold RefactoredOps.addPerson. repeat case_decide; cbn [fst]; [done|done|].
      apply namesDistinct_normalize. split; [done|]. cbn. by apply NoDup_fmap_snoc.
    + unfold RefactoredOps.renameChore.
      destruct (renamedChore (chores data) id trimmed) as [cs|] eqn:Hcs; [|done].
      repeat case_decide; cbn [fst]; [by apply namesDistinct_normalize..|].
      split; [|done]. cbn.
      apply (renamedFirst_NoDup chore_id (λ c name, mkChore (chore_id c) name)
               (λ c, toLowerCase (chore_name c)) (chores data) id trimmed);
        [done|done|done|].
      intros x y Hx Hy Hne _ Heq. cbn in Heq.
      match goal with H : _ ∉ _ |- _ => apply H end.
      apply list_elem_of_fmap. exists y. split; [done|]. by apply list_elem_of_filter.
    + unfold RefactoredOps.renamePerson.
      destruct (renamedPerson (people data) id trimmed) as [ps|] eqn:Hps; [|done].
      repeat case_decide; cbn [fst]; [by apply namesDistinct_normalize..|].
      apply namesDistinct_normalize. split; [done|]. cbn.
      apply (renamedFirst_NoDup person_id (λ p name, mkPerson (person_id p) name)
               (λ p, toLowerCase (person_name p)) (people data) id trimmed);
        [done|done|done|].
      intros x y Hx Hy Hne _ Heq. cbn in Heq.
      match goal with H : _ ∉ _ |- _ => apply H end.
      apply list_elem_of_fmap. exists y. split; [done|]. by apply list_elem_of_filter.
  - repeat apply Forall_cons_2; [| |done].
    + unfold RefactoredOps.renameChore.
      destruct (renamedChore (chores data) id trimmed) as [cs|] eqn:Hcs; [|done].
      repeat case_decide; cbn [fst];
        [by rewrite normalize_chores, normalize_people..|].
      split; [|done]. cbn. by apply renamedChore_ids in Hcs.
    + unfold RefactoredOps.renamePerson.
      destruct (renamedPerson (people data) id trimmed) as [ps|] eqn:Hps; [|done].
      repeat case_decide; cbn [fst]; unfold RefactoredOps.renderAll,
        RefactoredOps.renderAvailability; rewrite normalize_chores, normalize_people;
        [done..|].
      split; [done|]. cbn. by apply renamedPerson_ids in Hps.
Qed.

Lemma refactored_names_witness :
  idsDistinct tidyHistory ∧ namesDistinct (λ name, name) tidyHistory ∧
  (RefactoredOps.addChore (λ name, name) tidyHistory "c3" "Trash").2
  = [WarningText msgChoreExists] ∧
  chores (RefactoredOps.renameChore (λ name, name) tidyHistory "2024-03-10" "c1" "Laundry").1
  = [mkChore "c1" "Laundry"; mkChore "c2" "Trash"] ∧
  Forall (namesDistinct (λ name, name))
    [(RefactoredOps.addChore (λ name, name) tidyHistory "c1" "Laundry").1;
     (RefactoredOps.addPerson (λ name, name) tidyHistory "2024-03-10" "c1" "Laundry").1;
     (RefactoredOps.renameChore (λ name, name) tidyHistory "2024-03-10" "c1" "Laundry").1;
     (RefactoredOps.renamePerson (λ name, name) tidyHistory "2024-03-10" "c1" "Laundry").1] ∧
  Forall (λ after, chore_id <$> chores after = chore_id <$> chores tidyHistory ∧
                   person_id <$> people after = person_id <$> people tidyHistory)
    [(RefactoredOps.renameChore (λ name, name) tidyHistory "2024-03-10" "c1" "Laundry").1;
     (RefactoredOps.renamePerson (λ name, name) tidyHistory "2024-03-10" "c1" "Laundry").1].
Proof.
  assert (idsDistinct tidyHistory) as Hids
    by (split; apply (bool_decide_unpack _); vm_compute; exact I).
  assert (namesDistinct (λ name, name) tidyHistory) as Hnames
    by (split; apply (bool_decide_unpack _); vm_compute; exact I).
  split; [exact Hids|]. split; [exact Hnames|].
  split; [reflexivity|]. split; [reflexivity|].
  exact (refactored_names_stay_distinct (λ name, name) tidyHistory "2024-03-10" "c1"
           "Laundry" Hids Hnames).
Defined.
